(** * Hardware control backend: health monitor, device service, sequencing
      engine and task store

    A shallow embedding of [backend.py] and [robotic_arm_backend.py].
    Mutable objects become records threaded through the operations, Python
    dictionaries become finite maps, [float] is IEEE 754 binary64 with
    round-to-nearest-even, and the serial device is an oracle that scripts
    the outcome of every exchange.  Text is 8-bit: replies are modelled
    after [decode()], restricted to ASCII. *)

From Stdlib Require Import ZArith List String Ascii Lia Bool QArith.
From Stdlib Require Import Floats.SpecFloat.
From stdpp Require Import base option list gmap strings pretty.
Import ListNotations.

Local Open Scope string_scope.
Local Open Scope Z_scope.
Local Open Scope list_scope.

(** ** The interpreter's numbers and strings *)

Module Py.

(** *** binary64 *)

Definition prec : Z := 53.
Definition emax : Z := 1024.

Abbreviation float := spec_float.

Definition fadd : float -> float -> float := SFadd prec emax.
Definition fsub : float -> float -> float := SFsub prec emax.
Definition fmul : float -> float -> float := SFmul prec emax.
Definition fdiv : float -> float -> float := SFdiv prec emax.
Definition flt : float -> float -> bool := SFltb.
Definition fle : float -> float -> bool := SFleb.

(** The double nearest to an integer; an infinity past the range. *)
Definition of_Z (n : Z) : float := binary_normalize prec emax n 0 false.

(** Float literals, correctly rounded from their decimal text. *)
Definition f0_0 : float := S754_zero false.
Definition f0_1 : float := S754_finite false 7205759403792794 (-56).
Definition f0_3 : float := S754_finite false 5404319552844595 (-54).
Definition f0_7 : float := S754_finite false 6305039478318694 (-53).
Definition f20_0 : float := of_Z 20.
Definition f30_0 : float := of_Z 30.
Definition f100_0 : float := of_Z 100.

(** Implicit [int] to [float] conversion of a mixed operation:
    [OverflowError] past the double range. *)
Definition float_of_int (n : Z) : option float :=
  match of_Z n with
  | S754_infinity _ => None
  | f => Some f
  end.

(** [int(x)] on a float: truncation toward zero; [OverflowError] on an
    infinity and [ValueError] on a NaN. *)
Definition int_of_float (x : float) : option Z :=
  match x with
  | S754_zero _ => Some 0
  | S754_finite s m e =>
      let a := match e with
               | Z0 => Zpos m
               | Zpos _ => Z.shiftl (Zpos m) e
               | Zneg _ => Z.shiftr (Zpos m) (- e)
               end in
      Some (if s then - a else a)
  | S754_infinity _ | S754_nan => None
  end.

(** [a / b] on two [int]s: the correctly rounded quotient;
    [ZeroDivisionError] on [b = 0], [OverflowError] past the double
    range. *)
Definition int_truediv (a b : Z) : option float :=
  if b =? 0 then None
  else if a =? 0 then Some (S754_zero (b <? 0))
  else
    let '(q, e, l) := SFdiv_core_binary prec emax (Z.abs a) 0 (Z.abs b) 0 in
    match binary_round_aux prec emax (xorb (a <? 0) (b <? 0)) q e l with
    | S754_infinity _ => None
    | f => Some f
    end.

(** Two-argument [max] and [min]: the first argument is kept unless the
    second compares strictly beyond it. *)
Definition fmax (a b : float) : float := if flt a b then b else a.
Definition fmin (a b : float) : float := if flt b a then b else a.

(** [sum] over a list of floats: plain accumulation from the left, as the
    interpreters before 3.12 do it. *)
Definition fsum (l : list float) : float := fold_left fadd l f0_0.

(** *** Text *)

(** [str.isspace] on an ASCII character. *)
Definition isspace (c : ascii) : bool :=
  let n := N_of_ascii c in
  ((9 <=? n) && (n <=? 13) || (28 <=? n) && (n <=? 32))%N.

Fixpoint lstrip (s : string) : string :=
  match s with
  | String c s' => if isspace c then lstrip s' else s
  | EmptyString => EmptyString
  end.

Fixpoint rstrip (s : string) : string :=
  match s with
  | String c s' =>
      match rstrip s' with
      | EmptyString => if isspace c then EmptyString else String c EmptyString
      | r => String c r
      end
  | EmptyString => EmptyString
  end.

Definition strip (s : string) : string := rstrip (lstrip s).

Definition is_digit_char (c : ascii) : bool :=
  let n := N_of_ascii c in ((48 <=? n) && (n <=? 57))%N.

Fixpoint all_digits (s : string) : bool :=
  match s with
  | String c s' => is_digit_char c && all_digits s'
  | EmptyString => true
  end.

(** [str.isdigit]: at least one character, all of them decimal digits. *)
Definition isdigit (s : string) : bool :=
  match s with
  | EmptyString => false
  | _ => all_digits s
  end.

Fixpoint int_of_digits_from (acc : Z) (s : string) : Z :=
  match s with
  | String c s' =>
      int_of_digits_from (10 * acc + (Z.of_N (N_of_ascii c) - 48)) s'
  | EmptyString => acc
  end.

(** [int(s)] on a string that passed [isdigit]; any number of digits is
    converted, as the interpreters before 3.11 do. *)
Definition int_of_digits (s : string) : Z := int_of_digits_from 0 s.

(** [s.split(',')] *)
Fixpoint split_comma (s : string) : list string :=
  match s with
  | EmptyString => [EmptyString]
  | String c s' =>
      if Ascii.eqb c ","
      then EmptyString :: split_comma s'
      else match split_comma s' with
           | w :: ws => String c w :: ws
           | [] => [String c EmptyString]
           end
  end.

Definition startswith (p s : string) : bool := String.prefix p s.

(** [float(s)] on decimal digit text, surrounding whitespace ignored.
    Only such text reaches it in this program; any other literal is
    reported as a [ValueError]. *)
Definition float_of_str (s : string) : option float :=
  let t := strip s in
  if isdigit t then Some (of_Z (int_of_digits t)) else None.

End Py.

(** ** The serial link

    Each exchange with the device is scripted: what the link does with the
    next command, and what [time.time()] reads once the exchange is over.
    A device whose script has run out stays silent, and [readline] then
    returns the empty line of a timeout. *)

Module Link.
Import Py.

Inductive exchange :=
| Reply (line : string) (t : float)
| WriteError (msg : string) (t : float)
| ReadError (msg : string) (t : float).

Record Device := {
  script : list exchange;
  wire : list string;
  clock : float
}.

Record Serial := { is_open : bool }.

(** What the link does with the next command. *)
Definition next_exchange (d : Device) : exchange * list exchange :=
  match script d with
  | x :: rest => (x, rest)
  | [] => (Reply "" (clock d), [])
  end.

(** The line terminator appended to every command. *)
Definition newline : string := String "010"%char EmptyString.

End Link.

(** ** backend.py *)

Module Backend.
Import Py Link.

Inductive HardwareState :=
| DISCONNECTED | CONNECTING | CONNECTED | ERROR | RECONNECTING.

#[global] Instance HardwareState_eq_dec : EqDecision HardwareState.
Proof. solve_decision. Defined.

Definition HardwareState_value (s : HardwareState) : string :=
  match s with
  | DISCONNECTED => "disconnected"
  | CONNECTING => "connecting"
  | CONNECTED => "connected"
  | ERROR => "error"
  | RECONNECTING => "reconnecting"
  end.

Inductive EventType :=
| CONNECTION_ESTABLISHED | CONNECTION_LOST | HARDWARE_ERROR
| PIN_STATE_CHANGED | ANALOG_VALUE_CHANGED
| SEQUENCE_STARTED | SEQUENCE_COMPLETED | SYSTEM_STATUS.

#[global] Instance EventType_eq_dec : EqDecision EventType.
Proof. solve_decision. Defined.

(** The values that occur in event payloads and in sequence steps. *)
Inductive value :=
| VInt (n : Z)
| VFloat (x : float)
| VStr (s : string)
| VBool (b : bool).

(** A [Dict[str, Any]] written as a literal: keys in source order. *)
Definition pydict := list (string * value).

Record HardwareEvent := {
  event_type : EventType;
  timestamp : float;
  data : pydict;
  source : string
}.

Record PinConfiguration := {
  pin_number : Z;
  mode : string;
  initial_state : Z;
  debounce_ms : Z;
  smoothing_enabled : bool;
  smoothing_factor : float
}.

Record HardwareStatus := {
  state : HardwareState;
  connected_at : option float;
  last_command : option float;
  total_commands : Z;
  successful_commands : Z;
  error_count : Z;
  average_response_time : float;
  pin_states : gmap Z Z;
  analog_values : gmap string Z
}.

(** An entry of [HardwareMonitor.error_log]. *)
Record ErrorEntry := {
  err_timestamp : float;
  err_error : string;
  err_context : string;
  err_state : string
}.

Record HardwareMonitor := {
  status : HardwareStatus;
  response_times : list float;
  error_log : list ErrorEntry
}.

(** *** HardwareMonitor *)

Definition HardwareMonitor_init : HardwareMonitor :=
  {| status := {| state := DISCONNECTED;
                  connected_at := None;
                  last_command := None;
                  total_commands := 0;
                  successful_commands := 0;
                  error_count := 0;
                  average_response_time := f0_0;
                  pin_states := ∅;
                  analog_values := ∅ |};
     response_times := [];
     error_log := [] |}.

Definition set_status (f : HardwareStatus -> HardwareStatus)
    (m : HardwareMonitor) : HardwareMonitor :=
  {| status := f (status m);
     response_times := response_times m;
     error_log := error_log m |}.

Definition set_state (v : HardwareState) (st : HardwareStatus) :=
  {| state := v;
     connected_at := connected_at st;
     last_command := last_command st;
     total_commands := total_commands st;
     successful_commands := successful_commands st;
     error_count := error_count st;
     average_response_time := average_response_time st;
     pin_states := pin_states st;
     analog_values := analog_values st |}.

Definition set_connected_at (v : option float) (st : HardwareStatus) :=
  {| state := state st;
     connected_at := v;
     last_command := last_command st;
     total_commands := total_commands st;
     successful_commands := successful_commands st;
     error_count := error_count st;
     average_response_time := average_response_time st;
     pin_states := pin_states st;
     analog_values := analog_values st |}.

Definition set_last_command (v : option float) (st : HardwareStatus) :=
  {| state := state st;
     connected_at := connected_at st;
     last_command := v;
     total_commands := total_commands st;
     successful_commands := successful_commands st;
     error_count := error_count st;
     average_response_time := average_response_time st;
     pin_states := pin_states st;
     analog_values := analog_values st |}.

Definition set_total_commands (v : Z) (st : HardwareStatus) :=
  {| state := state st;
     connected_at := connected_at st;
     last_command := last_command st;
     total_commands := v;
     successful_commands := successful_commands st;
     error_count := error_count st;
     average_response_time := average_response_time st;
     pin_states := pin_states st;
     analog_values := analog_values st |}.

Definition set_successful_commands (v : Z) (st : HardwareStatus) :=
  {| state := state st;
     connected_at := connected_at st;
     last_command := last_command st;
     total_commands := total_commands st;
     successful_commands := v;
     error_count := error_count st;
     average_response_time := average_response_time st;
     pin_states := pin_states st;
     analog_values := analog_values st |}.

Definition set_error_count (v : Z) (st : HardwareStatus) :=
  {| state := state st;
     connected_at := connected_at st;
     last_command := last_command st;
     total_commands := total_commands st;
     successful_commands := successful_commands st;
     error_count := v;
     average_response_time := average_response_time st;
     pin_states := pin_states st;
     analog_values := analog_values st |}.

Definition set_average_response_time (v : float) (st : HardwareStatus) :=
  {| state := state st;
     connected_at := connected_at st;
     last_command := last_command st;
     total_commands := total_commands st;
     successful_commands := successful_commands st;
     error_count := error_count st;
     average_response_time := v;
     pin_states := pin_states st;
     analog_values := analog_values st |}.

(** [list.pop(0)] on a list that is known to be non-empty. *)
Definition pop0 {A} (l : list A) : list A := tail l.

(** The divisor of the average is the length of a list that holds what
    was just appended, so it is never zero. *)
Definition update_response_time (response_time : float)
    (m : HardwareMonitor) : HardwareMonitor :=
  let appended := response_times m ++ [response_time] in
  let kept :=
    if 100 <? Z.of_nat (length appended) then pop0 appended else appended in
  {| status :=
       set_average_response_time
         (fdiv (fsum kept) (of_Z (Z.of_nat (length kept)))) (status m);
     response_times := kept;
     error_log := error_log m |}.

Definition record_command (success : bool)
    (m : HardwareMonitor) : HardwareMonitor :=
  let m1 :=
    set_status (fun st => set_total_commands (total_commands st + 1) st) m in
  if success
  then set_status
         (fun st => set_successful_commands (successful_commands st + 1) st)
         m1
  else set_status (fun st => set_error_count (error_count st + 1) st) m1.

(** [now] is what [time.time()] returns for the entry's timestamp. *)
Definition record_error (now : float) (error context : string)
    (m : HardwareMonitor) : HardwareMonitor :=
  let m1 :=
    set_status (fun st => set_error_count (error_count st + 1) st) m in
  let error_entry :=
    {| err_timestamp := now;
       err_error := error;
       err_context := context;
       err_state := HardwareState_value (state (status m1)) |} in
  let appended := error_log m1 ++ [error_entry] in
  {| status := status m1;
     response_times := response_times m1;
     error_log :=
       if 50 <? Z.of_nat (length appended) then pop0 appended
       else appended |}.

(** [None] stands for an exception leaving the method. *)
Definition get_health_score (m : HardwareMonitor) : option float :=
  let st := status m in
  if total_commands st =? 0
  then Some (if decide (state st = CONNECTED) then f100_0 else f0_0)
  else
    success_rate ← int_truediv (successful_commands st) (total_commands st);
    let response_penalty :=
      fmin f20_0
           (fmax f0_0 (fmul (fsub (average_response_time st) f0_1) f100_0)) in
    ratio ← int_truediv (error_count st) (Z.max 1 (total_commands st));
    let error_penalty := fmul ratio f30_0 in
    let health_score :=
      fsub (fsub (fmul success_rate f100_0) response_penalty)
           error_penalty in
    Some (fmax f0_0 (fmin f100_0 health_score)).

(** *** The objects of one backend

    [BackendManager] builds one monitor, one event manager, one hardware
    interface, one service and one engine, and hands each the same
    references; the record holds the fields of all of them once. *)

Record Sequence := {
  seq_name : string;
  steps : list pydict;
  loop : bool;
  interval : float;
  enabled : bool;
  current_step : Z;
  start_time : option float
}.

Record System := {
  dev : Device;
  serial_port : option Serial;
  monitor : HardwareMonitor;
  pin_configs : gmap Z PinConfiguration;
  analog_smoothing : gmap string (list Z);
  event_queue : list HardwareEvent;
  sequences : gmap string Sequence
}.

(** [HardwareService.smoothing_window], set once in [__init__]. *)
Definition smoothing_window : Z := 5.

Definition set_dev (v : Device) (s : System) : System :=
  {| dev := v; serial_port := serial_port s; monitor := monitor s;
     pin_configs := pin_configs s; analog_smoothing := analog_smoothing s;
     event_queue := event_queue s; sequences := sequences s |}.

Definition set_serial_port (v : option Serial) (s : System) : System :=
  {| dev := dev s; serial_port := v; monitor := monitor s;
     pin_configs := pin_configs s; analog_smoothing := analog_smoothing s;
     event_queue := event_queue s; sequences := sequences s |}.

Definition set_monitor (v : HardwareMonitor) (s : System) : System :=
  {| dev := dev s; serial_port := serial_port s; monitor := v;
     pin_configs := pin_configs s; analog_smoothing := analog_smoothing s;
     event_queue := event_queue s; sequences := sequences s |}.

Definition set_pin_configs (v : gmap Z PinConfiguration) (s : System)
    : System :=
  {| dev := dev s; serial_port := serial_port s; monitor := monitor s;
     pin_configs := v; analog_smoothing := analog_smoothing s;
     event_queue := event_queue s; sequences := sequences s |}.

Definition set_analog_smoothing (v : gmap string (list Z)) (s : System)
    : System :=
  {| dev := dev s; serial_port := serial_port s; monitor := monitor s;
     pin_configs := pin_configs s; analog_smoothing := v;
     event_queue := event_queue s; sequences := sequences s |}.

Definition set_event_queue (v : list HardwareEvent) (s : System) : System :=
  {| dev := dev s; serial_port := serial_port s; monitor := monitor s;
     pin_configs := pin_configs s; analog_smoothing := analog_smoothing s;
     event_queue := v; sequences := sequences s |}.

Definition set_sequences (v : gmap string Sequence) (s : System) : System :=
  {| dev := dev s; serial_port := serial_port s; monitor := monitor s;
     pin_configs := pin_configs s; analog_smoothing := analog_smoothing s;
     event_queue := event_queue s; sequences := v |}.

(** The objects as [BackendManager.__init__] builds them, in front of
    device [d]. *)
Definition System_init (d : Device) : System :=
  {| dev := d;
     serial_port := None;
     monitor := HardwareMonitor_init;
     pin_configs := ∅;
     analog_smoothing := ∅;
     event_queue := [];
     sequences := ∅ |}.

(** [EventManager.emit] *)
Definition emit (e : HardwareEvent) (s : System) : System :=
  set_event_queue (event_queue s ++ [e]) s.

(** *** STM32HardwareInterface *)

Definition is_connected (s : System) : bool :=
  match serial_port s with
  | Some p => is_open p && bool_decide (state (status (monitor s)) = CONNECTED)
  | None => false
  end.

(** [unavailable] is the text of the [SerialException] when the port
    cannot be opened.  Otherwise the port is opened and probed with
    [GET_STATUS]; whatever the probe raises counts as a failed probe. *)
Definition connect (port : string) (baudrate : Z)
    (unavailable : option string) (s : System) : bool * System :=
  match unavailable with
  | Some e =>
      (false,
       set_monitor
         (record_error (clock (dev s)) ("Connection failed: " +:+ e)
            ("Port: " +:+ port +:+ ", Baud: " +:+ pretty baudrate)
            (monitor s)) s)
  | None =>
      let '(x, rest) := next_exchange (dev s) in
      let probe := wire (dev s) ++ ["GET_STATUS" +:+ newline] in
      let closed := set_serial_port (Some {| is_open := false |}) in
      match x with
      | Reply line t =>
          let d := {| script := rest; wire := probe; clock := t |} in
          if startswith "STATUS:" (strip line) then
            (true,
             set_monitor
               (set_status
                  (fun st => set_connected_at (Some t) (set_state CONNECTED st))
                  (monitor s))
               (set_serial_port (Some {| is_open := true |}) (set_dev d s)))
          else (false, closed (set_dev d s))
      | WriteError _ t =>
          (false,
           closed (set_dev {| script := rest; wire := wire (dev s);
                              clock := t |} s))
      | ReadError _ t =>
          (false,
           closed (set_dev {| script := rest; wire := probe; clock := t |} s))
      end
  end.

Definition disconnect (s : System) : System :=
  let s1 :=
    match serial_port s with
    | Some p => if is_open p
                then set_serial_port (Some {| is_open := false |}) s
                else s
    | None => s
    end in
  set_monitor (set_status (set_state DISCONNECTED) (monitor s1)) s1.

Definition send_command (command : string) (s : System) : string * System :=
  if negb (is_connected s) then ("Hardware not connected", s)
  else
    let start_time := clock (dev s) in
    let '(x, rest) := next_exchange (dev s) in
    let sent := wire (dev s) ++ [command +:+ newline] in
    match x with
    | Reply line t =>
        let response := strip line in
        let response_time := fsub t start_time in
        let m1 := update_response_time response_time (monitor s) in
        let m2 := record_command true m1 in
        let m3 := set_status (set_last_command (Some t)) m2 in
        (response,
         set_monitor m3
           (set_dev {| script := rest; wire := sent; clock := t |} s))
    | WriteError msg t | ReadError msg t =>
        let response_time := fsub t start_time in
        let m1 := update_response_time response_time (monitor s) in
        let m2 := record_command false m1 in
        let m3 := record_error t msg command m2 in
        ("Command error: " +:+ msg,
         set_monitor m3
           (set_dev {| script := rest;
                       wire := match x with
                               | WriteError _ _ => wire (dev s)
                               | _ => sent
                               end;
                       clock := t |} s))
    end.

(** *** HardwareService *)

Definition configure_pin (pin : Z) (mode : string) (debounce_ms : Z)
    (smoothing : bool) (s : System) : bool * System :=
  let '(response, s1) :=
    send_command ("PIN_MODE:" +:+ pretty pin +:+ ":" +:+ mode) s in
  if String.eqb response "OK" then
    let config :=
      {| pin_number := pin;
         mode := mode;
         initial_state := 0;
         debounce_ms := debounce_ms;
         smoothing_enabled := smoothing;
         smoothing_factor := f0_3 |} in
    (true, set_pin_configs (<[pin := config]> (pin_configs s1)) s1)
  else (false, s1).

Definition digital_write (pin state : Z) (s : System) : bool * System :=
  let s0 :=
    match pin_configs s !! pin with
    | None => snd (configure_pin pin "OUTPUT" 50 true s)
    | Some _ => s
    end in
  let '(response, s1) :=
    send_command
      ("DIGITAL_WRITE:" +:+ pretty pin +:+ ":" +:+ pretty state) s0 in
  if String.eqb response "OK" then
    let event :=
      {| event_type := PIN_STATE_CHANGED;
         timestamp := clock (dev s1);
         data := [("pin", VInt pin); ("state", VInt state);
                  ("type", VStr "digital")];
         source := "hardware" |} in
    (true, emit event s1)
  else (false, s1).

Definition digital_read (pin : Z) (s : System) : option Z * System :=
  let '(response, s1) :=
    send_command ("DIGITAL_READ:" +:+ pretty pin) s in
  if String.eqb response "0" || String.eqb response "1" then
    let state := int_of_digits response in
    let event :=
      {| event_type := PIN_STATE_CHANGED;
         timestamp := clock (dev s1);
         data := [("pin", VInt pin); ("state", VInt state);
                  ("type", VStr "digital")];
         source := "hardware" |} in
    (Some state, emit event s1)
  else (None, s1).

(** [None] stands for an exception, raised before the window is touched:
    [IndexError] on an empty window, [OverflowError] from a conversion.
    Otherwise the smoothed value and the window as the call leaves it. *)
Definition _apply_smoothing (values : list Z) (new_value : Z)
    : option (float * list Z) :=
  prev ← last values;
  a ← float_of_int prev;
  b ← float_of_int new_value;
  let smoothed := fadd (fmul a f0_7) (fmul b f0_3) in
  i ← int_of_float smoothed;
  let appended := values ++ [i] in
  Some (smoothed,
        if smoothing_window <? Z.of_nat (length appended)
        then pop0 appended else appended).

Definition analog_read (pin : string) (s : System) : option Z * System :=
  let '(response, s1) := send_command ("ANALOG_READ:" +:+ pin) s in
  if isdigit response then
    let value := int_of_digits response in
    let outcome :=
      match analog_smoothing s1 !! pin with
      | Some values =>
          match _apply_smoothing values value with
          | Some (smoothed, values') =>
              let s2 :=
                set_analog_smoothing
                  (<[pin := values']> (analog_smoothing s1)) s1 in
              match int_of_float smoothed with
              | Some final_value => (Some final_value, s2)
              | None => (None, s2)
              end
          | None => (None, s1)
          end
      | None =>
          (Some value,
           set_analog_smoothing
             (<[pin := replicate (Z.to_nat smoothing_window) value]>
                (analog_smoothing s1)) s1)
      end in
    match outcome with
    | (Some final_value, s2) =>
        let event :=
          {| event_type := ANALOG_VALUE_CHANGED;
             timestamp := clock (dev s2);
             data := [("pin", VStr pin); ("value", VInt final_value);
                      ("raw_value", VInt value)];
             source := "hardware" |} in
        (Some final_value, emit event s2)
    | (None, s2) => (None, s2)
    end
  else (None, s1).

Definition _on_connection_lost (event : HardwareEvent) (s : System)
    : System :=
  set_analog_smoothing ∅ s.

(** *** AutomationEngine *)

(** [BackendManager.disconnect_hardware] starts by reading
    [self.active_sequences], an attribute the engine has and the manager
    has not: the call raises [AttributeError] there, before the link is
    closed and before [CONNECTION_LOST] is published.  [None] stands for
    the exception. *)
Definition disconnect_hardware (s : System) : option System := None.

Definition create_sequence (name : string) (steps : list pydict)
    (loop : bool) (interval : float) (s : System) : bool * System :=
  let sequence :=
    {| seq_name := name;
       steps := steps;
       loop := loop;
       interval := interval;
       enabled := true;
       current_step := 0;
       start_time := None |} in
  let s1 := set_sequences (<[name := sequence]> (sequences s)) s in
  let event :=
    {| event_type := SEQUENCE_STARTED;
       timestamp := clock (dev s1);
       data := [("sequence_name", VStr name);
                ("step_count", VInt (Z.of_nat (length steps)))];
       source := "hardware" |} in
  (true, emit event s1).

(** [AutomationEngine.active_sequences], beside the objects the engine
    shares with the rest of the backend: the names that have a run.  The
    thread object kept under each name is not modelled, and what the
    thread does later is not part of the calls below. *)
Record Engine := {
  system : System;
  active_sequences : gset string
}.

Definition stop_sequence (name : string) (e : Engine) : bool * Engine :=
  if decide (name ∈ active_sequences e) then
    let event :=
      {| event_type := SEQUENCE_COMPLETED;
         timestamp := clock (dev (system e));
         data := [("sequence_name", VStr name); ("stopped", VBool true)];
         source := "hardware" |} in
    (true,
     {| system := emit event (system e);
        active_sequences := active_sequences e ∖ {[name]} |})
  else (false, e).

(** [thread.start()] is the last statement before [return True].  The
    third component is the run it starts, by the name the run is given, and
    the engine is the state in which the run starts.  From there on the run
    goes on beside the caller: what it does is [_run_sequence]'s, and is no
    part of this function. *)
Definition start_sequence (name : string) (e : Engine)
    : bool * Engine * option string :=
  match sequences (system e) !! name with
  | None => (false, e, None)
  | Some sequence =>
      if negb (enabled sequence) then (false, e, None)
      else
        let e1 :=
          if decide (name ∈ active_sequences e)
          then snd (stop_sequence name e) else e in
        let started :=
          {| seq_name := seq_name sequence;
             steps := steps sequence;
             loop := loop sequence;
             interval := interval sequence;
             enabled := enabled sequence;
             current_step := 0;
             start_time := Some (clock (dev (system e1))) |} in
        (true,
         {| system :=
              set_sequences (<[name := started]> (sequences (system e1)))
                (system e1);
            active_sequences := {[name]} ∪ active_sequences e1 |},
         Some name)
  end.

(** *** BackendManager *)

(** [for pin in range(2, 14): configure_pin(pin, "OUTPUT")] *)
Definition _initialize_default_pins (s : System) : System :=
  fold_left (fun s pin => snd (configure_pin pin "OUTPUT" 50 true s))
    (seqZ 2 12) s.

(** The event is queued; what the handlers of the event thread do with it
    later is not part of the call. *)
Definition connect_hardware (port : string) (baudrate : Z)
    (unavailable : option string) (s : System) : bool * System :=
  let '(connected, s1) := connect port baudrate unavailable s in
  if connected then
    let event :=
      {| event_type := CONNECTION_ESTABLISHED;
         timestamp := clock (dev s1);
         data := [("port", VStr port); ("baudrate", VInt baudrate)];
         source := "hardware" |} in
    (true, _initialize_default_pins (emit event s1))
  else
    let event :=
      {| event_type := HARDWARE_ERROR;
         timestamp := clock (dev s1);
         data := [("error", VStr "Connection failed"); ("port", VStr port)];
         source := "hardware" |} in
    (false, emit event s1).

End Backend.

(** ** backend.py: the event manager on its own

    A callback is known by its identity, and each invocation is recorded
    with the event it received; what a callback raises is logged and
    dropped, and a callback does not reach back into the manager. *)

Module Events.
Import Py Link Backend.

Record EventManager := {
  listeners : list (EventType * list nat);
  event_queue : list HardwareEvent;
  running : bool;
  delivered : list (nat * HardwareEvent)
}.

Definition EventManager_init : EventManager :=
  {| listeners := []; event_queue := []; running := false; delivered := [] |}.

(** [d.get(key)] and [d[key] = v] on a dictionary that keeps the order in
    which its keys were first set. *)
Fixpoint dict_get (key : EventType) (d : list (EventType * list nat))
    : option (list nat) :=
  match d with
  | [] => None
  | (k, v) :: rest => if decide (k = key) then Some v else dict_get key rest
  end.

Fixpoint dict_set (key : EventType) (v : list nat)
    (d : list (EventType * list nat)) : list (EventType * list nat) :=
  match d with
  | [] => [(key, v)]
  | (k, w) :: rest =>
      if decide (k = key) then (k, v) :: rest
      else (k, w) :: dict_set key v rest
  end.

(** [l.remove(x)]: the first occurrence goes; [None] for the
    [ValueError] when there is none. *)
Fixpoint list_remove (x : nat) (l : list nat) : option (list nat) :=
  match l with
  | [] => None
  | y :: rest =>
      if decide (y = x) then Some rest
      else rest' ← list_remove x rest; Some (y :: rest')
  end.

Definition set_listeners (v : list (EventType * list nat))
    (m : EventManager) : EventManager :=
  {| listeners := v; event_queue := event_queue m; running := running m;
     delivered := delivered m |}.

Definition start (m : EventManager) : EventManager :=
  {| listeners := listeners m; event_queue := event_queue m; running := true;
     delivered := delivered m |}.

Definition stop (m : EventManager) : EventManager :=
  {| listeners := listeners m; event_queue := event_queue m; running := false;
     delivered := delivered m |}.

Definition subscribe (event_type : EventType) (callback : nat)
    (m : EventManager) : EventManager :=
  set_listeners
    (dict_set event_type
       (default [] (dict_get event_type (listeners m)) ++ [callback])
       (listeners m)) m.

Definition unsubscribe (event_type : EventType) (callback : nat)
    (m : EventManager) : EventManager :=
  match dict_get event_type (listeners m) with
  | Some l =>
      match list_remove callback l with
      | Some l' => set_listeners (dict_set event_type l' (listeners m)) m
      | None => m
      end
  | None => m
  end.

Definition emit (event : HardwareEvent) (m : EventManager) : EventManager :=
  {| listeners := listeners m; event_queue := event_queue m ++ [event];
     running := running m; delivered := delivered m |}.

(** One turn of the loop of [_process_events] that finds the manager
    running: the oldest event, if there is one, goes to every listener of
    its type, in the order of the list. *)
Definition process_one (m : EventManager) : EventManager :=
  match event_queue m with
  | [] => m
  | event :: rest =>
      {| listeners := listeners m;
         event_queue := rest;
         running := running m;
         delivered :=
           delivered m
           ++ map (fun callback => (callback, event))
                (default [] (dict_get (event_type event) (listeners m))) |}
  end.

(** [_process_events], cut off after [turns] turns of its loop. *)
Fixpoint _process_events (turns : nat) (m : EventManager) : EventManager :=
  match turns with
  | O => m
  | S turns' =>
      if running m then _process_events turns' (process_one m) else m
  end.

End Events.

(** ** robotic_arm_backend.py *)

Module RoboticArm.
Import Py Link.

Inductive TrajectoryType := SMOOTH | LINEAR | CPG.

Inductive MotionProfile := FAST | NORMAL | SLOW | PRECISE.

#[global] Instance TrajectoryType_eq_dec : EqDecision TrajectoryType.
Proof. solve_decision. Defined.

#[global] Instance MotionProfile_eq_dec : EqDecision MotionProfile.
Proof. solve_decision. Defined.

(** [.value] of a member. *)
Definition TrajectoryType_value (t : TrajectoryType) : string :=
  match t with
  | SMOOTH => "smooth"
  | LINEAR => "linear"
  | CPG => "cpg"
  end.

Definition MotionProfile_value (p : MotionProfile) : string :=
  match p with
  | FAST => "fast"
  | NORMAL => "normal"
  | SLOW => "slow"
  | PRECISE => "precise"
  end.

(** [TrajectoryType(text)]: the member with that value, [ValueError]
    when there is none. *)
Definition TrajectoryType_of (v : string) : option TrajectoryType :=
  if String.eqb v "smooth" then Some SMOOTH
  else if String.eqb v "linear" then Some LINEAR
  else if String.eqb v "cpg" then Some CPG
  else None.

Definition MotionProfile_of (v : string) : option MotionProfile :=
  if String.eqb v "fast" then Some FAST
  else if String.eqb v "normal" then Some NORMAL
  else if String.eqb v "slow" then Some SLOW
  else if String.eqb v "precise" then Some PRECISE
  else None.

Record Waypoint := {
  positions : list float;
  delay_ms : Z;
  trajectory_type : TrajectoryType;
  motion_profile : MotionProfile;
  timestamp : float
}.

Record TaskSequence := {
  name : string;
  description : string;
  waypoints : list Waypoint;
  loop_count : Z;
  created_at : float;
  modified_at : float
}.

(** The [performance_metrics] dictionary: four fixed keys. *)
Record Metrics := {
  total_commands : Z;
  successful_commands : Z;
  average_response_time : float;
  error_count : Z
}.

(** What [json.load] returns and [json.dump] accepts.  A file is kept
    as the document written to it: the library's text encoding reads
    back every such document, floats included, as it was written. *)
#[warnings="-register-all"] Inductive json :=
| JNull
| JBool (b : bool)
| JInt (n : Z)
| JFloat (x : float)
| JStr (s : string)
| JArr (items : list json)
| JObj (fields : list (string * json)).

(** The fields of the backend that the task store, the position reader
    and the command channel use, with the device, the files on disk and
    the record of callback invocations.  A callback is known by its
    identity. *)
Record RoboticArmBackend := {
  max_waypoints : Z;
  max_tasks : Z;
  serial_port : option Serial;
  is_connected : bool;
  tasks : gmap string TaskSequence;
  current_positions : list float;
  position_callbacks : list nat;
  performance_metrics : Metrics;
  dev : Device;
  files : gmap string json;
  notified : list (nat * list float)
}.

Definition RoboticArmBackend_init (max_waypoints max_tasks : Z)
    (d : Device) (fs : gmap string json) : RoboticArmBackend :=
  {| max_waypoints := max_waypoints;
     max_tasks := max_tasks;
     serial_port := None;
     is_connected := false;
     tasks := ∅;
     current_positions := replicate 7 f0_0;
     position_callbacks := [];
     performance_metrics :=
       {| total_commands := 0; successful_commands := 0;
          average_response_time := f0_0; error_count := 0 |};
     dev := d;
     files := fs;
     notified := [] |}.

Definition set_tasks (v : gmap string TaskSequence) (s : RoboticArmBackend)
    : RoboticArmBackend :=
  {| max_waypoints := max_waypoints s; max_tasks := max_tasks s;
     serial_port := serial_port s; is_connected := is_connected s;
     tasks := v; current_positions := current_positions s;
     position_callbacks := position_callbacks s;
     performance_metrics := performance_metrics s;
     dev := dev s; files := files s; notified := notified s |}.

Definition set_files (v : gmap string json) (s : RoboticArmBackend)
    : RoboticArmBackend :=
  {| max_waypoints := max_waypoints s; max_tasks := max_tasks s;
     serial_port := serial_port s; is_connected := is_connected s;
     tasks := tasks s; current_positions := current_positions s;
     position_callbacks := position_callbacks s;
     performance_metrics := performance_metrics s;
     dev := dev s; files := v; notified := notified s |}.

Definition set_link (m : Metrics) (d : Device) (s : RoboticArmBackend)
    : RoboticArmBackend :=
  {| max_waypoints := max_waypoints s; max_tasks := max_tasks s;
     serial_port := serial_port s; is_connected := is_connected s;
     tasks := tasks s; current_positions := current_positions s;
     position_callbacks := position_callbacks s;
     performance_metrics := m;
     dev := d; files := files s; notified := notified s |}.

Definition set_positions (v : list float) (log : list (nat * list float))
    (s : RoboticArmBackend) : RoboticArmBackend :=
  {| max_waypoints := max_waypoints s; max_tasks := max_tasks s;
     serial_port := serial_port s; is_connected := is_connected s;
     tasks := tasks s; current_positions := v;
     position_callbacks := position_callbacks s;
     performance_metrics := performance_metrics s;
     dev := dev s; files := files s; notified := log |}.

Definition set_connection (port : option Serial) (connected : bool)
    (d : Device) (s : RoboticArmBackend) : RoboticArmBackend :=
  {| max_waypoints := max_waypoints s; max_tasks := max_tasks s;
     serial_port := port; is_connected := connected;
     tasks := tasks s; current_positions := current_positions s;
     position_callbacks := position_callbacks s;
     performance_metrics := performance_metrics s;
     dev := d; files := files s; notified := notified s |}.

(** [unavailable] is the text of the [SerialException] when the port
    cannot be opened.  Otherwise the port is opened and probed with
    [GET_STATUS]; whatever the probe raises counts as a failed probe. *)
Definition connect_serial (port : string) (baudrate : Z)
    (unavailable : option string) (s : RoboticArmBackend)
    : bool * RoboticArmBackend :=
  match unavailable with
  | Some _ => (false, s)
  | None =>
      let '(x, rest) := next_exchange (dev s) in
      let probe := wire (dev s) ++ ["GET_STATUS" +:+ newline] in
      let closed := Some {| is_open := false |} in
      match x with
      | Reply line t =>
          let d := {| script := rest; wire := probe; clock := t |} in
          if startswith "STATUS:" (strip line)
          then (true, set_connection (Some {| is_open := true |}) true d s)
          else (false, set_connection closed (is_connected s) d s)
      | WriteError _ t =>
          (false,
           set_connection closed (is_connected s)
             {| script := rest; wire := wire (dev s); clock := t |} s)
      | ReadError _ t =>
          (false,
           set_connection closed (is_connected s)
             {| script := rest; wire := probe; clock := t |} s)
      end
  end.

Definition add_position_callback (callback : nat) (s : RoboticArmBackend)
    : RoboticArmBackend :=
  {| max_waypoints := max_waypoints s; max_tasks := max_tasks s;
     serial_port := serial_port s; is_connected := is_connected s;
     tasks := tasks s; current_positions := current_positions s;
     position_callbacks := position_callbacks s ++ [callback];
     performance_metrics := performance_metrics s;
     dev := dev s; files := files s; notified := notified s |}.

(** The running average of [send_command]; the text of the exception
    when the arithmetic raises one. *)
Definition running_average (average : float) (successful : Z)
    (response_time : float) : string + float :=
  match float_of_int (successful - 1), float_of_int successful with
  | Some a, Some b =>
      if SFeqb b f0_0 then inl "float division by zero"
      else inr (fdiv (fadd (fmul average a) response_time) b)
  | _, _ => inl "int too large to convert to float"
  end.

Definition send_command (command : string) (s : RoboticArmBackend)
    : string * RoboticArmBackend :=
  if negb (is_connected s) || negb (bool_decide (is_Some (serial_port s)))
  then ("Not connected", s)
  else
    let start_time := clock (dev s) in
    let '(x, rest) := next_exchange (dev s) in
    let sent := wire (dev s) ++ [command +:+ newline] in
    let pm := performance_metrics s in
    let failed (total : Z) (msg : string) (d : Device) :=
      ("Error: " +:+ msg,
       set_link {| total_commands := total + 1;
                   successful_commands := successful_commands pm;
                   average_response_time := average_response_time pm;
                   error_count := error_count pm + 1 |} d s) in
    match x with
    | Reply line t =>
        let d := {| script := rest; wire := sent; clock := t |} in
        let response := strip line in
        let response_time := fsub t start_time in
        let total := total_commands pm + 1 in
        let successful := successful_commands pm + 1 in
        match running_average (average_response_time pm) successful
                response_time with
        | inr average =>
            (response,
             set_link {| total_commands := total;
                         successful_commands := successful;
                         average_response_time := average;
                         error_count := error_count pm |} d s)
        | inl msg =>
            ("Error: " +:+ msg,
             set_link {| total_commands := total + 1;
                         successful_commands := successful;
                         average_response_time := average_response_time pm;
                         error_count := error_count pm + 1 |} d s)
        end
    | WriteError msg t =>
        failed (total_commands pm) msg
               {| script := rest; wire := wire (dev s); clock := t |}
    | ReadError msg t =>
        failed (total_commands pm) msg
               {| script := rest; wire := sent; clock := t |}
    end.

(** Every callback is invoked with the new positions, in registration
    order; what a callback raises is logged and dropped. *)
Definition notify (positions : list float) (s : RoboticArmBackend)
    : list (nat * list float) :=
  notified s ++ map (fun callback => (callback, positions))
                    (position_callbacks s).

Definition read_all_positions (s : RoboticArmBackend)
    : list float * RoboticArmBackend :=
  if negb (is_connected s) then ([], s)
  else
    let '(response, s1) := send_command "readall" s in
    if negb (String.eqb response "") && isdigit response then
      let fields :=
        filter (fun x => strip x ≠ "") (split_comma response) in
      match mapM float_of_str fields with
      | Some positions =>
          match positions with
          | [] => ([], s1)
          | _ :: _ =>
              (positions, set_positions positions (notify positions s1) s1)
          end
      | None => ([], s1)
      end
    else ([], s1).

(** [time.time()] is read off the device clock. *)
Definition create_task (name description : string) (s : RoboticArmBackend)
    : option TaskSequence * RoboticArmBackend :=
  if max_tasks s <=? Z.of_nat (size (tasks s)) then (None, s)
  else
    match tasks s !! name with
    | Some _ => (None, s)
    | None =>
        let task :=
          {| name := name;
             description := description;
             waypoints := [];
             loop_count := 0;
             created_at := clock (dev s);
             modified_at := clock (dev s) |} in
        (Some task, set_tasks (<[name := task]> (tasks s)) s)
    end.

Definition add_waypoint_to_task (task_name : string)
    (positions : list float) (delay_ms : Z)
    (trajectory_type : TrajectoryType) (motion_profile : MotionProfile)
    (s : RoboticArmBackend) : bool * RoboticArmBackend :=
  match tasks s !! task_name with
  | None => (false, s)
  | Some task =>
      if max_waypoints s <=? Z.of_nat (length (waypoints task))
      then (false, s)
      else
        let waypoint :=
          {| positions := positions;
             delay_ms := delay_ms;
             trajectory_type := trajectory_type;
             motion_profile := motion_profile;
             timestamp := clock (dev s) |} in
        let task' :=
          {| name := name task;
             description := description task;
             waypoints := waypoints task ++ [waypoint];
             loop_count := loop_count task;
             created_at := created_at task;
             modified_at := clock (dev s) |} in
        (true, set_tasks (<[task_name := task']> (tasks s)) s)
  end.

(** The dictionary [save_task] builds for one waypoint. *)
Definition waypoint_to_json (wp : Waypoint) : json :=
  JObj [("positions", JArr (map JFloat (positions wp)));
        ("delay_ms", JInt (delay_ms wp));
        ("trajectory_type", JStr (TrajectoryType_value (trajectory_type wp)));
        ("motion_profile", JStr (MotionProfile_value (motion_profile wp)))].

Definition task_to_json (task : TaskSequence) : json :=
  JObj [("name", JStr (name task));
        ("description", JStr (description task));
        ("waypoints", JArr (map waypoint_to_json (waypoints task)));
        ("created_at", JFloat (created_at task));
        ("modified_at", JFloat (modified_at task))].

(** What the file system makes of the write in [save_task]. *)
Inductive write_result :=
| Written
| OpenFails (msg : string)
| WriteFails (msg : string).

(** [written] says how the write goes; every exception is caught and
    turned into [False].  When [open] raises, the files are as they were.
    When the writing raises after [open] has emptied the file, the file is
    left with text that is no JSON document; it is kept as no file at all:
    [load_task], the only reader here, returns [None] on the one as on the
    other. *)
Definition save_task (task_name filename : string) (written : write_result)
    (s : RoboticArmBackend) : bool * RoboticArmBackend :=
  match tasks s !! task_name with
  | None => (false, s)
  | Some task =>
      match written with
      | Written =>
          (true, set_files (<[filename := task_to_json task]> (files s)) s)
      | OpenFails _ => (false, s)
      | WriteFails _ => (false, set_files (delete filename (files s)) s)
      end
  end.

(** [d[key]] and [d.get(key)] on a loaded dictionary. *)
Fixpoint json_get (key : string) (fields : list (string * json))
    : option json :=
  match fields with
  | [] => None
  | (k, v) :: rest => if String.eqb k key then Some v else json_get key rest
  end.

(** The readers below are typed: a field that holds another kind of
    JSON value than [save_task] writes there makes the load fail. *)
Definition as_str (j : json) : option string :=
  match j with JStr s => Some s | _ => None end.

Definition as_int (j : json) : option Z :=
  match j with JInt n => Some n | _ => None end.

Definition as_float (j : json) : option float :=
  match j with JFloat x => Some x | _ => None end.

Definition as_floats (j : json) : option (list float) :=
  match j with JArr items => mapM as_float items | _ => None end.

(** [d.get(key, default)] read at a type. *)
Definition get_or {A} (key : string) (read : json -> option A)
    (default : A) (fields : list (string * json)) : option A :=
  match json_get key fields with
  | Some j => read j
  | None => Some default
  end.

Definition waypoint_of_json (now : float) (wp_data : json)
    : option Waypoint :=
  match wp_data with
  | JObj fields =>
      positions ← json_get "positions" fields ≫= as_floats;
      delay_ms ← get_or "delay_ms" as_int 500 fields;
      trajectory ← get_or "trajectory_type" as_str "smooth" fields;
      trajectory_type ← TrajectoryType_of trajectory;
      profile ← get_or "motion_profile" as_str "normal" fields;
      motion_profile ← MotionProfile_of profile;
      Some {| positions := positions;
              delay_ms := delay_ms;
              trajectory_type := trajectory_type;
              motion_profile := motion_profile;
              timestamp := now |}
  | _ => None
  end.

Definition task_of_json (now : float) (data : json) : option TaskSequence :=
  match data with
  | JObj fields =>
      name ← json_get "name" fields ≫= as_str;
      description ← get_or "description" as_str "" fields;
      created_at ← get_or "created_at" as_float now fields;
      modified_at ← get_or "modified_at" as_float now fields;
      items ← get_or "waypoints"
                (fun j => match j with JArr l => Some l | _ => None end)
                [] fields;
      waypoints ← mapM (waypoint_of_json now) items;
      Some {| name := name;
              description := description;
              waypoints := waypoints;
              loop_count := 0;
              created_at := created_at;
              modified_at := modified_at |}
  | _ => None
  end.

(** Every exception, a missing file included, is caught and turned into
    [None]; the task table is assigned last. *)
Definition load_task (filename : string) (s : RoboticArmBackend)
    : option string * RoboticArmBackend :=
  match files s !! filename ≫= task_of_json (clock (dev s)) with
  | Some task => (Some (name task), set_tasks (<[name task := task]> (tasks s)) s)
  | None => (None, s)
  end.

Definition delete_task (name : string) (s : RoboticArmBackend)
    : bool * RoboticArmBackend :=
  match tasks s !! name with
  | Some _ => (true, set_tasks (delete name (tasks s)) s)
  | None => (false, s)
  end.

(** The dictionary [get_task_info] returns. *)
Record TaskInfo := {
  info_name : string;
  info_description : string;
  info_waypoint_count : Z;
  info_loop_count : Z;
  info_created_at : float;
  info_modified_at : float
}.

Definition get_task_info (name : string) (s : RoboticArmBackend)
    : option TaskInfo :=
  task ← tasks s !! name;
  Some {| info_name := RoboticArm.name task;
          info_description := description task;
          info_waypoint_count := Z.of_nat (length (waypoints task));
          info_loop_count := loop_count task;
          info_created_at := created_at task;
          info_modified_at := modified_at task |}.

(** The update thread the call stops first is not modelled. *)
Definition disconnect (s : RoboticArmBackend) : RoboticArmBackend :=
  set_connection
    (match serial_port s with
     | Some p => if is_open p then Some {| is_open := false |} else Some p
     | None => None
     end)
    false (dev s) s.

(** [l.remove(x)] under the guard [x in l]: the first occurrence goes. *)
Fixpoint remove_first (x : nat) (l : list nat) : list nat :=
  match l with
  | [] => []
  | y :: rest => if decide (y = x) then rest else y :: remove_first x rest
  end.

Definition remove_position_callback (callback : nat) (s : RoboticArmBackend)
    : RoboticArmBackend :=
  {| max_waypoints := max_waypoints s; max_tasks := max_tasks s;
     serial_port := serial_port s; is_connected := is_connected s;
     tasks := tasks s; current_positions := current_positions s;
     position_callbacks := remove_first callback (position_callbacks s);
     performance_metrics := performance_metrics s;
     dev := dev s; files := files s; notified := notified s |}.

Definition get_current_positions (s : RoboticArmBackend) : list float :=
  current_positions s.

(** The loop of [send_positions] from axis [i + 1] on.  [str_of_float] is
    the text an f-string gives a float. *)
Fixpoint send_positions_from (str_of_float : float -> string) (i : Z)
    (positions : list float) (s : RoboticArmBackend)
    : bool * RoboticArmBackend :=
  match positions with
  | [] => (true, s)
  | pos :: rest =>
      let cmd := pretty (i + 1) +:+ " " +:+ str_of_float pos in
      let '(response, s1) := send_command cmd s in
      if String.eqb response "" || startswith "Error" response
      then (false, s1)
      else send_positions_from str_of_float (i + 1) rest s1
  end.

Definition send_positions (str_of_float : float -> string)
    (positions : list float) (s : RoboticArmBackend)
    : bool * RoboticArmBackend :=
  if negb (is_connected s) then (false, s)
  else send_positions_from str_of_float 0 positions s.

End RoboticArm.

(** ** Runs and reference formulas used by the statements *)

Module Runs.
Import Py Link Backend.

(** The calls that reach a [HardwareMonitor]: its three recording methods
    and the assignments the hardware interface makes to [status.state],
    [status.connected_at] and [status.last_command]. *)
Inductive monitor_op :=
| UpdateResponseTime (response_time : float)
| RecordCommand (success : bool)
| RecordError (now : float) (error context : string)
| SetState (v : HardwareState)
| SetConnectedAt (t : option float)
| SetLastCommand (t : option float).

Definition apply_op (m : HardwareMonitor) (op : monitor_op)
    : HardwareMonitor :=
  match op with
  | UpdateResponseTime response_time => update_response_time response_time m
  | RecordCommand success => record_command success m
  | RecordError now error context => record_error now error context m
  | SetState v => set_status (set_state v) m
  | SetConnectedAt t => set_status (set_connected_at t) m
  | SetLastCommand t => set_status (set_last_command t) m
  end.

Definition run_ops (ops : list monitor_op) (m : HardwareMonitor)
    : HardwareMonitor :=
  fold_left apply_op ops m.

(** How many [record_error] calls a run makes. *)
Fixpoint record_errors (ops : list monitor_op) : Z :=
  match ops with
  | [] => 0
  | RecordError _ _ _ :: rest => 1 + record_errors rest
  | _ :: rest => record_errors rest
  end.

(** The latencies a run reports, oldest first. *)
Fixpoint latencies (ops : list monitor_op) : list float :=
  match ops with
  | [] => []
  | UpdateResponseTime response_time :: rest => response_time :: latencies rest
  | _ :: rest => latencies rest
  end.

(** The error entries a run records, oldest first, from connection state
    [st]. *)
Fixpoint error_entries (st : HardwareState) (ops : list monitor_op)
    : list ErrorEntry :=
  match ops with
  | [] => []
  | RecordError now error context :: rest =>
      {| err_timestamp := now; err_error := error; err_context := context;
         err_state := HardwareState_value st |} :: error_entries st rest
  | SetState v :: rest => error_entries v rest
  | _ :: rest => error_entries st rest
  end.

(** The last [n] elements of a list. *)
Definition lastn {A} (n : nat) (l : list A) : list A :=
  drop (length l - n) l.

(** The health score in the words of its specification:
    [100 × successRate − latencyPenalty − errorPenalty] clamped to
    [[0, 100]], with [successRate = successes / total],
    [latencyPenalty = min(20, max(0, (avgLatency − 0.1) × 100))] and
    [errorPenalty = (errors / max(1, total)) × 30]; with no command issued,
    100 when connected and 0 otherwise. *)
Definition clamp (lo hi x : float) : float := fmax lo (fmin hi x).

Definition successRate (st : HardwareStatus) : option float :=
  int_truediv (successful_commands st) (total_commands st).

Definition latencyPenalty (st : HardwareStatus) : float :=
  fmin f20_0 (fmax f0_0 (fmul (fsub (average_response_time st) f0_1) f100_0)).

Definition errorPenalty (st : HardwareStatus) : option float :=
  ratio ← int_truediv (error_count st) (Z.max 1 (total_commands st));
  Some (fmul ratio f30_0).

Definition health_score_spec (m : HardwareMonitor) : option float :=
  let st := status m in
  if total_commands st =? 0
  then Some (if decide (state st = CONNECTED) then f100_0 else f0_0)
  else
    rate ← successRate st;
    penalty ← errorPenalty st;
    Some (clamp f0_0 f100_0
            (fsub (fsub (fmul f100_0 rate) (latencyPenalty st)) penalty)).

(** A float that is a zero or a finite value below [2 ^ K] whose exponent
    leaves room for a full mantissa. *)
Definition bounded_float (K : Z) (x : float) : Prop :=
  match x with
  | S754_zero _ => True
  | S754_finite _ m e => Zdigits2 (Zpos m) + e <= K /\ e <= K - 53
  | _ => False
  end.

(** A float within [[0, 100]]. *)
Definition in_score_range (x : float) : Prop :=
  fle f0_0 x = true /\ fle x f100_0 = true.

(** Successive [analog_read] calls on one channel. *)
Fixpoint analog_read_many (pin : string) (n : nat) (s : System)
    : list (option Z) * System :=
  match n with
  | O => ([], s)
  | S n' =>
      let '(r, s1) := analog_read pin s in
      let '(rs, s2) := analog_read_many pin n' s1 in
      (r :: rs, s2)
  end.

(** The device answering one line after the other. *)
Definition replies (lines : list (string * float)) : list exchange :=
  map (fun lt => Reply (fst lt) (snd lt)) lines.

(** The raw sample carried by a reply line. *)
Definition raw_sample (line : string) : Z := int_of_digits (strip line).

(** One smoothing step on integers: [int(previous * 0.7 + raw * 0.3)] in
    binary64, truncated toward zero; [None] when the interpreter raises. *)
Definition smooth (previous raw : Z) : option Z :=
  a ← float_of_int previous;
  b ← float_of_int raw;
  int_of_float (fadd (fmul a f0_7) (fmul b f0_3)).

(** What successive reads return after a read that returned [previous]:
    a read that raises returns nothing and leaves the history alone. *)
Fixpoint smoothed_from (previous : Z) (raws : list Z) : list (option Z) :=
  match raws with
  | [] => []
  | raw :: rest =>
      match smooth previous raw with
      | Some v => Some v :: smoothed_from v rest
      | None => None :: smoothed_from previous rest
      end
  end.

Definition smoothed_outputs (raws : list Z) : list (option Z) :=
  match raws with
  | [] => []
  | r0 :: rest => Some r0 :: smoothed_from r0 rest
  end.

(** The smoothed value the specification's formula gives, in exact
    arithmetic: [0.7 × previous + 0.3 × raw]. *)
Definition claimed_smoothed (previous raw : Z) : Q :=
  ((7 # 10) * inject_Z previous + (3 # 10) * inject_Z raw)%Q.

(** A backend connected to a device that answers the probe and then
    [lines], one per command. *)
Definition connected_to (lines : list string) : System :=
  snd (connect "COM3" 115200 None
         (System_init
            {| script := replies (map (fun l => (l, f0_0))
                                      ("STATUS:OK" :: lines));
               wire := [];
               clock := f0_0 |})).

(** What an answered command leaves behind in the monitor. *)
Definition answered (t : float) (s : System) : HardwareMonitor :=
  set_status (set_last_command (Some t))
    (record_command true
       (update_response_time (fsub t (clock (dev s))) (monitor s))).

(** What reaches the wire when [command] meets exchange [x]: nothing when
    the write itself fails. *)
Definition on_wire (x : exchange) (command : string) : list string :=
  match x with
  | WriteError _ _ => []
  | _ => [command +:+ newline]
  end.

(** The device answers [OK]. *)
Definition acknowledged (x : exchange) : bool :=
  match x with
  | Reply line _ => String.eqb (strip line) "OK"
  | _ => false
  end.

(** The configuration [digital_write] records for a pin it configures
    itself. *)
Definition output_config (pin : Z) : PinConfiguration :=
  {| pin_number := pin;
     mode := "OUTPUT";
     initial_state := 0;
     debounce_ms := 50;
     smoothing_enabled := true;
     smoothing_factor := f0_3 |}.

(** The definition [create_sequence] stores. *)
Definition new_sequence (name : string) (steps : list pydict) (loop : bool)
    (interval : float) : Sequence :=
  {| seq_name := name;
     steps := steps;
     loop := loop;
     interval := interval;
     enabled := true;
     current_step := 0;
     start_time := None |}.

Definition f0_5 : float := fdiv (of_Z 1) (of_Z 2).

(** The two steps of a blinking sequence on pin 13. *)
Definition blink_steps : list pydict :=
  [[("action", VStr "DIGITAL_WRITE"); ("pin", VStr "13"); ("value", VInt 1)];
   [("action", VStr "DIGITAL_WRITE"); ("pin", VStr "13"); ("value", VInt 0)]].

(** The event [disconnect_hardware] publishes. *)
Definition connection_lost_event (t : float) : HardwareEvent :=
  {| event_type := CONNECTION_LOST; timestamp := t; data := [];
     source := "hardware" |}.

(** A session that wrote pin 13 (configured on the way) and read channel
    A0, then lost its connection. *)
Definition session_before_loss : System :=
  snd (analog_read "A0"
         (snd (digital_write 13 1 (connected_to ["OK"; "OK"; "512"])))).

Definition session_after_loss : System :=
  _on_connection_lost (connection_lost_event f0_0)
    (disconnect session_before_loss).

(** What [time.time()] reads once exchange [x] is over. *)
Definition exchange_time (x : exchange) : float :=
  match x with
  | Reply _ t | WriteError _ t | ReadError _ t => t
  end.

(** A connected backend whose device lets the next read fail. *)
Definition failing_link : System :=
  set_dev {| script := [ReadError "read failed" f0_0];
             wire := wire (dev (connected_to []));
             clock := f0_0 |}
    (connected_to []).

(** A monitor with the given counters and average latency. *)
Definition monitor_with (st : HardwareState) (total successful errors : Z)
    (average : float) : HardwareMonitor :=
  set_status
    (fun _ =>
       {| state := st;
          connected_at := None;
          last_command := None;
          total_commands := total;
          successful_commands := successful;
          error_count := errors;
          average_response_time := average;
          pin_states := ∅;
          analog_values := ∅ |})
    HardwareMonitor_init.

(** The monitor calls [send_command] makes on a connected backend when
    the exchange [x] starts at time [start]. *)
Definition send_command_ops (start : float) (command : string) (x : exchange)
    : list monitor_op :=
  match x with
  | Reply _ t =>
      [UpdateResponseTime (fsub t start); RecordCommand true;
       SetLastCommand (Some t)]
  | WriteError msg t | ReadError msg t =>
      [UpdateResponseTime (fsub t start); RecordCommand false;
       RecordError t msg command]
  end.

End Runs.

(** ** Task store and position reader: reference material *)

Module ArmRuns.
Import Py Link RoboticArm.

(** The constructor's defaults. *)
Definition default_max_waypoints : Z := 250.
Definition default_max_tasks : Z := 6.

(** A backend with the default limits, connected to a device that answers
    the probe and then [lines], one per command. *)
Definition arm_connected_to (lines : list string) : RoboticArmBackend :=
  snd (connect_serial "COM3" 9600 None
         (RoboticArmBackend_init default_max_waypoints default_max_tasks
            {| script := map (fun l => Reply l f0_0) ("STATUS:OK" :: lines);
               wire := [];
               clock := f0_0 |}
            ∅)).

(** Two waypoints agree on positions, delay, trajectory type and motion
    profile. *)
Definition same_waypoint (w1 w2 : Waypoint) : Prop :=
  positions w1 = positions w2
  /\ delay_ms w1 = delay_ms w2
  /\ trajectory_type w1 = trajectory_type w2
  /\ motion_profile w1 = motion_profile w2.

(** A waypoint as [load_task] rebuilds it at time [now]. *)
Definition reloaded_waypoint (now : float) (wp : Waypoint) : Waypoint :=
  {| positions := positions wp;
     delay_ms := delay_ms wp;
     trajectory_type := trajectory_type wp;
     motion_profile := motion_profile wp;
     timestamp := now |}.

(** A task as [load_task] rebuilds it at time [now]. *)
Definition reloaded_task (now : float) (task : TaskSequence) : TaskSequence :=
  {| name := name task;
     description := description task;
     waypoints := map (reloaded_waypoint now) (waypoints task);
     loop_count := 0;
     created_at := created_at task;
     modified_at := modified_at task |}.

(** [n] tasks named after their numbers, created one after the other. *)
Fixpoint with_tasks (n : nat) (s : RoboticArmBackend) : RoboticArmBackend :=
  match n with
  | O => s
  | S n' => snd (create_task (pretty (Z.of_nat n)) "" (with_tasks n' s))
  end.

(** [n] waypoints added to one task, one after the other. *)
Fixpoint with_waypoints (n : nat) (task_name : string)
    (s : RoboticArmBackend) : RoboticArmBackend :=
  match n with
  | O => s
  | S n' =>
      snd (add_waypoint_to_task task_name [of_Z (Z.of_nat n)] 500 SMOOTH
             NORMAL (with_waypoints n' task_name s))
  end.

(** A task of two waypoints and a backend that holds it. *)
Definition pick_task : TaskSequence :=
  {| name := "pick";
     description := "pick and place";
     waypoints :=
       [{| positions := map of_Z [90; 45; 30; 0; 10; 170];
           delay_ms := 500;
           trajectory_type := SMOOTH;
           motion_profile := NORMAL;
           timestamp := of_Z 1 |};
        {| positions := map of_Z [10; 120; 60; 90; 0; 20];
           delay_ms := 0;
           trajectory_type := CPG;
           motion_profile := PRECISE;
           timestamp := of_Z 2 |}];
     loop_count := 3;
     created_at := of_Z 1;
     modified_at := of_Z 2 |}.

Definition pick_backend : RoboticArmBackend :=
  set_tasks {["pick" := pick_task]} (arm_connected_to []).

End ArmRuns.

(** ** Runs of backend calls *)

Module Calls.
Import Py Link Backend Runs.

(** The calls a user of the backend makes, and the delivery of a
    [CONNECTION_LOST] event to the service. *)
Inductive call :=
| Connect (port : string) (baudrate : Z) (unavailable : option string)
| ConnectHardware (port : string) (baudrate : Z) (unavailable : option string)
| Disconnect
| SendCommand (command : string)
| ConfigurePin (pin : Z) (mode : string) (debounce_ms : Z) (smoothing : bool)
| DigitalWrite (pin state : Z)
| DigitalRead (pin : Z)
| AnalogRead (pin : string)
| CreateSequence (name : string) (steps : list pydict) (loop : bool)
    (interval : float)
| ConnectionLost (event : HardwareEvent).

Definition apply_call (s : System) (c : call) : System :=
  match c with
  | Connect port baudrate unavailable =>
      snd (connect port baudrate unavailable s)
  | ConnectHardware port baudrate unavailable =>
      snd (connect_hardware port baudrate unavailable s)
  | Disconnect => disconnect s
  | SendCommand command => snd (send_command command s)
  | ConfigurePin pin mode debounce_ms smoothing =>
      snd (configure_pin pin mode debounce_ms smoothing s)
  | DigitalWrite pin state => snd (digital_write pin state s)
  | DigitalRead pin => snd (digital_read pin s)
  | AnalogRead pin => snd (analog_read pin s)
  | CreateSequence name steps loop interval =>
      snd (create_sequence name steps loop interval s)
  | ConnectionLost event => _on_connection_lost event s
  end.

Definition run_calls (calls : list call) (s : System) : System :=
  fold_left apply_call calls s.

(** The calls that open or close the link. *)
Definition is_link_call (c : call) : bool :=
  match c with
  | Connect _ _ _ | ConnectHardware _ _ _ | Disconnect => true
  | _ => false
  end.

(** Every smoothing window holds [smoothing_window] values. *)
Definition windows_full (s : System) : Prop :=
  forall pin values,
    analog_smoothing s !! pin = Some values -> length values = 5%nat.

(** Every pin configuration is stored under its own pin number. *)
Definition pins_keyed (s : System) : Prop :=
  forall pin config,
    pin_configs s !! pin = Some config -> pin_number config = pin.

(** The event a digital read or write publishes. *)
Definition pin_state_changed (t : float) (pin state : Z) : HardwareEvent :=
  {| event_type := PIN_STATE_CHANGED;
     timestamp := t;
     data := [("pin", VInt pin); ("state", VInt state);
              ("type", VStr "digital")];
     source := "hardware" |}.

(** The event an analog read publishes. *)
Definition analog_value_changed (t : float) (pin : string) (value raw : Z)
    : HardwareEvent :=
  {| event_type := ANALOG_VALUE_CHANGED;
     timestamp := t;
     data := [("pin", VStr pin); ("value", VInt value);
              ("raw_value", VInt raw)];
     source := "hardware" |}.

(** What [send_command] returns when the exchange is [x]. *)
Definition response_of (x : exchange) : string :=
  match x with
  | Reply line _ => strip line
  | WriteError msg _ | ReadError msg _ => "Command error: " +:+ msg
  end.

(** The probe of [connect] is answered with a status line. *)
Definition probe_ok (x : exchange) : bool :=
  match x with
  | Reply line _ => startswith "STATUS:" (strip line)
  | _ => false
  end.

(** The command that configures a pin. *)
Definition pin_mode_command (pin : Z) (mode : string) : string :=
  "PIN_MODE:" +:+ pretty pin +:+ ":" +:+ mode.

(** What a list of commands leaves on the wire when the device meets them
    with the exchanges [xs], one each. *)
Fixpoint on_wire_all (xs : list exchange) (commands : list string)
    : list string :=
  match xs, commands with
  | x :: xs', command :: commands' =>
      on_wire x command ++ on_wire_all xs' commands'
  | _, _ => []
  end.

(** The engine beside a system, with no run. *)
Definition Engine_init (s : System) : Engine :=
  {| system := s; active_sequences := ∅ |}.

(** The event [stop_sequence] publishes. *)
Definition sequence_stopped (t : float) (name : string) : HardwareEvent :=
  {| event_type := SEQUENCE_COMPLETED;
     timestamp := t;
     data := [("sequence_name", VStr name); ("stopped", VBool true)];
     source := "hardware" |}.

(** The listeners of an event type, in subscription order. *)
Definition listeners_of (t : EventType) (m : Events.EventManager)
    : list nat :=
  default [] (Events.dict_get t (Events.listeners m)).

(** What delivering [events] to the listeners of [m] records. *)
Definition deliveries (m : Events.EventManager) (events : list HardwareEvent)
    : list (nat * HardwareEvent) :=
  flat_map
    (fun event =>
       map (fun callback => (callback, event))
         (listeners_of (event_type event) m))
    events.

(** Some event of a given type, for the examples. *)
Definition event_of (t : EventType) : HardwareEvent :=
  {| event_type := t; timestamp := f0_0; data := []; source := "hardware" |}.

(** The link is as it was: same port object, same connection state. *)
Definition same_link (s s' : System) : Prop :=
  serial_port s' = serial_port s
  /\ state (status (monitor s')) = state (status (monitor s)).

(** What every call keeps, from the state before to the state after: the
    monitor moves by monitor calls only, full windows stay full, keyed
    pins stay keyed and no configured pin is dropped. *)
Definition keeps (s s' : System) : Prop :=
  (exists ops, monitor s' = run_ops ops (monitor s))
  /\ (windows_full s -> windows_full s')
  /\ (pins_keyed s -> pins_keyed s')
  /\ (forall pin, is_Some (pin_configs s !! pin) ->
                  is_Some (pin_configs s' !! pin)).

End Calls.

(** ** Runs of robotic arm calls *)

Module ArmCalls.
Import Py Link RoboticArm ArmRuns.

Inductive arm_call :=
| ConnectSerial (port : string) (baudrate : Z) (unavailable : option string)
| ArmDisconnect
| ArmSendCommand (command : string)
| SendPositions (str_of_float : float -> string) (positions : list float)
| ReadAllPositions
| AddPositionCallback (callback : nat)
| RemovePositionCallback (callback : nat)
| CreateTask (name description : string)
| DeleteTask (name : string)
| AddWaypoint (task_name : string) (positions : list float) (delay_ms : Z)
    (trajectory_type : TrajectoryType) (motion_profile : MotionProfile)
| SaveTask (task_name filename : string) (written : write_result)
| LoadTask (filename : string).

Definition apply_arm_call (s : RoboticArmBackend) (c : arm_call)
    : RoboticArmBackend :=
  match c with
  | ConnectSerial port baudrate unavailable =>
      snd (connect_serial port baudrate unavailable s)
  | ArmDisconnect => disconnect s
  | ArmSendCommand command => snd (send_command command s)
  | SendPositions str_of_float positions =>
      snd (send_positions str_of_float positions s)
  | ReadAllPositions => snd (read_all_positions s)
  | AddPositionCallback callback => add_position_callback callback s
  | RemovePositionCallback callback => remove_position_callback callback s
  | CreateTask name description => snd (create_task name description s)
  | DeleteTask name => snd (delete_task name s)
  | AddWaypoint task_name positions delay_ms trajectory_type motion_profile =>
      snd (add_waypoint_to_task task_name positions delay_ms trajectory_type
             motion_profile s)
  | SaveTask task_name filename written =>
      snd (save_task task_name filename written s)
  | LoadTask filename => snd (load_task filename s)
  end.

Definition run_arm_calls (calls : list arm_call) (s : RoboticArmBackend)
    : RoboticArmBackend :=
  fold_left apply_arm_call calls s.

Definition is_load (c : arm_call) : bool :=
  match c with LoadTask _ => true | _ => false end.

(** Every command counted is counted as a success or as an error. *)
Definition metrics_balanced (s : RoboticArmBackend) : Prop :=
  total_commands (performance_metrics s)
  = successful_commands (performance_metrics s)
    + error_count (performance_metrics s).

(** Every task is stored under its own name. *)
Definition tasks_keyed (s : RoboticArmBackend) : Prop :=
  forall key task, tasks s !! key = Some task -> name task = key.

(** The table and every task in it are within the two limits. *)
Definition within_limits (s : RoboticArmBackend) : Prop :=
  Z.of_nat (size (tasks s)) <= max_tasks s
  /\ forall key task,
       tasks s !! key = Some task ->
       Z.of_nat (length (waypoints task)) <= max_waypoints s.

(** The arguments of one [add_waypoint_to_task] call. *)
Record waypoint_args := {
  arg_positions : list float;
  arg_delay_ms : Z;
  arg_trajectory_type : TrajectoryType;
  arg_motion_profile : MotionProfile
}.

(** One [add_waypoint_to_task] call per element, in order. *)
Definition add_all (task_name : string) (args : list waypoint_args)
    (s : RoboticArmBackend) : RoboticArmBackend :=
  fold_left
    (fun s a =>
       snd (add_waypoint_to_task task_name (arg_positions a) (arg_delay_ms a)
              (arg_trajectory_type a) (arg_motion_profile a) s))
    args s.

(** A waypoint carries the arguments it was added with. *)
Definition made_from (a : waypoint_args) (wp : Waypoint) : Prop :=
  positions wp = arg_positions a
  /\ delay_ms wp = arg_delay_ms a
  /\ trajectory_type wp = arg_trajectory_type a
  /\ motion_profile wp = arg_motion_profile a.

(** The reply makes [send_positions] give up. *)
Definition refused (x : exchange) : bool :=
  match x with
  | Reply line _ =>
      String.eqb (strip line) "" || startswith "Error" (strip line)
  | _ => true
  end.

(** The command [send_positions] builds for axis [i + 1]. *)
Definition axis_command (str_of_float : float -> string) (i : Z)
    (pos : float) : string :=
  pretty (i + 1) +:+ " " +:+ str_of_float pos.

(** A stand-in for the interpreter's float formatting in the examples. *)
Definition sample_str_of_float (x : float) : string :=
  match int_of_float x with
  | Some n => pretty n +:+ ".0"
  | None => "nan"
  end.

(** What every run of calls keeps true of a backend. *)
Definition arm_invariant (s : RoboticArmBackend) : Prop :=
  metrics_balanced s
  /\ 0 <= successful_commands (performance_metrics s)
  /\ 0 <= error_count (performance_metrics s)
  /\ tasks_keyed s
  /\ (is_connected s = false \/ is_Some (serial_port s)).

(** What the command channel and the position reader leave alone. *)
Definition same_store (s s' : RoboticArmBackend) : Prop :=
  max_waypoints s' = max_waypoints s
  /\ max_tasks s' = max_tasks s
  /\ serial_port s' = serial_port s
  /\ is_connected s' = is_connected s
  /\ tasks s' = tasks s
  /\ position_callbacks s' = position_callbacks s
  /\ files s' = files s.

(** A waypoint entry on which [load_task] raises: no [positions] key, or a
    trajectory type or motion profile that is no member's value. *)
Definition bad_waypoint (wp_data : json) : Prop :=
  exists fields,
    wp_data = JObj fields
    /\ (json_get "positions" fields = None
        \/ (exists v, json_get "trajectory_type" fields = Some (JStr v)
                      /\ TrajectoryType_of v = None)
        \/ (exists v, json_get "motion_profile" fields = Some (JStr v)
                      /\ MotionProfile_of v = None)).

(** What is found under a file name makes [load_task] raise: no file, no
    [name] key, or a bad waypoint entry. *)
Definition bad_document (data : option json) : Prop :=
  data = None
  \/ exists fields,
       data = Some (JObj fields)
       /\ (json_get "name" fields = None
           \/ exists items,
                json_get "waypoints" fields = Some (JArr items)
                /\ Exists bad_waypoint items).


(** The waypoint [load_task] makes of positions alone. *)
Definition default_waypoint (now : float) (ps : list float) : Waypoint :=
  {| positions := ps; delay_ms := 500; trajectory_type := SMOOTH;
     motion_profile := NORMAL; timestamp := now |}.


(** What [send_command] returns when the exchange is [x]. *)
Definition arm_response_of (x : exchange) : string :=
  match x with
  | Reply line _ => strip line
  | WriteError msg _ | ReadError msg _ => "Error: " +:+ msg
  end.

(** The device answered, with whatever line. *)
Definition is_reply (x : exchange) : bool :=
  match x with Reply _ _ => true | _ => false end.

(** The axis commands [send_positions] issues from axis [i + 1] on, each
    with the exchange it meets: the loop ends with the first refusal. *)
Fixpoint axes_sent (str_of_float : float -> string) (i : Z)
    (positions : list float) (xs : list exchange)
    : list (exchange * string) :=
  match positions, xs with
  | pos :: positions', x :: xs' =>
      (x, axis_command str_of_float i pos)
      :: (if refused x then []
          else axes_sent str_of_float (i + 1) positions' xs')
  | _, _ => []
  end.

(** A connected backend whose device answers the probe and then meets the
    commands with [xs]. *)
Definition arm_meeting (xs : list exchange) : RoboticArmBackend :=
  snd (connect_serial "COM3" 9600 None
         (RoboticArmBackend_init default_max_waypoints default_max_tasks
            {| script := Reply "STATUS:OK" f0_0 :: xs;
               wire := [];
               clock := f0_0 |}
            ∅)).

End ArmCalls.

(** ** Binary64: results that stay in range *)

Section FloatBounds.
Import Py Runs.

Lemma digits2_pos_size (p : positive) : digits2_pos p = Pos.size p.
Proof. induction p as [p IH | p IH |]; cbn; now rewrite ?IH. Qed.

Lemma Zdigits2_log2 (p : positive) :
  Zdigits2 (Zpos p) = Z.log2 (Zpos p) + 1.
Proof.
  cbn [Zdigits2]. rewrite digits2_pos_size.
  destruct p as [p | p |]; cbn [Pos.size Z.log2]; lia.
Qed.

Lemma Zdigits2_nonneg (m : Z) : 0 <= Zdigits2 m.
Proof. destruct m; cbn; lia. Qed.

Lemma Zdigits2_above (m : Z) : 0 <= m -> m < 2 ^ Zdigits2 m.
Proof.
  intros Hm. destruct m as [| p | p]; [cbn; lia | | lia].
  rewrite Zdigits2_log2.
  apply (Z.log2_spec (Zpos p)). lia.
Qed.

Lemma Zdigits2_le (m k : Z) : 0 <= m < 2 ^ k -> 0 <= k -> Zdigits2 m <= k.
Proof.
  intros [Hm Hlt] Hk. destruct m as [| p | p]; [cbn; lia | | lia].
  rewrite Zdigits2_log2.
  apply (Z.log2_lt_pow2 (Zpos p) k) in Hlt; lia.
Qed.

Lemma shr_1_m (mrs : shr_record) :
  0 <= shr_m mrs -> shr_m (shr_1 mrs) = Z.div2 (shr_m mrs).
Proof.
  destruct mrs as [[| [p | p |] | p] r s]; cbn [shr_m]; intros H;
    try reflexivity; lia.
Qed.

Lemma iter_shr_1_m (p : positive) :
  forall mrs,
    0 <= shr_m mrs ->
    shr_m (SpecFloat.iter_pos shr_1 p mrs) = Z.shiftr (shr_m mrs) (Zpos p).
Proof.
  induction p as [p IH | p IH |]; intros mrs Hm; cbn [SpecFloat.iter_pos].
  - assert (H1 : 0 <= shr_m (shr_1 mrs))
      by (rewrite shr_1_m by easy; now apply Z.div2_nonneg).
    assert (H2 : 0 <= shr_m (SpecFloat.iter_pos shr_1 p (shr_1 mrs)))
      by (rewrite IH by easy; now apply Z.shiftr_nonneg).
    rewrite !IH, shr_1_m, Z.div2_spec, !Z.shiftr_shiftr by (easy || lia).
    f_equal. lia.
  - assert (H2 : 0 <= shr_m (SpecFloat.iter_pos shr_1 p mrs))
      by (rewrite IH by easy; now apply Z.shiftr_nonneg).
    rewrite !IH, Z.shiftr_shiftr by (easy || lia). f_equal. lia.
  - now rewrite shr_1_m, Z.div2_spec.
Qed.

Lemma bounded_float_mono (K K' : Z) (x : float) :
  K <= K' -> bounded_float K x -> bounded_float K' x.
Proof. destruct x; cbn; lia. Qed.

Lemma fexp_eq (e : Z) : fexp prec emax e = Z.max (e - 53) (-1074).
Proof. reflexivity. Qed.

Lemma shr_record_of_loc_m (m : Z) (l : location) :
  shr_m (shr_record_of_loc m l) = m.
Proof. destruct l as [| []]; reflexivity. Qed.

Lemma shiftr_below (m n D : Z) :
  0 <= m < 2 ^ D -> 0 <= D -> 0 < n ->
  0 <= Z.shiftr m n < 2 ^ Z.max 0 (D - n).
Proof.
  intros [Hm Hlt] HD Hn. rewrite Z.shiftr_div_pow2 by lia.
  assert (Hp : 0 < 2 ^ n) by (apply Z.pow_pos_nonneg; lia).
  split; [apply Z.div_pos; lia |].
  destruct (Z.le_gt_cases n D) as [Hle | Hgt].
  - rewrite Z.max_r by lia. apply Z.div_lt_upper_bound; [lia |].
    rewrite <- Z.pow_add_r by lia. now replace (n + (D - n)) with D by lia.
  - rewrite Z.max_l by lia. apply Z.div_lt_upper_bound; [lia |].
    apply Z.lt_le_trans with (2 ^ D); [easy |].
    rewrite Z.mul_1_r. apply Z.pow_le_mono_r; lia.
Qed.

Lemma shr_fexp_bound (K m e : Z) (l : location) :
  -1021 <= K -> 0 <= m -> e <= K - 53 -> Zdigits2 m + e <= K ->
  let '(mrs', e') := shr_fexp prec emax m e l in
  0 <= shr_m mrs' /\ e' <= K - 53 /\ Zdigits2 (shr_m mrs') + e' <= K.
Proof.
  intros HK Hm He Hd. unfold shr_fexp, shr. rewrite fexp_eq.
  pose proof (Zdigits2_nonneg m) as HD.
  destruct (Z.max (Zdigits2 m + e - 53) (-1074) - e) as [| n | n] eqn:Hn;
    rewrite ?shr_record_of_loc_m; try easy.
  rewrite iter_shr_1_m, shr_record_of_loc_m
    by now rewrite shr_record_of_loc_m.
  destruct (shiftr_below m (Zpos n) (Zdigits2 m)) as [H0 Hlt];
    [split; [easy | now apply Zdigits2_above] | easy | lia |].
  split; [easy |]. split; [lia |].
  assert (Zdigits2 (Z.shiftr m (Zpos n)) <= Z.max 0 (Zdigits2 m - Zpos n))
    by (apply Zdigits2_le; [easy | lia]).
  lia.
Qed.

Lemma round_nearest_even_bound (m : Z) (l : location) :
  0 <= m -> 0 <= round_nearest_even m l <= m + 1.
Proof.
  intros Hm. destruct l as [| []]; cbn [round_nearest_even];
    try destruct (Z.even m); lia.
Qed.

Lemma binary_round_aux_bounded (K : Z) (s : bool) (m e : Z) (l : location) :
  -1021 <= K <= 1023 -> 0 <= m -> e <= K - 53 -> Zdigits2 m + e <= K ->
  bounded_float (K + 1) (binary_round_aux prec emax s m e l).
Proof.
  intros HK Hm He Hd. unfold binary_round_aux.
  pose proof (shr_fexp_bound K m e l ltac:(lia) Hm He Hd) as H1.
  destruct (shr_fexp prec emax m e l) as [mrs' e'].
  destruct H1 as (Hm' & He' & Hd').
  set (m2 := round_nearest_even (shr_m mrs') (loc_of_shr_record mrs')).
  destruct (round_nearest_even_bound (shr_m mrs') (loc_of_shr_record mrs') Hm')
    as [Hm2 Hm2'].
  fold m2 in Hm2, Hm2'.
  assert (Hd2 : Zdigits2 m2 <= Zdigits2 (shr_m mrs') + 1).
  { pose proof (Zdigits2_above (shr_m mrs') Hm').
    pose proof (Zdigits2_nonneg (shr_m mrs')).
    apply Zdigits2_le; [| lia]. split; [easy |].
    rewrite Z.pow_add_r by lia. lia. }
  pose proof (shr_fexp_bound (K + 1) m2 e' loc_Exact
                ltac:(lia) Hm2 ltac:(lia) ltac:(lia)) as H2.
  destruct (shr_fexp prec emax m2 e' loc_Exact) as [mrs'' e''].
  destruct H2 as (Hm'' & He'' & Hd'').
  destruct (shr_m mrs'') as [| p | p]; [exact I | | lia].
  replace (e'' <=? emax - prec) with true
    by (symmetry; apply Z.leb_le; unfold emax, prec; lia).
  unfold bounded_float. lia.
Qed.

Lemma iter_xO_shiftl (m d : positive) :
  Zpos (Pos.iter xO m d) = Zpos m * 2 ^ Zpos d.
Proof.
  rewrite <- Z.shiftl_mul_pow2 by lia. cbn [Z.shiftl].
  now apply Pos.iter_swap_gen.
Qed.

Lemma mul_pow2_digits (m d : positive) :
  Zdigits2 (Zpos m * 2 ^ Zpos d) <= Zdigits2 (Zpos m) + Zpos d.
Proof.
  pose proof (Zdigits2_above (Zpos m) ltac:(lia)).
  pose proof (Zdigits2_nonneg (Zpos m)).
  assert (0 < 2 ^ Zpos d) by (apply Z.pow_pos_nonneg; lia).
  apply Zdigits2_le; [| lia]. split; [lia |].
  rewrite Z.pow_add_r by lia. nia.
Qed.

Lemma binary_round_bounded (K : Z) (s : bool) (m : positive) (e : Z) :
  -1021 <= K <= 1023 -> Zdigits2 (Zpos m) + e <= K ->
  bounded_float (K + 1) (binary_round prec emax s m e).
Proof.
  intros HK Hd. unfold binary_round, shl_align.
  change (Zpos (digits2_pos m)) with (Zdigits2 (Zpos m)).
  rewrite fexp_eq.
  destruct (Z.max (Zdigits2 (Zpos m) + e - 53) (-1074) - e) as [| d | d] eqn:Hn.
  - apply binary_round_aux_bounded; lia.
  - apply binary_round_aux_bounded; lia.
  - apply binary_round_aux_bounded; try lia.
    rewrite iter_xO_shiftl. pose proof (mul_pow2_digits m d). lia.
Qed.

Lemma of_Z_bounded (K n : Z) :
  0 <= K <= 1023 -> Z.abs n < 2 ^ K -> bounded_float (K + 1) (of_Z n).
Proof.
  intros HK Hn. unfold of_Z, binary_normalize.
  destruct n as [| p | p]; [exact I | |];
    apply binary_round_bounded; try lia;
    rewrite Z.add_0_r; apply Zdigits2_le; lia.
Qed.

Lemma float_of_int_bounded (K n : Z) :
  0 <= K <= 1023 -> Z.abs n < 2 ^ K ->
  exists x, float_of_int n = Some x /\ bounded_float (K + 1) x.
Proof.
  intros HK Hn. pose proof (of_Z_bounded K n HK Hn) as Hb.
  unfold float_of_int. destruct (of_Z n); try easy; eauto.
Qed.

Lemma int_of_float_bounded (K : Z) (x : float) :
  bounded_float K x -> is_Some (int_of_float x).
Proof. destruct x; cbn; try easy; eauto. Qed.

Lemma fmul_bounded (K1 K2 : Z) (x y : float) :
  -1021 <= K1 + K2 <= 1023 ->
  bounded_float K1 x -> bounded_float K2 y ->
  bounded_float (K1 + K2 + 1) (fmul x y).
Proof.
  intros HK Hx Hy.
  destruct x as [sx | sx | | sx mx ex], y as [sy | sy | | sy my ey];
    try easy.
  cbn [bounded_float] in Hx, Hy. unfold fmul. cbn [SFmul].
  apply binary_round_aux_bounded; try lia.
  rewrite Pos2Z.inj_mul.
  pose proof (Zdigits2_above (Zpos mx) ltac:(lia)).
  pose proof (Zdigits2_above (Zpos my) ltac:(lia)).
  pose proof (Zdigits2_nonneg (Zpos mx)).
  pose proof (Zdigits2_nonneg (Zpos my)).
  assert (Zdigits2 (Zpos mx * Zpos my) <= Zdigits2 (Zpos mx) + Zdigits2 (Zpos my)).
  { apply Zdigits2_le; [| lia]. split; [lia |].
    rewrite Z.pow_add_r by lia. nia. }
  lia.
Qed.

Lemma shl_align_fst_below (m : positive) (e ez K : Z) :
  ez <= e -> Zdigits2 (Zpos m) + e <= K ->
  Zpos (fst (shl_align m e ez)) < 2 ^ (K - ez).
Proof.
  intros Hez Hd. unfold shl_align.
  pose proof (Zdigits2_above (Zpos m) ltac:(lia)) as Hm.
  pose proof (Zdigits2_nonneg (Zpos m)).
  destruct (ez - e) as [| d | d] eqn:Hn; cbn [fst].
  - apply Z.lt_le_trans with (1 := Hm). apply Z.pow_le_mono_r; lia.
  - lia.
  - rewrite iter_xO_shiftl.
    apply Z.lt_le_trans with (2 ^ Zdigits2 (Zpos m) * 2 ^ Zpos d).
    + apply Z.mul_lt_mono_pos_r; [apply Z.pow_pos_nonneg; lia | easy].
    + rewrite <- Z.pow_add_r by lia. apply Z.pow_le_mono_r; lia.
Qed.

Lemma binary_normalize_bounded (K m e : Z) :
  -1021 <= K <= 1023 -> 0 <= K - e -> Z.abs m < 2 ^ (K - e) ->
  bounded_float (K + 1) (binary_normalize prec emax m e false).
Proof.
  intros HK He Hm. unfold binary_normalize.
  destruct m as [| p | p]; [exact I | |];
    apply binary_round_bounded; try lia;
    assert (Zdigits2 (Zpos p) <= K - e) by (apply Zdigits2_le; lia); lia.
Qed.

Lemma fadd_bounded (K : Z) (x y : float) :
  -1021 <= K <= 1022 ->
  bounded_float K x -> bounded_float K y ->
  bounded_float (K + 2) (fadd x y).
Proof.
  intros HK Hx Hy.
  destruct x as [sx | sx | | sx mx ex], y as [sy | sy | | sy my ey];
    try easy.
  - now destruct sx, sy.
  - apply bounded_float_mono with K; [lia | exact Hy].
  - apply bounded_float_mono with K; [lia | exact Hx].
  - cbn [bounded_float] in Hx, Hy. unfold fadd. cbn [SFadd].
    set (ez := Z.min ex ey).
    pose proof (shl_align_fst_below mx ex ez K ltac:(lia) ltac:(lia)) as Hmx.
    pose proof (shl_align_fst_below my ey ez K ltac:(lia) ltac:(lia)) as Hmy.
    pose proof (Zdigits2_nonneg (Zpos mx)).
    replace (K + 2) with (K + 1 + 1) by lia.
    apply (binary_normalize_bounded (K + 1)); try lia.
    replace (K + 1 - ez) with (K - ez + 1) by lia.
    rewrite Z.pow_add_r by lia.
    unfold cond_Zopp. destruct sx, sy; lia.
Qed.

Lemma int_truediv_returns (K a b : Z) :
  0 <= K <= 1023 -> b <> 0 -> Z.abs a < 2 ^ K ->
  exists x, int_truediv a b = Some x /\ bounded_float (Z.max K 53 + 1) x.
Proof.
  intros HK Hb Ha. unfold int_truediv.
  destruct (Z.eqb_spec b 0) as [| _]; [easy |].
  destruct (Z.eqb_spec a 0) as [| Ha0]; [eexists; split; [reflexivity | exact I] |].
  unfold SFdiv_core_binary. rewrite fexp_eq, !Z.add_0_r, Z.sub_0_r.
  set (A := Z.abs a). set (B := Z.abs b).
  assert (HA : 0 < A) by lia. assert (HB : 0 < B) by lia.
  set (e := Z.min (Z.max (Zdigits2 A - Zdigits2 B - 53) (-1074)) 0).
  assert (He : e <= 0) by lia.
  pose proof (Zdigits2_above A ltac:(lia)) as HAd.
  pose proof (Zdigits2_nonneg A) as HAn.
  assert (HAK : Zdigits2 A <= K) by (apply Zdigits2_le; lia).
  set (m' := match 0 - e with
             | 0 => A
             | Zpos _ => Z.shiftl A (0 - e)
             | Zneg _ => 0
             end).
  assert (Hm' : 0 <= m' < 2 ^ (Zdigits2 A - e)).
  { subst m'. destruct (0 - e) as [| d | d] eqn:Hd; [| | lia].
    - replace e with 0 by lia. rewrite Z.sub_0_r. lia.
    - rewrite Z.shiftl_mul_pow2 by lia.
      assert (0 < 2 ^ Zpos d) by (apply Z.pow_pos_nonneg; lia).
      replace (Zdigits2 A - e) with (Zdigits2 A + Zpos d) by lia.
      rewrite Z.pow_add_r by lia. nia. }
  pose proof (Z.div_eucl_eq m' B ltac:(lia)) as Hdiv.
  pose proof (Z.mod_pos_bound m' B HB) as Hmod.
  unfold Z.modulo in Hmod.
  destruct (Z.div_eucl m' B) as [q r].
  assert (Hq : 0 <= q <= m') by nia.
  assert (Hqd : Zdigits2 q <= Zdigits2 A - e)
    by (apply Zdigits2_le; lia).
  pose proof (binary_round_aux_bounded (Z.max K 53)
                (xorb (a <? 0) (b <? 0)) q e (new_location B r)
                ltac:(lia) ltac:(lia) ltac:(lia) ltac:(lia)) as Hbnd.
  destruct (binary_round_aux prec emax _ q e _); try easy; eauto.
Qed.

(** One smoothing step returns a value whenever the value returned last
    and the raw sample are below [2 ^ 1000] in magnitude. *)
Lemma smooth_returns (previous raw : Z) :
  Z.abs previous < 2 ^ 1000 -> Z.abs raw < 2 ^ 1000 ->
  is_Some (smooth previous raw).
Proof.
  intros Hp Hr. unfold smooth.
  destruct (float_of_int_bounded 1000 previous ltac:(lia) Hp) as (a & -> & Ha).
  destruct (float_of_int_bounded 1000 raw ltac:(lia) Hr) as (b & -> & Hb).
  cbn [mbind option_bind].
  apply (int_of_float_bounded (1002 + 2)).
  apply fadd_bounded; [lia | |].
  - apply (fmul_bounded 1001 0); [lia | exact Ha |]. cbn. lia.
  - apply (fmul_bounded 1001 0); [lia | exact Hb |]. cbn. lia.
Qed.

End FloatBounds.

(** ** Health monitor: counters *)

Section MonitorCounters.
Import Py Link Backend Runs.

Lemma apply_op_counters (m : HardwareMonitor) (op : monitor_op) :
  let st := status m in
  let st' := status (apply_op m op) in
  total_commands st' - successful_commands st'
    = total_commands st - successful_commands st
      + match op with RecordCommand false => 1 | _ => 0 end
  /\ successful_commands st' + error_count st' - total_commands st'
     = successful_commands st + error_count st - total_commands st
       + match op with RecordError _ _ _ => 1 | _ => 0 end.
Proof.
  destruct op as [rt | [] | now e c | v | t | t]; cbn; lia.
Qed.

Lemma run_ops_counters (ops : list monitor_op) (m : HardwareMonitor) :
  let st := status m in
  let st' := status (run_ops ops m) in
  total_commands st - successful_commands st
    <= total_commands st' - successful_commands st'
  /\ successful_commands st' + error_count st' - total_commands st'
     = successful_commands st + error_count st - total_commands st
       + record_errors ops.
Proof.
  revert m. induction ops as [| op ops IH]; intros m; cbn zeta.
  - cbn. lia.
  - specialize (IH (apply_op m op)). cbn zeta in IH.
    pose proof (apply_op_counters m op) as Hop. cbn zeta in Hop.
    change (run_ops (op :: ops) m) with (run_ops ops (apply_op m op)).
    destruct IH as [IH1 IH2], Hop as [Hop1 Hop2].
    split.
    + destruct op as [rt | [] | now e c | v | t | t]; lia.
    + rewrite IH2, Hop2.
      destruct op as [rt | [] | now e c | v | t | t]; cbn [record_errors]; lia.
Qed.

(** C1 (as amended).  After every sequence of Health Monitor operations
    on a fresh monitor, the successful counter never exceeds the total
    counter, and the successful counter plus the error counter equals the
    total counter plus the number of [record_error] calls made so far:
    [record_error] adds to the error counter alone.  So
    [total == successful + error_count] holds after a [record_command]
    call exactly when no [record_error] call came before it. *)
Theorem monitor_counters_accounting (ops : list monitor_op) :
  let st := status (run_ops ops HardwareMonitor_init) in
  successful_commands st <= total_commands st
  /\ successful_commands st + error_count st
     = total_commands st + record_errors ops
  /\ (total_commands st = successful_commands st + error_count st
      <-> record_errors ops = 0).
Proof.
  cbn zeta.
  destruct (run_ops_counters ops HardwareMonitor_init) as [H1 H2].
  cbn in H1, H2. repeat split; lia.
Qed.

(** C1, the claim as stated fails: one [record_error] (a failed
    [connect] makes exactly this call) followed by one successful
    [record_command] leaves total 1, successful 1 and errors 1. *)
Lemma monitor_counters_claim_fails :
  let st := status (run_ops [RecordError f0_0 "Connection failed" "Port";
                             RecordCommand true] HardwareMonitor_init) in
  total_commands st <> successful_commands st + error_count st
  /\ ~ (successful_commands st + error_count st <= total_commands st).
Proof. cbn. lia. Qed.

(** What [send_command] does to the monitor is a run of monitor calls:
    none when the backend is not connected. *)
Lemma send_command_monitor (command : string) (s : System) :
  monitor (snd (send_command command s))
  = run_ops
      (if is_connected s
       then send_command_ops (clock (dev s)) command
              (fst (next_exchange (dev s)))
       else [])
      (monitor s).
Proof.
  unfold send_command. destruct (is_connected s); [| reflexivity].
  cbn [negb]. destruct (next_exchange (dev s)) as [[line t | msg t | msg t] rest];
    reflexivity.
Qed.

(** One failed command on a connected backend: the failure path of
    [send_command] calls [record_command(False)] and then [record_error],
    and the error counter moves by two for the one command. *)
Example send_command_failure_path_counters :
  let st := status (monitor (snd (send_command "GET_STATUS" failing_link))) in
  total_commands st = 1 /\ successful_commands st = 0 /\ error_count st = 2.
Proof. vm_compute. repeat split. Qed.

End MonitorCounters.

(** ** Health monitor: bounded windows *)

Section MonitorWindows.
Import Py Link Backend Runs.
Context {A : Type}.
Implicit Types (l k : list A) (n : nat).

Lemma lastn_length l n : (length (lastn n l) <= n)%nat.
Proof. unfold lastn. rewrite length_drop. lia. Qed.

Lemma lastn_short l n : (length l <= n)%nat -> lastn n l = l.
Proof.
  intros H. unfold lastn. replace (length l - n)%nat with 0%nat by lia.
  apply drop_0.
Qed.

Lemma lastn_app_lastn l k n : lastn n (lastn n l ++ k) = lastn n (l ++ k).
Proof.
  destruct (decide (length l <= n)%nat) as [Hle | Hgt].
  - now rewrite (lastn_short l n Hle).
  - unfold lastn. rewrite !length_app, length_drop.
    set (d := (length l - n)%nat).
    replace (length l - d + length k - n)%nat with (length k) by lia.
    replace (length l + length k - n)%nat with (d + length k)%nat by lia.
    rewrite <- drop_drop. f_equal.
    rewrite drop_app_le by lia. reflexivity.
Qed.

(** Appending to a window already within its bound and popping the head
    when the bound is passed keeps the last [n] elements. *)
Lemma append_pop0_lastn l (x : A) n :
  (length l <= n)%nat ->
  (if Z.of_nat n <? Z.of_nat (length (l ++ [x])) then pop0 (l ++ [x])
   else l ++ [x]) = lastn n (l ++ [x]).
Proof.
  intros Hle. rewrite length_app. cbn [length].
  destruct (Z.ltb_spec (Z.of_nat n) (Z.of_nat (length l + 1))) as [Hlt | Hge].
  - unfold lastn, pop0. rewrite length_app. cbn [length].
    replace (length l + 1 - n)%nat with 1%nat by lia.
    destruct l; reflexivity.
  - symmetry. apply lastn_short. rewrite length_app. cbn [length]. lia.
Qed.

(** Eviction is oldest-first: on a full window the head goes and the new
    element is placed last. *)
Lemma append_pop0_full l (x : A) n :
  length l = n -> n <> 0%nat ->
  (if Z.of_nat n <? Z.of_nat (length (l ++ [x])) then pop0 (l ++ [x])
   else l ++ [x]) = tail l ++ [x].
Proof.
  intros Hlen Hn. rewrite length_app. cbn [length].
  destruct (Z.ltb_spec (Z.of_nat n) (Z.of_nat (length l + 1))); [| lia].
  destruct l; [cbn in Hlen; lia | reflexivity].
Qed.

End MonitorWindows.

Section MonitorWindowsRun.
Import Py Link Backend Runs.

Lemma response_times_step (m : HardwareMonitor) (op : monitor_op) :
  (length (response_times m) <= 100)%nat ->
  response_times (apply_op m op)
  = lastn 100 (response_times m ++ latencies [op]).
Proof.
  intros Hle. destruct op as [rt | b | now e c | v | t | t]; cbn [latencies].
  - cbn [apply_op update_response_time response_times].
    apply (append_pop0_lastn (response_times m) rt 100 Hle).
  - rewrite app_nil_r, lastn_short by lia. now destruct b.
  - rewrite app_nil_r, lastn_short by lia. reflexivity.
  - rewrite app_nil_r, lastn_short by lia. reflexivity.
  - rewrite app_nil_r, lastn_short by lia. reflexivity.
  - rewrite app_nil_r, lastn_short by lia. reflexivity.
Qed.

Lemma error_log_step (m : HardwareMonitor) (op : monitor_op) :
  (length (error_log m) <= 50)%nat ->
  error_log (apply_op m op)
  = lastn 50 (error_log m ++ error_entries (state (status m)) [op]).
Proof.
  intros Hle. destruct op as [rt | b | now e c | v | t | t]; cbn [error_entries].
  - rewrite app_nil_r, lastn_short by lia. reflexivity.
  - rewrite app_nil_r, lastn_short by lia. now destruct b.
  - cbn [apply_op record_error error_log].
    apply (append_pop0_lastn (error_log m) _ 50 Hle).
  - rewrite app_nil_r, lastn_short by lia. reflexivity.
  - rewrite app_nil_r, lastn_short by lia. reflexivity.
  - rewrite app_nil_r, lastn_short by lia. reflexivity.
Qed.

Lemma state_step (m : HardwareMonitor) (op : monitor_op) :
  state (status (apply_op m op))
  = match op with SetState v => v | _ => state (status m) end.
Proof. destruct op as [rt | [] | now e c | v | t | t]; reflexivity. Qed.

Lemma error_entries_cons (st : HardwareState) (op : monitor_op)
    (ops : list monitor_op) :
  error_entries st (op :: ops)
  = error_entries st [op]
    ++ error_entries (match op with SetState v => v | _ => st end) ops.
Proof. destruct op; reflexivity. Qed.

Lemma latencies_cons (op : monitor_op) (ops : list monitor_op) :
  latencies (op :: ops) = latencies [op] ++ latencies ops.
Proof. destruct op; reflexivity. Qed.

Lemma run_ops_windows (ops : list monitor_op) (m : HardwareMonitor) :
  (length (response_times m) <= 100)%nat ->
  (length (error_log m) <= 50)%nat ->
  response_times (run_ops ops m)
  = lastn 100 (response_times m ++ latencies ops)
  /\ error_log (run_ops ops m)
     = lastn 50 (error_log m ++ error_entries (state (status m)) ops).
Proof.
  revert m. induction ops as [| op ops IH]; intros m Hrt Hel.
  - cbn. rewrite !app_nil_r, !lastn_short by lia. easy.
  - change (run_ops (op :: ops) m) with (run_ops ops (apply_op m op)).
    pose proof (response_times_step m op Hrt) as Hr.
    pose proof (error_log_step m op Hel) as He.
    destruct (IH (apply_op m op)) as [IHr IHe].
    + rewrite Hr. apply lastn_length.
    + rewrite He. apply lastn_length.
    + rewrite IHr, IHe, Hr, He, state_step, !lastn_app_lastn.
      rewrite (latencies_cons op ops), (error_entries_cons _ op ops).
      rewrite !app_assoc.
      easy.
Qed.

(** C8.  After every sequence of Health Monitor operations on a fresh
    monitor the latency window holds at most 100 entries and the error log
    at most 50, and each holds exactly the most recent entries reported to
    it, in the order they were reported: what is dropped is always the
    oldest entry. *)
Theorem monitor_windows_bounded_fifo (ops : list monitor_op) :
  let m := run_ops ops HardwareMonitor_init in
  (length (response_times m) <= 100)%nat
  /\ (length (error_log m) <= 50)%nat
  /\ response_times m = lastn 100 (latencies ops)
  /\ error_log m = lastn 50 (error_entries DISCONNECTED ops).
Proof.
  cbn zeta.
  destruct (run_ops_windows ops HardwareMonitor_init) as [Hr He];
    [cbn; lia | cbn; lia |].
  cbn [HardwareMonitor_init response_times error_log status state app]
    in Hr, He.
  rewrite Hr, He. repeat split; auto using lastn_length.
Qed.

(** Eviction step by step: a full latency window loses its head to make
    room for the new sample, and so does a full error log. *)
Lemma update_response_time_evicts_oldest (m : HardwareMonitor) (t : float) :
  length (response_times m) = 100%nat ->
  response_times (update_response_time t m) = tail (response_times m) ++ [t].
Proof.
  intros H. cbn [update_response_time response_times].
  now apply (append_pop0_full (response_times m) t 100).
Qed.

Lemma record_error_evicts_oldest (m : HardwareMonitor) (now : float)
    (e c : string) :
  length (error_log m) = 50%nat ->
  error_log (record_error now e c m)
  = tail (error_log m)
    ++ [{| err_timestamp := now; err_error := e; err_context := c;
           err_state := HardwareState_value (state (status m)) |}].
Proof.
  intros H. cbn [record_error error_log].
  now apply (append_pop0_full (error_log m) _ 50).
Qed.

End MonitorWindowsRun.

(** ** Health monitor: score *)

Section HealthScore.
Import Py Link Backend Runs.

Lemma fmul_comm (x y : float) : fmul x y = fmul y x.
Proof.
  unfold fmul.
  destruct x as [sx | sx | | sx mx ex], y as [sy | sy | | sy my ey];
    cbn [SFmul]; try reflexivity;
    rewrite 1?(xorb_comm sx sy), 1?(Pos.mul_comm mx my), 1?(Z.add_comm ex ey);
    reflexivity.
Qed.

Lemma flt_fle (x y : float) : flt x y = true -> fle x y = true.
Proof.
  unfold flt, fle, SFltb, SFleb.
  destruct (SFcompare x y) as [[] |]; easy.
Qed.

Lemma clamp_in_range (x : float) : in_score_range (clamp f0_0 f100_0 x).
Proof.
  unfold in_score_range, clamp, fmin.
  destruct (flt x f100_0) eqn:Hhi; unfold fmax.
  - destruct (flt f0_0 x) eqn:Hlo.
    + split; now apply flt_fle.
    + split; reflexivity.
  - split; reflexivity.
Qed.

Lemma get_health_score_idle (m : HardwareMonitor) :
  total_commands (status m) = 0 ->
  get_health_score m
  = Some (if decide (state (status m) = CONNECTED) then f100_0 else f0_0).
Proof. intros H. unfold get_health_score. now rewrite H. Qed.

(** C3.  For every monitor state [get_health_score] computes
    [100 × successRate − latencyPenalty − errorPenalty] clamped to
    [[0, 100]], with the three terms as the specification defines them;
    whatever it returns lies in [[0, 100]]; and with zero commands issued
    it returns 100 when the state is Connected and 0 otherwise, so that it
    returns 100 if and only if the state is Connected.  It returns a score
    whenever the successful and error counters are below [2 ^ 1000] in
    magnitude. *)
Theorem get_health_score_formula (m : HardwareMonitor) :
  get_health_score m = health_score_spec m
  /\ (forall x, get_health_score m = Some x -> in_score_range x)
  /\ (Z.abs (successful_commands (status m)) < 2 ^ 1000 ->
      Z.abs (error_count (status m)) < 2 ^ 1000 ->
      is_Some (get_health_score m))
  /\ (total_commands (status m) = 0 ->
      get_health_score m
      = Some (if decide (state (status m) = CONNECTED) then f100_0 else f0_0)
      /\ (get_health_score m = Some f100_0 <-> state (status m) = CONNECTED)).
Proof.
  assert (Heq : get_health_score m = health_score_spec m).
  { unfold get_health_score, health_score_spec, successRate, errorPenalty,
      latencyPenalty, clamp.
    destruct (total_commands (status m) =? 0); [reflexivity |].
    destruct (int_truediv (successful_commands (status m)) _) as [rate |];
      [| reflexivity].
    cbn [mbind option_bind].
    destruct (int_truediv (error_count (status m)) _) as [ratio |];
      [| reflexivity].
    cbn [mbind option_bind]. now rewrite (fmul_comm rate f100_0). }
  split; [exact Heq |]. split; [| split].
  - intros x Hx. rewrite Heq in Hx. unfold health_score_spec in Hx.
    destruct (total_commands (status m) =? 0).
    + injection Hx as <-. destruct (decide _); split; reflexivity.
    + destruct (successRate (status m)) as [rate |]; [| discriminate].
      destruct (errorPenalty (status m)) as [penalty |]; [| discriminate].
      injection Hx as <-. apply clamp_in_range.
  - intros Hs He. unfold get_health_score.
    destruct (Z.eqb_spec (total_commands (status m)) 0) as [| Hz]; [eauto |].
    destruct (int_truediv_returns 1000 _ _ ltac:(lia) Hz Hs) as (rate & -> & _).
    destruct (int_truediv_returns 1000 (error_count (status m))
                (Z.max 1 (total_commands (status m))) ltac:(lia) ltac:(lia) He)
      as (ratio & -> & _).
    cbn [mbind option_bind]. eauto.
  - intros Hz. rewrite (get_health_score_idle m Hz). split; [reflexivity |].
    destruct (decide (state (status m) = CONNECTED)) as [Hc | Hc].
    + easy.
    + split; [discriminate | contradiction].
Qed.

(** Scores of four monitors, as the interpreter computes them:
    59.85714285714286, 61.42857142857142, 0.0 and 100.0. *)
Example get_health_score_values :
  get_health_score
    (monitor_with CONNECTED 7 5 2 (S754_finite false 4683743612465316 (-55)))
  = Some (S754_finite false 8424143945840348 (-47))
  /\ get_health_score (monitor_with CONNECTED 7 6 1 f0_7)
     = Some (S754_finite false 8645302856113005 (-47))
  /\ get_health_score (monitor_with CONNECTED 3 1 4 f0_5) = Some f0_0
  /\ get_health_score
       (monitor_with DISCONNECTED 7 7 0
          (S754_finite false 5764607523034235 (-58)))
     = Some f100_0.
Proof. vm_compute. repeat split. Qed.

End HealthScore.

(** ** Command channel: a command that is answered *)

Section CommandChannel.
Import Py Link Backend Runs.

Lemma send_command_reply (command line : string) (t : float)
    (rest : list exchange) (s : System) :
  is_connected s = true ->
  script (dev s) = Reply line t :: rest ->
  send_command command s
  = (strip line,
     set_monitor (answered t s)
       (set_dev {| script := rest;
                   wire := wire (dev s) ++ [command +:+ newline];
                   clock := t |} s)).
Proof.
  intros Hc Hs. unfold send_command, next_exchange.
  rewrite Hc, Hs. reflexivity.
Qed.

End CommandChannel.

(** ** Device service: analog smoothing *)

Section AnalogSmoothing.
Import Py Link Backend Runs.

Lemma last_append_pop0 (values : list Z) (i : Z) :
  last (if smoothing_window <? Z.of_nat (length (values ++ [i]))
        then pop0 (values ++ [i]) else values ++ [i]) = Some i.
Proof.
  destruct (smoothing_window <? _) eqn:Hw.
  - destruct values as [| v values]; [discriminate Hw |].
    cbn [app pop0 tail]. apply last_snoc.
  - apply last_snoc.
Qed.

(** The first read of a channel returns the raw sample and seeds the
    window with it. *)
Lemma analog_read_first (pin line : string) (t : float)
    (rest : list exchange) (s : System) :
  is_connected s = true ->
  analog_smoothing s !! pin = None ->
  script (dev s) = Reply line t :: rest ->
  isdigit (strip line) = true ->
  exists s',
    analog_read pin s = (Some (raw_sample line), s')
    /\ is_connected s' = true
    /\ script (dev s') = rest
    /\ analog_smoothing s' !! pin = Some (replicate 5 (raw_sample line)).
Proof.
  intros Hc Hnone Hs Hd. unfold analog_read.
  rewrite (send_command_reply _ line t rest s Hc Hs), Hd.
  cbn [analog_smoothing set_monitor set_dev]. rewrite Hnone.
  eexists. split; [reflexivity |].
  split; [| split].
  - unfold is_connected in *. cbn. exact Hc.
  - reflexivity.
  - cbn. now rewrite lookup_insert_eq.
Qed.

(** A later read blends the sample with the value returned last. *)
Lemma analog_read_next (pin line : string) (t : float)
    (rest : list exchange) (values : list Z) (previous : Z) (s : System) :
  is_connected s = true ->
  analog_smoothing s !! pin = Some values ->
  last values = Some previous ->
  script (dev s) = Reply line t :: rest ->
  isdigit (strip line) = true ->
  exists s',
    analog_read pin s = (smooth previous (raw_sample line), s')
    /\ is_connected s' = true
    /\ script (dev s') = rest
    /\ exists values',
         analog_smoothing s' !! pin = Some values'
         /\ last values'
            = Some (default previous (smooth previous (raw_sample line))).
Proof.
  intros Hc Hsome Hlast Hs Hd. unfold analog_read.
  rewrite (send_command_reply _ line t rest s Hc Hs), Hd.
  cbn [analog_smoothing set_monitor set_dev]. rewrite Hsome.
  unfold _apply_smoothing, smooth. rewrite Hlast. cbn [mbind option_bind].
  fold (raw_sample line).
  destruct (float_of_int previous) as [a |]; cbn [mbind option_bind].
  2: { eexists. split; [reflexivity |]. cbn. unfold is_connected in *.
       cbn. eauto. }
  destruct (float_of_int (raw_sample line)) as [b |]; cbn [mbind option_bind].
  2: { eexists. split; [reflexivity |]. cbn. unfold is_connected in *.
       cbn. eauto. }
  destruct (int_of_float (fadd (fmul a f0_7) (fmul b f0_3))) as [i |] eqn:Hi;
    cbn [mbind option_bind].
  2: { eexists. split; [reflexivity |]. cbn. unfold is_connected in *.
       cbn. eauto. }
  rewrite Hi. eexists. split; [reflexivity |].
  split; [| split].
  - unfold is_connected in *. cbn. exact Hc.
  - reflexivity.
  - eexists. split; [cbn; now rewrite lookup_insert_eq |].
    apply last_append_pop0.
Qed.

Lemma analog_read_many_from (pin : string) (lines : list (string * float)) :
  forall (rest : list exchange) (values : list Z) (previous : Z) (s : System),
  is_connected s = true ->
  analog_smoothing s !! pin = Some values ->
  last values = Some previous ->
  script (dev s) = replies lines ++ rest ->
  Forall (fun lt => isdigit (strip (fst lt)) = true) lines ->
  fst (analog_read_many pin (length lines) s)
  = smoothed_from previous (map (fun lt => raw_sample (fst lt)) lines).
Proof.
  induction lines as [| [line t] lines IH];
    intros rest values previous s Hc Hsome Hlast Hs Hd.
  - reflexivity.
  - apply Forall_cons in Hd as [Hd Hds]. cbn [fst] in Hd.
    destruct (analog_read_next pin line t (replies lines ++ rest) values
                previous s Hc Hsome Hlast Hs Hd)
      as (s' & Hread & Hc' & Hs' & values' & Hsome' & Hlast').
    cbn [length analog_read_many map smoothed_from fst]. rewrite Hread.
    specialize (IH rest values' _ s' Hc' Hsome' Hlast' Hs' Hds).
    destruct (analog_read_many pin (length lines) s') as [rs s2].
    cbn [fst] in IH |- *.
    destruct (smooth previous (raw_sample line)) as [v |];
      cbn [default] in IH; now rewrite IH.
Qed.

(** C2 (as amended).  On a connected backend, for a channel that has not
    been read yet and a device that answers the reads with the digit lines
    of raw samples r0, r1, ..., rN: the first read returns r0 unsmoothed
    and seeds the window with it, and for every N ≥ 1 the Nth read returns
    [int(returned(N−1) * 0.7 + rN * 0.3)], computed in binary64 and
    truncated toward zero, where returned(0) = r0; a read on which the
    interpreter raises returns nothing and leaves the history as it
    was, which cannot happen while the value returned last and the raw
    sample are below [2 ^ 1000]. *)
Theorem analog_read_smoothing (pin : string) (lines : list (string * float))
    (rest : list exchange) (s : System) :
  is_connected s = true ->
  analog_smoothing s !! pin = None ->
  script (dev s) = replies lines ++ rest ->
  Forall (fun lt => isdigit (strip (fst lt)) = true) lines ->
  fst (analog_read_many pin (length lines) s)
  = smoothed_outputs (map (fun lt => raw_sample (fst lt)) lines)
  /\ match lines with
     | [] => True
     | first :: _ =>
         analog_smoothing (snd (analog_read pin s)) !! pin
         = Some (replicate 5 (raw_sample (fst first)))
     end
  /\ (forall previous raw,
        Z.abs previous < 2 ^ 1000 -> Z.abs raw < 2 ^ 1000 ->
        is_Some (smooth previous raw)).
Proof.
  intros Hc Hnone Hs Hd.
  enough (Hreads :
    fst (analog_read_many pin (length lines) s)
    = smoothed_outputs (map (fun lt => raw_sample (fst lt)) lines)
    /\ match lines with
       | [] => True
       | first :: _ =>
           analog_smoothing (snd (analog_read pin s)) !! pin
           = Some (replicate 5 (raw_sample (fst first)))
       end)
    by (destruct Hreads; auto using smooth_returns).
  destruct lines as [| [line t] lines].
  - split; [reflexivity | exact I].
  - apply Forall_cons in Hd as [Hd Hds]. cbn [fst] in Hd.
    destruct (analog_read_first pin line t (replies lines ++ rest) s
                Hc Hnone Hs Hd) as (s' & Hread & Hc' & Hs' & Hsome').
    cbn [length analog_read_many map smoothed_outputs fst]. rewrite Hread.
    pose proof (analog_read_many_from pin lines rest _ (raw_sample line) s'
                  Hc' Hsome' eq_refl Hs' Hds) as Hrest.
    destruct (analog_read_many pin (length lines) s') as [rs s2].
    cbn [fst snd] in Hrest |- *. now rewrite Hrest.
Qed.

(** Three reads, of samples 100, 200 and 50, and what they return. *)
Lemma analog_read_smoothing_witness :
  fst (analog_read_many "A0" 3 (connected_to ["100"; "200"; "50"]))
  = [Some 100; Some 130; Some 106].
Proof.
  refine (eq_trans
            (proj1 (analog_read_smoothing "A0"
                      [("100", f0_0); ("200", f0_0); ("50", f0_0)] []
                      (connected_to ["100"; "200"; "50"]) _ _ _ _)) _).
  - vm_compute. reflexivity.
  - vm_compute. reflexivity.
  - vm_compute. reflexivity.
  - repeat constructor.
  - vm_compute. reflexivity.
Defined.

(** C2, the claim as stated fails.  A steady sample of 3 is returned as 2
    on the second read, where [0.7 × 3 + 0.3 × 3 = 3]; and after a first
    sample of 0 a sample of 1 is returned as 0, where
    [0.7 × 0 + 0.3 × 1 = 0.3]. *)
Lemma analog_read_smoothing_claim_fails :
  (fst (analog_read_many "A0" 2 (connected_to ["3"; "3"])) = [Some 3; Some 2]
   /\ ~ (inject_Z 2 == claimed_smoothed 3 3)%Q)
  /\ (fst (analog_read_many "A0" 2 (connected_to ["0"; "1"]))
      = [Some 0; Some 0]
      /\ ~ (inject_Z 0 == claimed_smoothed 0 1)%Q).
Proof.
  repeat split; try (vm_compute; reflexivity); vm_compute; discriminate.
Qed.

End AnalogSmoothing.

(** ** Automation engine: creating a sequence *)

Section CreateSequence.
Import Py Link Backend Runs.

(** C4 (as amended).  [create_sequence] has no failure path for a name
    that is already in the sequence table: it always returns success,
    stores the new definition under the name, replacing whatever was
    stored there, leaves every other name alone, and queues one
    [SEQUENCE_STARTED] event that carries the step count. *)
Theorem create_sequence_replaces (name : string) (steps : list pydict)
    (loop : bool) (interval : float) (s : System) :
  let '(ok, s') := create_sequence name steps loop interval s in
  ok = true
  /\ sequences s' !! name = Some (new_sequence name steps loop interval)
  /\ (forall other, other <> name -> sequences s' !! other = sequences s !! other)
  /\ event_queue s'
     = event_queue s
       ++ [{| event_type := SEQUENCE_STARTED;
              timestamp := clock (dev s);
              data := [("sequence_name", VStr name);
                       ("step_count", VInt (Z.of_nat (length steps)))];
              source := "hardware" |}].
Proof.
  cbn. repeat split.
  - apply lookup_insert_eq.
  - intros other Hne. now apply lookup_insert_ne.
Qed.

(** C4, the claim as stated fails: creating "blink" a second time, with
    no steps, succeeds and replaces the two-step definition. *)
Lemma create_sequence_claim_fails :
  let s1 := snd (create_sequence "blink" blink_steps true f0_5
                   (connected_to [])) in
  let '(ok, s2) := create_sequence "blink" [] false f0_5 s1 in
  sequences s1 !! "blink" = Some (new_sequence "blink" blink_steps true f0_5)
  /\ ok = true
  /\ sequences s2 !! "blink" = Some (new_sequence "blink" [] false f0_5)
  /\ sequences s2 !! "blink" <> sequences s1 !! "blink".
Proof.
  cbn. rewrite !lookup_insert_eq. repeat split. discriminate.
Qed.

End CreateSequence.

(** ** Device service: what a lost connection clears *)

Section ConnectionLost.
Import Py Link Backend Runs.

(** C6 (as amended).  When the [CONNECTION_LOST] event is handled, all
    per-channel smoothing state is discarded: the smoothing map is empty.
    The pin configurations are kept as they are, and the interface's own
    [disconnect] touches neither table. *)
Theorem connection_lost_clears_smoothing_only (event : HardwareEvent)
    (s : System) :
  analog_smoothing (_on_connection_lost event s) = ∅
  /\ pin_configs (_on_connection_lost event s) = pin_configs s
  /\ analog_smoothing (disconnect s) = analog_smoothing s
  /\ pin_configs (disconnect s) = pin_configs s
  /\ pin_configs (_on_connection_lost event (disconnect s)) = pin_configs s.
Proof.
  unfold _on_connection_lost, disconnect.
  destruct (serial_port s) as [[[]] |]; cbn; repeat split.
Qed.

(** The manager's [disconnect_hardware] raises before it publishes
    anything. *)
Example disconnect_hardware_raises :
  disconnect_hardware session_before_loss = None.
Proof. reflexivity. Qed.

(** C6, the claim as stated fails: after the loss the smoothing map is
    empty, but pin 13 is still configured as it was during the session. *)
Lemma connection_lost_claim_fails :
  pin_configs session_before_loss !! 13 = Some (output_config 13)
  /\ analog_smoothing session_before_loss !! "A0" = Some (replicate 5 512)
  /\ analog_smoothing session_after_loss = ∅
  /\ pin_configs session_after_loss !! 13 = Some (output_config 13)
  /\ pin_configs session_after_loss <> ∅.
Proof.
  assert (H : pin_configs session_after_loss !! 13 = Some (output_config 13))
    by (vm_compute; reflexivity).
  repeat split; try (vm_compute; reflexivity); try exact H.
  intros Hempty. rewrite Hempty in H. discriminate H.
Qed.

End ConnectionLost.

(** ** Device service: digital pins *)

Section DigitalPins.
Import Py Link Backend Runs.

Lemma send_command_connected (command : string) (x : exchange)
    (rest : list exchange) (s : System) :
  is_connected s = true ->
  script (dev s) = x :: rest ->
  exists response m',
    send_command command s
    = (response,
       set_monitor m'
         (set_dev {| script := rest;
                     wire := wire (dev s) ++ on_wire x command;
                     clock := exchange_time x |} s))
    /\ state (status m') = state (status (monitor s))
    /\ String.eqb response "OK" = acknowledged x.
Proof.
  intros Hc Hs. unfold send_command, next_exchange. rewrite Hc, Hs.
  destruct x as [line t | msg t | msg t]; cbn [negb on_wire exchange_time].
  - do 2 eexists. split; [reflexivity |]. split; reflexivity.
  - do 2 eexists. split; [rewrite app_nil_r; reflexivity |].
    split; reflexivity.
  - do 2 eexists. split; [reflexivity |]. split; reflexivity.
Qed.

Lemma send_command_pin_configs (command : string) (s : System) :
  pin_configs (snd (send_command command s)) = pin_configs s.
Proof.
  unfold send_command. destruct (negb (is_connected s)); [reflexivity |].
  destruct (next_exchange (dev s)) as [[line t | msg t | msg t] rest];
    reflexivity.
Qed.

Lemma digital_read_pin_configs (pin : Z) (s : System) :
  pin_configs (snd (digital_read pin s)) = pin_configs s.
Proof.
  unfold digital_read.
  pose proof (send_command_pin_configs ("DIGITAL_READ:" +:+ pretty pin) s) as H.
  destruct (send_command _ s) as [response s1]. cbn [snd] in H.
  now destruct (String.eqb response "0" || String.eqb response "1").
Qed.

(** C9.  For a pin absent from the pin-configuration table, on a connected
    backend whose device meets the next two commands with [x1] and [x2]:
    [digital_write] first issues [PIN_MODE:<pin>:OUTPUT] and only then
    [DIGITAL_WRITE:<pin>:<state>]; it records the pin as Output exactly
    when the device acknowledges the configuration with [OK], and issues the
    write and returns its result whether or not the device does;
    [digital_read] issues [DIGITAL_READ:<pin>] alone and leaves the table
    as it is.  No [digital_read], on any pin and in any state, modifies the
    table. *)
Theorem digital_write_configures_read_does_not (pin value : Z)
    (x1 x2 : exchange) (rest : list exchange) (s : System) :
  pin_configs s !! pin = None ->
  is_connected s = true ->
  script (dev s) = x1 :: x2 :: rest ->
  (let '(ok, s') := digital_write pin value s in
   wire (dev s')
   = wire (dev s)
     ++ on_wire x1 ("PIN_MODE:" +:+ pretty pin +:+ ":" +:+ "OUTPUT")
     ++ on_wire x2 ("DIGITAL_WRITE:" +:+ pretty pin +:+ ":" +:+ pretty value)
   /\ pin_configs s'
      = (if acknowledged x1 then <[pin := output_config pin]> (pin_configs s)
         else pin_configs s)
   /\ ok = acknowledged x2)
  /\ (let '(_, s') := digital_read pin s in
      wire (dev s') = wire (dev s) ++ on_wire x1 ("DIGITAL_READ:" +:+ pretty pin)
      /\ pin_configs s' = pin_configs s
      /\ pin_configs s' !! pin = None)
  /\ (forall (any_pin : Z) (any : System),
        pin_configs (snd (digital_read any_pin any)) = pin_configs any).
Proof.
  intros Habsent Hc Hs. split; [| split; [| exact digital_read_pin_configs]].
  - unfold digital_write, configure_pin. rewrite Habsent.
    destruct (send_command_connected
                ("PIN_MODE:" +:+ pretty pin +:+ ":" +:+ "OUTPUT")
                x1 (x2 :: rest) s Hc Hs)
      as (r1 & m1 & Hsend1 & Hstate1 & Hack1).
    rewrite Hsend1, Hack1.
    set (s1 := set_monitor m1 _) in *.
    assert (Hc1 : forall pc, is_connected (set_pin_configs pc s1) = true).
    { intros pc. unfold is_connected in *. cbn. now rewrite Hstate1. }
    set (s0 := snd (if acknowledged x1
                    then (true, set_pin_configs
                                  (<[pin := output_config pin]> (pin_configs s1))
                                  s1)
                    else (false, s1))).
    assert (Hs0 : is_connected s0 = true
                  /\ script (dev s0) = x2 :: rest
                  /\ wire (dev s0) = wire (dev s) ++ on_wire x1
                       ("PIN_MODE:" +:+ pretty pin +:+ ":" +:+ "OUTPUT")
                  /\ pin_configs s0
                     = if acknowledged x1
                       then <[pin := output_config pin]> (pin_configs s)
                       else pin_configs s).
    { subst s0. destruct (acknowledged x1); cbn [snd].
      - split; [apply Hc1 |]. repeat split.
      - split; [| repeat split].
        rewrite <- (Hc1 (pin_configs s1)). reflexivity. }
    destruct Hs0 as (Hc0 & Hscript0 & Hwire0 & Hpins0).
    change (snd (if acknowledged x1 then _ else _)) with s0.
    destruct (send_command_connected
                ("DIGITAL_WRITE:" +:+ pretty pin +:+ ":" +:+ pretty value)
                x2 rest s0 Hc0 Hscript0)
      as (r2 & m2 & Hsend2 & _ & Hack2).
    rewrite Hsend2, Hack2.
    destruct (acknowledged x2); cbn; rewrite Hwire0, Hpins0, <- app_assoc;
      repeat split.
  - unfold digital_read.
    destruct (send_command_connected ("DIGITAL_READ:" +:+ pretty pin)
                x1 (x2 :: rest) s Hc Hs)
      as (r1 & m1 & Hsend1 & _ & _).
    rewrite Hsend1.
    destruct (String.eqb r1 "0" || String.eqb r1 "1"); cbn;
      repeat split; exact Habsent.
Qed.

(** The theorem at pin 13 on a device that acknowledges both commands. *)
Lemma digital_write_configures_read_does_not_witness :
  (let '(ok, s') := digital_write 13 1 (connected_to ["OK"; "OK"]) in
   wire (dev s')
   = wire (dev (connected_to ["OK"; "OK"]))
     ++ on_wire (Reply "OK" f0_0) ("PIN_MODE:" +:+ pretty 13 +:+ ":" +:+ "OUTPUT")
     ++ on_wire (Reply "OK" f0_0)
          ("DIGITAL_WRITE:" +:+ pretty 13 +:+ ":" +:+ pretty 1)
   /\ pin_configs s'
      = (if acknowledged (Reply "OK" f0_0)
         then <[13 := output_config 13]> (pin_configs (connected_to ["OK"; "OK"]))
         else pin_configs (connected_to ["OK"; "OK"]))
   /\ ok = acknowledged (Reply "OK" f0_0))
  /\ (let '(_, s') := digital_read 13 (connected_to ["OK"; "OK"]) in
      wire (dev s')
      = wire (dev (connected_to ["OK"; "OK"]))
        ++ on_wire (Reply "OK" f0_0) ("DIGITAL_READ:" +:+ pretty 13)
      /\ pin_configs s' = pin_configs (connected_to ["OK"; "OK"])
      /\ pin_configs s' !! 13 = None)
  /\ (forall (any_pin : Z) (any : System),
        pin_configs (snd (digital_read any_pin any)) = pin_configs any).
Proof.
  apply (digital_write_configures_read_does_not 13 1
           (Reply "OK" f0_0) (Reply "OK" f0_0) [] (connected_to ["OK"; "OK"])).
  - vm_compute. reflexivity.
  - vm_compute. reflexivity.
  - vm_compute. reflexivity.
Defined.

(** C9, the claim as stated fails: the device refuses the configuration of
    pin 13 and acknowledges the write.  [digital_write] sends both commands
    and returns [True], and pin 13 is still absent from the
    pin-configuration table: the write went out on a pin that was not
    configured as Output. *)
Lemma digital_write_claim_fails :
  let s := connected_to ["ERROR"; "OK"] in
  let '(ok, s') := digital_write 13 1 s in
  pin_configs s !! 13 = None
  /\ ok = true
  /\ wire (dev s')
     = wire (dev s)
       ++ ["PIN_MODE:13:OUTPUT" +:+ newline;
           "DIGITAL_WRITE:13:1" +:+ newline]
  /\ pin_configs s' !! 13 = None.
Proof. vm_compute. repeat split. Qed.

(** What the wire carries after that write: the probe, the configuration
    and the write, in this order. *)
Example digital_write_wire :
  wire (dev (snd (digital_write 13 1 (connected_to ["OK"; "OK"]))))
  = ["GET_STATUS" +:+ newline; "PIN_MODE:13:OUTPUT" +:+ newline;
     "DIGITAL_WRITE:13:1" +:+ newline].
Proof. vm_compute. reflexivity. Qed.

End DigitalPins.

(** ** Robotic arm: reading all positions *)

Section ReadAllPositions.
Import Py Link RoboticArm ArmRuns.

Lemma all_digits_split_comma (r : string) :
  all_digits r = true -> split_comma r = [r].
Proof.
  induction r as [| c r IH]; [reflexivity |].
  cbn [all_digits split_comma]. intros [Hc Hr]%andb_true_iff.
  destruct (Ascii.eqb_spec c ",") as [-> | _]; [discriminate Hc |].
  now rewrite (IH Hr).
Qed.

Lemma isdigit_all_digits (r : string) :
  isdigit r = true -> all_digits r = true.
Proof. destruct r; [discriminate | easy]. Qed.

(** The digit guard lets no comma through, so a reply is never split: whatever
    the device answers, at most one position comes back. *)
Lemma read_all_positions_at_most_one (s : RoboticArmBackend) :
  (length (fst (read_all_positions s)) <= 1)%nat.
Proof.
  unfold read_all_positions.
  destruct (negb (is_connected s)); [cbn; lia |].
  destruct (send_command "readall" s) as [response s1].
  destruct (negb (String.eqb response "") && isdigit response) eqn:Hg;
    [| cbn; lia].
  apply andb_true_iff in Hg as [_ Hd].
  rewrite (all_digits_split_comma response (isdigit_all_digits _ Hd)).
  cbn [filter list_filter].
  destruct (decide (strip response ≠ "")); cbn [mapM].
  - destruct (float_of_str response); cbn; lia.
  - cbn. lia.
Qed.

(** C5, the code at the failing input.  A connected backend with one
    registered callback sends [readall]; the device answers
    [10,20,30]; the call returns the empty list, the cached positions stay
    the initial seven zeros and the callback is not invoked. *)
Theorem read_all_positions_csv_reply :
  let s := add_position_callback 1 (arm_connected_to ["10,20,30"]) in
  let '(positions, s') := read_all_positions s in
  positions = []
  /\ wire (dev s') = ["GET_STATUS" +:+ newline; "readall" +:+ newline]
  /\ current_positions s' = replicate 7 f0_0
  /\ notified s' = [].
Proof. vm_compute. repeat split. Qed.

(** A reply of digits alone is the only one that is parsed: it yields one
    position, caches it and reaches the callback. *)
Example read_all_positions_digit_reply :
  let s := add_position_callback 1 (arm_connected_to ["90"]) in
  let '(positions, s') := read_all_positions s in
  positions = [of_Z 90]
  /\ current_positions s' = [of_Z 90]
  /\ notified s' = [(1%nat, [of_Z 90])].
Proof. vm_compute. repeat split. Qed.

End ReadAllPositions.

(** ** Robotic arm: saving and loading a task *)

Section SaveLoad.
Import Py Link RoboticArm ArmRuns.

Lemma as_floats_roundtrip (l : list float) :
  as_floats (JArr (map JFloat l)) = Some l.
Proof.
  cbn [as_floats]. apply mapM_Some_2.
  induction l as [| x l IH]; constructor; [reflexivity | exact IH].
Qed.

Lemma TrajectoryType_roundtrip (t : TrajectoryType) :
  TrajectoryType_of (TrajectoryType_value t) = Some t.
Proof. destruct t; reflexivity. Qed.

Lemma MotionProfile_roundtrip (p : MotionProfile) :
  MotionProfile_of (MotionProfile_value p) = Some p.
Proof. destruct p; reflexivity. Qed.

Lemma waypoint_roundtrip (now : float) (wp : Waypoint) :
  waypoint_of_json now (waypoint_to_json wp)
  = Some (reloaded_waypoint now wp).
Proof.
  unfold waypoint_of_json, waypoint_to_json, get_or.
  cbn [json_get String.eqb Ascii.eqb Bool.eqb].
  cbn [mbind option_bind]. rewrite as_floats_roundtrip.
  cbn [mbind option_bind as_int as_str].
  rewrite TrajectoryType_roundtrip. cbn [mbind option_bind].
  rewrite MotionProfile_roundtrip. reflexivity.
Qed.

Lemma waypoints_roundtrip (now : float) (wps : list Waypoint) :
  mapM (waypoint_of_json now) (map waypoint_to_json wps)
  = Some (map (reloaded_waypoint now) wps).
Proof.
  apply mapM_Some_2.
  induction wps as [| wp wps IH]; constructor;
    [apply waypoint_roundtrip | exact IH].
Qed.

Lemma task_roundtrip (now : float) (task : TaskSequence) :
  task_of_json now (task_to_json task) = Some (reloaded_task now task).
Proof.
  unfold task_of_json, task_to_json, get_or.
  cbn [json_get String.eqb Ascii.eqb Bool.eqb].
  cbn [mbind option_bind as_str as_float].
  rewrite waypoints_roundtrip. reflexivity.
Qed.

Lemma same_waypoint_reloaded (now : float) (wps : list Waypoint) :
  Forall2 same_waypoint (map (reloaded_waypoint now) wps) wps.
Proof.
  induction wps as [| wp wps IH]; constructor; [| exact IH].
  repeat split.
Qed.

(** C7.  For every task present in the task table: [save_task] to a file
    returns [True] exactly when the file system takes the write, and
    whenever it does, [load_task] of that file returns the task's name and
    stores under it a task with the same name whose waypoints agree with
    the saved ones, one for one and in order, on positions, delay,
    trajectory type and motion profile.  When the file cannot be opened
    [save_task] changes nothing, and when the writing fails nothing can be
    loaded from the file; the task table is untouched either way. *)
Theorem save_load_roundtrip (task_name filename : string)
    (task : TaskSequence) (written : write_result) (s : RoboticArmBackend) :
  tasks s !! task_name = Some task ->
  let '(saved, s1) := save_task task_name filename written s in
  let '(loaded, s2) := load_task filename s1 in
  (saved = true <-> written = Written)
  /\ (saved = true ->
      loaded = Some (name task)
      /\ exists task',
           tasks s2 !! name task = Some task'
           /\ name task' = name task
           /\ Forall2 same_waypoint (waypoints task') (waypoints task))
  /\ (forall msg, written = OpenFails msg -> s1 = s)
  /\ (forall msg,
        written = WriteFails msg ->
        tasks s1 = tasks s /\ loaded = None /\ s2 = s1).
Proof.
  intros Hin. unfold save_task. rewrite Hin.
  destruct written as [| msg | msg].
  - unfold load_task. cbn [files set_files dev].
    rewrite lookup_insert_eq. cbn [mbind option_bind].
    rewrite task_roundtrip. cbn [name reloaded_task].
    split; [easy |]. split; [| split; intros msg' Hw; discriminate Hw].
    intros _. split; [reflexivity |].
    exists (reloaded_task (clock (dev s)) task).
    split; [cbn; apply lookup_insert_eq |].
    split; [reflexivity |]. apply same_waypoint_reloaded.
  - case (load_task filename s); intros loaded s2.
    split; [split; discriminate |]. split; [discriminate |].
    split; [reflexivity | intros msg' Hw; discriminate Hw].
  - unfold load_task. cbn [files set_files dev].
    rewrite lookup_delete_eq. cbn [mbind option_bind].
    split; [split; discriminate |]. split; [discriminate |].
    split; [intros msg' Hw; discriminate Hw |].
    intros msg' _. repeat split.
Qed.

(** The round trip of a two-waypoint task. *)
Lemma save_load_roundtrip_witness :
  let '(saved, s1) := save_task "pick" "pick.json" Written pick_backend in
  let '(loaded, s2) := load_task "pick.json" s1 in
  saved = true
  /\ loaded = Some (name pick_task)
  /\ exists task',
       tasks s2 !! name pick_task = Some task'
       /\ name task' = name pick_task
       /\ Forall2 same_waypoint (waypoints task') (waypoints pick_task).
Proof.
  pose proof (save_load_roundtrip "pick" "pick.json" pick_task Written
                pick_backend eq_refl) as H.
  destruct (save_task "pick" "pick.json" Written pick_backend) as [saved s1].
  destruct (load_task "pick.json" s1) as [loaded s2].
  destruct H as ([_ Hsaved] & Hload & _).
  exact (conj (Hsaved eq_refl) (Hload (Hsaved eq_refl))).
Defined.

(** C7, the claim as stated fails: the task is in the table, but a file
    with the empty name cannot be opened; [save_task] returns [False],
    [load_task] of that file returns [None] and no task comes back. *)
Lemma save_load_claim_fails :
  let '(saved, s1) :=
    save_task "pick" "" (OpenFails "No such file or directory")
      pick_backend in
  let '(loaded, s2) := load_task "" s1 in
  tasks pick_backend !! "pick" = Some pick_task
  /\ saved = false
  /\ loaded = None
  /\ s2 = pick_backend.
Proof. vm_compute. repeat split. Qed.

(** What the round trip does not keep: the loop count restarts at zero
    and every waypoint is stamped anew. *)
Example save_load_resets_loop_count :
  let s1 := snd (save_task "pick" "pick.json" Written pick_backend) in
  let s2 := snd (load_task "pick.json" s1) in
  loop_count <$> tasks s2 !! "pick" = Some 0
  /\ tasks s2 !! "pick" <> Some pick_task.
Proof. split; [vm_compute; reflexivity | vm_compute; discriminate]. Qed.

End SaveLoad.

(** ** Robotic arm: limits of the task store *)

Section TaskLimits.
Import Py Link RoboticArm ArmRuns.

(** C10.  [create_task] returns [None] and leaves the backend unchanged
    whenever the name is already in the task table or the table holds
    [max_tasks] tasks or more; otherwise it stores a new task of that name
    with no waypoints and returns it.  [add_waypoint_to_task] returns
    [False] and leaves the backend unchanged once the task holds
    [max_waypoints] waypoints or more.  The constructor's defaults for the
    two limits are 6 and 250. *)
Theorem task_store_limits (s : RoboticArmBackend) :
  (forall name description,
     is_Some (tasks s !! name) \/ max_tasks s <= Z.of_nat (size (tasks s)) ->
     create_task name description s = (None, s))
  /\ (forall task_name description,
        tasks s !! task_name = None ->
        Z.of_nat (size (tasks s)) < max_tasks s ->
        exists task,
          create_task task_name description s
          = (Some task, set_tasks (<[task_name := task]> (tasks s)) s)
          /\ name task = task_name
          /\ waypoints task = []
          /\ tasks (snd (create_task task_name description s)) !! task_name
             = Some task)
  /\ (forall task_name task positions delay_ms trajectory_type motion_profile,
        tasks s !! task_name = Some task ->
        max_waypoints s <= Z.of_nat (length (waypoints task)) ->
        add_waypoint_to_task task_name positions delay_ms trajectory_type
          motion_profile s = (false, s))
  /\ max_tasks (RoboticArmBackend_init default_max_waypoints default_max_tasks
                  (dev s) (files s)) = 6
  /\ max_waypoints (RoboticArmBackend_init default_max_waypoints
                      default_max_tasks (dev s) (files s)) = 250.
Proof.
  split; [| split; [| split; [| split; reflexivity]]].
  - intros name description [[task Hin] | Hfull]; unfold create_task.
    + destruct (max_tasks s <=? _); [reflexivity |]. now rewrite Hin.
    + apply Z.leb_le in Hfull. now rewrite Hfull.
  - intros task_name description Hnew Hroom. unfold create_task.
    apply Z.leb_gt in Hroom. rewrite Hroom, Hnew.
    eexists. split; [reflexivity |]. cbn. repeat split.
    apply lookup_insert_eq.
  - intros task_name task positions delay_ms trajectory_type motion_profile
      Hin Hfull.
    unfold add_waypoint_to_task. rewrite Hin.
    apply Z.leb_le in Hfull. now rewrite Hfull.
Qed.

(** With the default limits: a seventh task is refused, a name in use is
    refused, and the 251st waypoint of a task is refused. *)
Lemma task_store_limits_witness :
  create_task "7" "" (with_tasks 6 (arm_connected_to []))
  = (None, with_tasks 6 (arm_connected_to []))
  /\ create_task "1" "" (with_tasks 1 (arm_connected_to []))
     = (None, with_tasks 1 (arm_connected_to []))
  /\ (exists task,
        create_task "1" "" (arm_connected_to [])
        = (Some task, set_tasks (<["1" := task]> (tasks (arm_connected_to [])))
                        (arm_connected_to []))
        /\ name task = "1"
        /\ waypoints task = []
        /\ tasks (snd (create_task "1" "" (arm_connected_to []))) !! "1"
           = Some task)
  /\ (let s := with_waypoints 250 "1" (with_tasks 1 (arm_connected_to [])) in
      add_waypoint_to_task "1" [f0_0] 500 SMOOTH NORMAL s = (false, s)).
Proof.
  split; [| split; [| split]].
  - apply (proj1 (task_store_limits (with_tasks 6 (arm_connected_to [])))).
    right. vm_compute. discriminate.
  - apply (proj1 (task_store_limits (with_tasks 1 (arm_connected_to [])))).
    left. vm_compute. eauto.
  - apply (proj1 (proj2 (task_store_limits (arm_connected_to [])))).
    + vm_compute. reflexivity.
    + vm_compute. reflexivity.
  - cbv zeta.
    destruct (tasks (with_waypoints 250 "1" (with_tasks 1 (arm_connected_to [])))
                !! "1") as [task |] eqn:Hin; [| vm_compute in Hin; discriminate].
    apply (proj1 (proj2 (proj2 (task_store_limits _))) "1" task); [exact Hin |].
    assert (Hlen : length (waypoints task) = 250%nat).
    { apply (f_equal (fmap (fun t => length (waypoints t)))) in Hin.
      vm_compute in Hin. injection Hin as Hin. symmetry. exact Hin. }
    rewrite Hlen. vm_compute. discriminate.
Defined.

End TaskLimits.

(** ** Backend: the command channel and the service, call by call *)

Section ServiceCalls.
Import Py Link Backend Runs Calls.

(** X1.  While the backend is not connected, [send_command] returns the
    text [Hardware not connected], [configure_pin] and [digital_write]
    return [False] and [digital_read] and [analog_read] return [None]; each
    of them leaves the whole state as it was: nothing is written to the
    device, counted by the monitor or queued as an event. *)
Theorem disconnected_backend_refuses (s : System) (command mode : string)
    (pin value debounce_ms : Z) (smoothing : bool) (channel : string) :
  is_connected s = false ->
  send_command command s = ("Hardware not connected", s)
  /\ configure_pin pin mode debounce_ms smoothing s = (false, s)
  /\ digital_write pin value s = (false, s)
  /\ digital_read pin s = (None, s)
  /\ analog_read channel s = (None, s).
Proof.
  intros Hc.
  assert (Hsend : forall c, send_command c s = ("Hardware not connected", s))
    by (intros c; unfold send_command; now rewrite Hc).
  assert (Hcfg : forall p m d sm, configure_pin p m d sm s = (false, s))
    by (intros p m d sm; unfold configure_pin; now rewrite Hsend).
  repeat split; auto.
  - unfold digital_write. rewrite Hcfg. cbn [snd].
    destruct (pin_configs s !! pin); now rewrite Hsend.
  - unfold digital_read. now rewrite Hsend.
  - unfold analog_read. now rewrite Hsend.
Qed.

Lemma disconnected_backend_refuses_witness :
  let s := disconnect (connected_to ["OK"]) in
  send_command "GET_STATUS" s = ("Hardware not connected", s)
  /\ configure_pin 13 "OUTPUT" 50 true s = (false, s)
  /\ digital_write 13 1 s = (false, s)
  /\ digital_read 13 s = (None, s)
  /\ analog_read "A0" s = (None, s).
Proof.
  intros s.
  apply (disconnected_backend_refuses s "GET_STATUS" "OUTPUT" 13 1 50 true
           "A0").
  reflexivity.
Defined.

(** The shape of what [send_command] returns on a connected backend. *)
Lemma send_command_exchange (command : string) (s : System) :
  is_connected s = true ->
  send_command command s
  = (response_of (fst (next_exchange (dev s))),
     set_monitor
       (run_ops (send_command_ops (clock (dev s)) command
                   (fst (next_exchange (dev s))))
          (monitor s))
       (set_dev {| script := snd (next_exchange (dev s));
                   wire := wire (dev s)
                           ++ on_wire (fst (next_exchange (dev s))) command;
                   clock := exchange_time (fst (next_exchange (dev s))) |}
          s)).
Proof.
  intros Hc. unfold send_command. rewrite Hc. cbn [negb].
  destruct (next_exchange (dev s)) as [[line t | msg t | msg t] rest];
    cbn [fst snd response_of on_wire exchange_time send_command_ops];
    rewrite ?app_nil_r; reflexivity.
Qed.

(** Either way, what [send_command] returns is the state it was given
    with another device state and a monitor moved by monitor calls. *)
Lemma send_command_shape (command : string) (s : System) :
  exists response d ops,
    send_command command s
    = (response, set_monitor (run_ops ops (monitor s)) (set_dev d s))
    \/ send_command command s = (response, s).
Proof.
  destruct (is_connected s) eqn:Hc.
  - do 3 eexists. left. now apply send_command_exchange.
  - exists "Hardware not connected", (dev s), []. right.
    unfold send_command. now rewrite Hc.
Qed.

Lemma last_append_pop0_gen {A} (n : Z) (l : list A) (x : A) :
  0 < n ->
  last (if n <? Z.of_nat (length (l ++ [x])) then pop0 (l ++ [x])
        else l ++ [x]) = Some x.
Proof.
  intros Hn. destruct (n <? _) eqn:Hw; [| apply last_snoc].
  destruct l as [| y l]; [apply Z.ltb_lt in Hw; cbn in Hw; lia |].
  cbn [app pop0 tail]. apply last_snoc.
Qed.

(** X2.  On a connected backend [send_command] makes exactly one exchange
    with the device: it returns the stripped reply line, or
    [Command error: ...] when the write or the read raises; the monitor
    counts one more command, and one more success exactly when a line came
    back; the newest entry of the latency window is the time the exchange
    took; the command reaches the wire unless the write itself failed; the
    pin table, the smoothing windows and the event queue are untouched and
    the backend is still connected. *)
Theorem send_command_reports_once (command : string) (s : System) :
  is_connected s = true ->
  let x := fst (next_exchange (dev s)) in
  let '(response, s') := send_command command s in
  response = response_of x
  /\ total_commands (status (monitor s'))
     = total_commands (status (monitor s)) + 1
  /\ successful_commands (status (monitor s'))
     = successful_commands (status (monitor s))
       + match x with Reply _ _ => 1 | _ => 0 end
  /\ last (response_times (monitor s'))
     = Some (fsub (exchange_time x) (clock (dev s)))
  /\ script (dev s') = snd (next_exchange (dev s))
  /\ wire (dev s') = wire (dev s) ++ on_wire x command
  /\ pin_configs s' = pin_configs s
  /\ analog_smoothing s' = analog_smoothing s
  /\ event_queue s' = event_queue s
  /\ is_connected s' = true.
Proof.
  intros Hc. cbn zeta. rewrite (send_command_exchange command s Hc).
  destruct (next_exchange (dev s)) as [[line t | msg t | msg t] rest];
    cbn [fst snd send_command_ops run_ops fold_left apply_op exchange_time];
    repeat split;
    try (cbn; lia);
    try (unfold is_connected in *; cbn; exact Hc);
    cbn [record_error record_command update_response_time set_status
         response_times monitor set_monitor];
    apply last_append_pop0_gen; lia.
Qed.

Lemma send_command_reports_once_witness :
  let s := connected_to [" OK "] in
  let '(response, s') := send_command "PING" s in
  response = "OK"
  /\ total_commands (status (monitor s'))
     = total_commands (status (monitor s)) + 1
  /\ successful_commands (status (monitor s'))
     = successful_commands (status (monitor s)) + 1
  /\ wire (dev s') = wire (dev s) ++ ["PING" +:+ newline].
Proof.
  intros s.
  pose proof (send_command_reports_once "PING" s eq_refl) as H.
  cbv zeta in H. destruct (send_command "PING" s) as [response s'].
  destruct H as (H1 & H2 & H3 & _ & _ & H6 & _).
  exact (conj H1 (conj H2 (conj H3 H6))).
Defined.

(** What [send_command] never touches. *)
Lemma send_command_frame (command : string) (s : System) :
  let s' := snd (send_command command s) in
  serial_port s' = serial_port s
  /\ state (status (monitor s')) = state (status (monitor s))
  /\ pin_configs s' = pin_configs s
  /\ analog_smoothing s' = analog_smoothing s
  /\ event_queue s' = event_queue s
  /\ sequences s' = sequences s.
Proof.
  cbn zeta. unfold send_command.
  destruct (negb (is_connected s)); [easy |].
  destruct (next_exchange (dev s)) as [[line t | msg t | msg t] rest];
    repeat split.
Qed.

Lemma is_connected_same (s s' : System) :
  serial_port s' = serial_port s ->
  state (status (monitor s')) = state (status (monitor s)) ->
  is_connected s' = is_connected s.
Proof. intros Hp Hs. unfold is_connected. now rewrite Hp, Hs. Qed.

Lemma keeps_refl (s : System) : keeps s s.
Proof. split; [now exists [] | easy]. Qed.

Lemma run_ops_app (ops1 ops2 : list monitor_op) (m : HardwareMonitor) :
  run_ops (ops1 ++ ops2) m = run_ops ops2 (run_ops ops1 m).
Proof. apply fold_left_app. Qed.

Lemma keeps_trans (s1 s2 s3 : System) :
  keeps s1 s2 -> keeps s2 s3 -> keeps s1 s3.
Proof.
  intros ([ops1 H1] & Hw1 & Hk1 & Hp1) ([ops2 H2] & Hw2 & Hk2 & Hp2).
  split; [| repeat split; auto].
  exists (ops1 ++ ops2). now rewrite run_ops_app, <- H1.
Qed.

(** A step that moves the monitor by monitor calls and leaves the two
    tables alone keeps everything. *)
Lemma keeps_tables (s s' : System) :
  (exists ops, monitor s' = run_ops ops (monitor s)) ->
  analog_smoothing s' = analog_smoothing s ->
  pin_configs s' = pin_configs s ->
  keeps s s'.
Proof.
  intros Hm Ha Hp. split; [exact Hm |].
  unfold windows_full, pins_keyed. rewrite Ha, Hp. easy.
Qed.

Lemma send_command_keeps (command : string) (s : System) :
  keeps s (snd (send_command command s)).
Proof.
  destruct (send_command_frame command s) as (_ & _ & Hp & Ha & _).
  apply keeps_tables; [| exact Ha | exact Hp].
  eexists. apply send_command_monitor.
Qed.

Lemma configure_pin_keeps (pin : Z) (mode : string) (debounce_ms : Z)
    (smoothing : bool) (s : System) :
  keeps s (snd (configure_pin pin mode debounce_ms smoothing s)).
Proof.
  unfold configure_pin.
  pose proof (send_command_keeps (pin_mode_command pin mode) s) as Hk.
  unfold pin_mode_command in Hk.
  destruct (send_command _ s) as [response s1]. cbn [snd] in Hk.
  destruct (String.eqb response "OK"); [| exact Hk]. cbn [snd].
  apply keeps_trans with s1; [exact Hk |].
  split; [now exists [] |]. split; [easy |]. split.
  - intros Hkeyed p config. cbn [pin_configs set_pin_configs].
    destruct (decide (p = pin)) as [-> | Hne].
    + rewrite lookup_insert_eq. now intros [= <-].
    + rewrite lookup_insert_ne by congruence. apply Hkeyed.
  - intros p Hp. cbn [pin_configs set_pin_configs].
    destruct (decide (p = pin)) as [-> | Hne].
    + rewrite lookup_insert_eq. eauto.
    + now rewrite lookup_insert_ne by congruence.
Qed.

Lemma emit_keeps (event : HardwareEvent) (s : System) : keeps s (emit event s).
Proof. apply keeps_tables; [now exists [] | easy | easy]. Qed.

Lemma digital_write_keeps (pin value : Z) (s : System) :
  keeps s (snd (digital_write pin value s)).
Proof.
  unfold digital_write.
  set (s0 := match pin_configs s !! pin with
             | Some _ => s
             | None => snd (configure_pin pin "OUTPUT" 50 true s)
             end).
  assert (H0 : keeps s s0)
    by (subst s0; destruct (pin_configs s !! pin);
        [apply keeps_refl | apply configure_pin_keeps]).
  pose proof (send_command_keeps
    ("DIGITAL_WRITE:" +:+ pretty pin +:+ ":" +:+ pretty value) s0) as Hk.
  destruct (send_command _ s0) as [response s1]. cbn [snd] in Hk.
  apply keeps_trans with s0; [exact H0 |].
  destruct (String.eqb response "OK"); cbn [snd]; [| exact Hk].
  apply keeps_trans with s1; [exact Hk | apply emit_keeps].
Qed.

Lemma digital_read_keeps (pin : Z) (s : System) :
  keeps s (snd (digital_read pin s)).
Proof.
  unfold digital_read.
  pose proof (send_command_keeps ("DIGITAL_READ:" +:+ pretty pin) s) as Hk.
  destruct (send_command _ s) as [response s1]. cbn [snd] in Hk.
  destruct (String.eqb response "0" || String.eqb response "1"); cbn [snd];
    [| exact Hk].
  apply keeps_trans with s1; [exact Hk | apply emit_keeps].
Qed.

Lemma _apply_smoothing_length (values values' : list Z) (new_value : Z)
    (smoothed : float) :
  length values = 5%nat ->
  _apply_smoothing values new_value = Some (smoothed, values') ->
  length values' = 5%nat.
Proof.
  intros Hlen. unfold _apply_smoothing.
  destruct (last values) as [prev |]; [| discriminate]. cbn [mbind option_bind].
  destruct (float_of_int prev) as [a |]; [| discriminate].
  cbn [mbind option_bind].
  destruct (float_of_int new_value) as [b |]; [| discriminate].
  cbn [mbind option_bind].
  destruct (int_of_float _) as [i |]; [| discriminate].
  cbn [mbind option_bind]. intros [= _ <-].
  rewrite length_app, Hlen. cbn.
  destruct values as [| v values]; [discriminate Hlen |].
  change (smoothing_window <? Z.of_nat 6) with true.
  cbn [pop0 tail app]. rewrite length_app. cbn in Hlen |- *. lia.
Qed.

Lemma set_analog_smoothing_keeps (pin : string) (values : list Z)
    (s : System) :
  length values = 5%nat ->
  keeps s (set_analog_smoothing (<[pin := values]> (analog_smoothing s)) s).
Proof.
  intros Hlen. split; [now exists [] |]. split; [| easy].
  intros Hfull p vs. cbn [analog_smoothing set_analog_smoothing].
  destruct (decide (p = pin)) as [-> | Hne].
  - rewrite lookup_insert_eq. now intros [= <-].
  - rewrite lookup_insert_ne by congruence. apply Hfull.
Qed.

Lemma analog_read_keeps_full (pin : string) (s : System) :
  windows_full s -> keeps s (snd (analog_read pin s)).
Proof.
  intros Hfull. unfold analog_read.
  pose proof (send_command_keeps ("ANALOG_READ:" +:+ pin) s) as Hk.
  destruct (send_command _ s) as [response s1]. cbn [snd] in Hk.
  destruct (isdigit response); [| exact Hk].
  assert (Hfull1 : windows_full s1) by now apply Hk.
  apply keeps_trans with s1; [exact Hk |].
  destruct (analog_smoothing s1 !! pin) as [values |] eqn:Hv.
  - destruct (_apply_smoothing values _) as [[smoothed values'] |] eqn:Ha;
      [| apply keeps_refl].
    pose proof (_apply_smoothing_length _ _ _ _ (Hfull1 _ _ Hv) Ha) as Hlen.
    destruct (int_of_float smoothed); cbn [snd].
    + eapply keeps_trans;
        [apply (set_analog_smoothing_keeps pin values' s1 Hlen) |].
      apply emit_keeps.
    + now apply set_analog_smoothing_keeps.
  - cbn [snd]. eapply keeps_trans; [| apply emit_keeps].
    apply (set_analog_smoothing_keeps pin _ s1). apply length_replicate.
Qed.

(** What [analog_read] never touches, and where its monitor comes
    from. *)
Lemma analog_read_frame (pin : string) (s : System) :
  let s' := snd (analog_read pin s) in
  monitor s' = monitor (snd (send_command ("ANALOG_READ:" +:+ pin) s))
  /\ pin_configs s' = pin_configs s
  /\ serial_port s' = serial_port s
  /\ sequences s' = sequences s.
Proof.
  cbn zeta. unfold analog_read.
  destruct (send_command_frame ("ANALOG_READ:" +:+ pin) s)
    as (Hport & _ & Hpins & _ & _ & Hseq).
  destruct (send_command _ s) as [response s1]. cbn [snd] in *.
  destruct (isdigit response); [| easy].
  destruct (analog_smoothing s1 !! pin) as [values |]; [| easy].
  destruct (_apply_smoothing values _) as [[smoothed values'] |]; [| easy].
  now destruct (int_of_float smoothed).
Qed.

Lemma analog_read_keeps (pin : string) (s : System) :
  keeps s (snd (analog_read pin s)).
Proof.
  destruct (analog_read_frame pin s) as (Hm & Hp & _).
  split; [| split; [| split]].
  - exists (if is_connected s
            then send_command_ops (clock (dev s)) ("ANALOG_READ:" +:+ pin)
                   (fst (next_exchange (dev s)))
            else []).
    rewrite Hm. apply send_command_monitor.
  - intros Hfull. now apply (analog_read_keeps_full pin s Hfull).
  - unfold pins_keyed. now rewrite Hp.
  - now rewrite Hp.
Qed.

Lemma connect_keeps (port : string) (baudrate : Z)
    (unavailable : option string) (s : System) :
  keeps s (snd (connect port baudrate unavailable s)).
Proof.
  unfold connect. destruct unavailable as [e |].
  - apply keeps_tables; [| easy | easy].
    now exists [RecordError (clock (dev s)) ("Connection failed: " +:+ e)
                  ("Port: " +:+ port +:+ ", Baud: " +:+ pretty baudrate)].
  - destruct (next_exchange (dev s)) as [[line t | msg t | msg t] rest];
      [destruct (startswith "STATUS:" (strip line)) | |];
      (apply keeps_tables; [| easy | easy]);
      try (now exists []).
    now exists [SetState CONNECTED; SetConnectedAt (Some t)].
Qed.

Lemma disconnect_keeps (s : System) : keeps s (disconnect s).
Proof.
  unfold disconnect. apply keeps_tables.
  - exists [SetState DISCONNECTED]. now destruct (serial_port s) as [[[]] |].
  - now destruct (serial_port s) as [[[]] |].
  - now destruct (serial_port s) as [[[]] |].
Qed.

Lemma create_sequence_keeps (name : string) (steps : list pydict)
    (loop : bool) (interval : float) (s : System) :
  keeps s (snd (create_sequence name steps loop interval s)).
Proof. apply keeps_tables; [now exists [] | easy | easy]. Qed.

Lemma _on_connection_lost_keeps (event : HardwareEvent) (s : System) :
  keeps s (_on_connection_lost event s).
Proof.
  split; [now exists [] |]. split; [| easy].
  intros _ pin values. cbn. now rewrite lookup_empty.
Qed.

Lemma configure_all_keeps (pins : list Z) (s : System) :
  keeps s (fold_left (fun s pin => snd (configure_pin pin "OUTPUT" 50 true s))
             pins s).
Proof.
  revert s. induction pins as [| pin pins IH]; intros s; [apply keeps_refl |].
  cbn [fold_left]. eapply keeps_trans; [apply configure_pin_keeps | apply IH].
Qed.

Lemma connect_hardware_keeps (port : string) (baudrate : Z)
    (unavailable : option string) (s : System) :
  keeps s (snd (connect_hardware port baudrate unavailable s)).
Proof.
  unfold connect_hardware.
  pose proof (connect_keeps port baudrate unavailable s) as Hk.
  destruct (connect port baudrate unavailable s) as [[] s1]; cbn [snd] in *.
  - eapply keeps_trans; [exact Hk |].
    eapply keeps_trans; [apply emit_keeps | apply configure_all_keeps].
  - eapply keeps_trans; [exact Hk | apply emit_keeps].
Qed.

Lemma apply_call_keeps (s : System) (c : call) : keeps s (apply_call s c).
Proof.
  destruct c; cbn [apply_call];
    auto using connect_keeps, connect_hardware_keeps, disconnect_keeps,
      send_command_keeps, configure_pin_keeps, digital_write_keeps,
      digital_read_keeps, analog_read_keeps, create_sequence_keeps,
      _on_connection_lost_keeps.
Qed.

Lemma run_calls_keeps (calls : list call) (s : System) :
  keeps s (run_calls calls s).
Proof.
  revert s. induction calls as [| c calls IH]; intros s; [apply keeps_refl |].
  eapply keeps_trans; [apply apply_call_keeps | apply IH].
Qed.

Lemma record_errors_nonneg (ops : list monitor_op) : 0 <= record_errors ops.
Proof.
  induction ops as [| [] ops IH]; cbn [record_errors]; lia.
Qed.

(** X3.  After any sequence of backend calls on a freshly built backend, over
    any device: every smoothing window holds exactly five values, every pin
    configuration is stored under its own pin number,
    [successful_commands <= total_commands <= successful_commands +
    error_count], the latency window holds at most 100 entries and the error
    log at most 50. *)
Theorem backend_run_invariants (d : Device) (calls : list call) :
  let s := run_calls calls (System_init d) in
  let st := status (monitor s) in
  windows_full s
  /\ pins_keyed s
  /\ successful_commands st <= total_commands st
     <= successful_commands st + error_count st
  /\ (length (response_times (monitor s)) <= 100)%nat
  /\ (length (error_log (monitor s)) <= 50)%nat.
Proof.
  cbn zeta.
  destruct (run_calls_keeps calls (System_init d))
    as ([ops Hm] & Hfull & Hkeyed & _).
  split; [apply Hfull; intros pin values; cbn; now rewrite lookup_empty |].
  split; [apply Hkeyed; intros pin config; cbn; now rewrite lookup_empty |].
  rewrite Hm. cbn [monitor System_init].
  destruct (run_ops_counters ops HardwareMonitor_init) as [H1 H2].
  destruct (run_ops_windows ops HardwareMonitor_init) as [Hr He];
    [cbn; lia | cbn; lia |].
  pose proof (record_errors_nonneg ops).
  cbn in H1, H2. rewrite Hr, He.
  repeat split; try lia; apply lastn_length.
Qed.

(** X4.  No call removes a pin configuration: a pin that is configured stays
    configured through every sequence of calls, disconnecting, reconnecting
    and the handling of a lost connection included. *)
Theorem pin_configuration_never_dropped (calls : list call) (s : System)
    (pin : Z) :
  is_Some (pin_configs s !! pin) ->
  is_Some (pin_configs (run_calls calls s) !! pin).
Proof. intros H. now apply (run_calls_keeps calls s). Qed.

Lemma same_link_refl (s : System) : same_link s s.
Proof. easy. Qed.

Lemma same_link_trans (s1 s2 s3 : System) :
  same_link s1 s2 -> same_link s2 s3 -> same_link s1 s3.
Proof. unfold same_link. intros [-> ->] [-> ->]. easy. Qed.

Lemma send_command_same_link (command : string) (s : System) :
  same_link s (snd (send_command command s)).
Proof. destruct (send_command_frame command s) as (H1 & H2 & _). easy. Qed.

Lemma configure_pin_same_link (pin : Z) (mode : string) (debounce_ms : Z)
    (smoothing : bool) (s : System) :
  same_link s (snd (configure_pin pin mode debounce_ms smoothing s)).
Proof.
  unfold configure_pin.
  pose proof (send_command_same_link
                ("PIN_MODE:" +:+ pretty pin +:+ ":" +:+ mode) s) as H.
  destruct (send_command _ s) as [response s1].
  now destruct (String.eqb response "OK").
Qed.

Lemma pin_configuration_never_dropped_witness :
  is_Some
    (pin_configs
       (run_calls
          [Disconnect; ConnectionLost (event_of CONNECTION_LOST);
           Connect "COM3" 115200 None; DigitalWrite 13 1]
          (snd (configure_pin 13 "OUTPUT" 50 true (connected_to ["OK"]))))
     !! 13).
Proof.
  apply pin_configuration_never_dropped. vm_compute. eauto.
Defined.

Lemma digital_write_same_link (pin value : Z) (s : System) :
  same_link s (snd (digital_write pin value s)).
Proof.
  unfold digital_write.
  set (s0 := match pin_configs s !! pin with
             | Some _ => s
             | None => snd (configure_pin pin "OUTPUT" 50 true s)
             end).
  assert (H0 : same_link s s0)
    by (subst s0; destruct (pin_configs s !! pin);
        [apply same_link_refl | apply configure_pin_same_link]).
  pose proof (send_command_same_link
    ("DIGITAL_WRITE:" +:+ pretty pin +:+ ":" +:+ pretty value) s0) as H.
  destruct (send_command _ s0) as [response s1]. cbn [snd] in H.
  apply same_link_trans with s0; [exact H0 |].
  now destruct (String.eqb response "OK").
Qed.

Lemma digital_read_same_link (pin : Z) (s : System) :
  same_link s (snd (digital_read pin s)).
Proof.
  unfold digital_read.
  pose proof (send_command_same_link ("DIGITAL_READ:" +:+ pretty pin) s) as H.
  destruct (send_command _ s) as [response s1].
  now destruct (String.eqb response "0" || String.eqb response "1").
Qed.

Lemma analog_read_same_link (pin : string) (s : System) :
  same_link s (snd (analog_read pin s)).
Proof.
  destruct (analog_read_frame pin s) as (Hm & _ & Hp & _).
  split; [exact Hp |]. rewrite Hm.
  apply (send_command_same_link ("ANALOG_READ:" +:+ pin) s).
Qed.

Lemma apply_call_same_link (s : System) (c : call) :
  is_link_call c = false -> same_link s (apply_call s c).
Proof.
  destruct c; cbn [is_link_call apply_call]; try discriminate; intros _;
    auto using send_command_same_link, configure_pin_same_link,
      digital_write_same_link, digital_read_same_link, analog_read_same_link;
    easy.
Qed.

(** X5.  Calls other than [connect], [connect_hardware] and [disconnect]
    never open or close the link: after any sequence of them [is_connected],
    the serial port and the monitor's connection state are what they were,
    whatever the device answered or failed to answer. *)
Theorem commands_never_change_the_connection (calls : list call)
    (s : System) :
  Forall (fun c => is_link_call c = false) calls ->
  is_connected (run_calls calls s) = is_connected s
  /\ serial_port (run_calls calls s) = serial_port s
  /\ state (status (monitor (run_calls calls s))) = state (status (monitor s)).
Proof.
  intros Hcalls.
  assert (H : same_link s (run_calls calls s)).
  { revert s. induction Hcalls as [| c calls Hc _ IH]; intros s;
      [apply same_link_refl |].
    apply same_link_trans with (apply_call s c);
      [now apply apply_call_same_link | apply IH]. }
  destruct H as [Hp Hs]. split; [| easy]. now apply is_connected_same.
Qed.

Lemma commands_never_change_the_connection_witness :
  is_connected
    (run_calls [DigitalWrite 13 1; SendCommand "GET_STATUS"; AnalogRead "A0"]
       failing_link)
  = is_connected failing_link.
Proof.
  apply (commands_never_change_the_connection
           [DigitalWrite 13 1; SendCommand "GET_STATUS"; AnalogRead "A0"]
           failing_link).
  repeat constructor.
Defined.

(** X6.  [connect] with the port available makes one probe exchange: it
    succeeds exactly when the device answers [GET_STATUS] with a line that
    starts with [STATUS:], and [is_connected] afterwards equals the result;
    on success the monitor is [CONNECTED] since the time of the reply and the
    port is open, on failure the monitor is untouched and the port is left
    closed.  When the port cannot be opened, [connect] returns [False]
    without any exchange, keeps port and connection as they were and records
    one error [Connection failed: <text>] in the monitor. *)
Theorem connect_outcome (port : string) (baudrate : Z) (e : string)
    (s : System) :
  (let x := fst (next_exchange (dev s)) in
   let '(ok, s') := connect port baudrate None s in
   ok = probe_ok x
   /\ is_connected s' = ok
   /\ wire (dev s') = wire (dev s) ++ on_wire x "GET_STATUS"
   /\ (if ok
       then state (status (monitor s')) = CONNECTED
            /\ connected_at (status (monitor s')) = Some (exchange_time x)
            /\ serial_port s' = Some {| is_open := true |}
       else monitor s' = monitor s
            /\ serial_port s' = Some {| is_open := false |}))
  /\ (let '(ok, s') := connect port baudrate (Some e) s in
      ok = false
      /\ dev s' = dev s
      /\ serial_port s' = serial_port s
      /\ is_connected s' = is_connected s
      /\ error_count (status (monitor s'))
         = error_count (status (monitor s)) + 1
      /\ err_error <$> last (error_log (monitor s'))
         = Some ("Connection failed: " +:+ e)).
Proof.
  split.
  - cbn zeta. unfold connect.
    destruct (next_exchange (dev s)) as [[line t | msg t | msg t] rest];
      cbn [fst probe_ok on_wire exchange_time];
      [destruct (startswith "STATUS:" (strip line)) | |];
      rewrite ?app_nil_r; repeat split.
  - cbn. repeat split.
    rewrite last_append_pop0_gen by lia. reflexivity.
Qed.

(** X7.  After [disconnect] the backend is not connected and the monitor
    state is [DISCONNECTED], whatever the state was; the device, the event
    queue and the command counter are untouched; a second [disconnect]
    changes nothing, and every command is then refused with
    [Hardware not connected]. *)
Theorem disconnect_closes (s : System) :
  is_connected (disconnect s) = false
  /\ state (status (monitor (disconnect s))) = DISCONNECTED
  /\ disconnect (disconnect s) = disconnect s
  /\ dev (disconnect s) = dev s
  /\ event_queue (disconnect s) = event_queue s
  /\ total_commands (status (monitor (disconnect s)))
     = total_commands (status (monitor s))
  /\ (forall command,
        send_command command (disconnect s)
        = ("Hardware not connected", disconnect s)).
Proof.
  assert (Hc : is_connected (disconnect s) = false)
    by (unfold disconnect, is_connected;
        destruct (serial_port s) as [[[]] |] eqn:Hp; cbn;
        rewrite ?Hp; reflexivity).
  split; [exact Hc |].
  split; [unfold disconnect; now destruct (serial_port s) as [[[]] |] |].
  split.
  { unfold disconnect.
    destruct s as [d [[[]] |] m pc sm q sq]; cbn; reflexivity. }
  split; [unfold disconnect; now destruct (serial_port s) as [[[]] |] |].
  split; [unfold disconnect; now destruct (serial_port s) as [[[]] |] |].
  split; [unfold disconnect; now destruct (serial_port s) as [[[]] |] |].
  intros command. unfold send_command. now rewrite Hc.
Qed.

Lemma response_of_ok (x : exchange) :
  String.eqb (response_of x) "OK" = acknowledged x.
Proof. now destruct x. Qed.

(** X8.  The events of the service.  [digital_write] queues one
    [PIN_STATE_CHANGED] event with the pin and the written state exactly
    when it returns [True]; [digital_read] returns [None], 0 or 1 and queues
    one [PIN_STATE_CHANGED] event with the value read exactly when it returns
    a value; [analog_read] queues one [ANALOG_VALUE_CHANGED] event with the
    returned value exactly when it returns one; [configure_pin] and
    [send_command] never queue an event. *)
Theorem service_events (s : System) :
  (forall pin value,
     let '(ok, s') := digital_write pin value s in
     event_queue s'
     = event_queue s
       ++ (if ok then [pin_state_changed (clock (dev s')) pin value] else []))
  /\ (forall pin,
        let '(r, s') := digital_read pin s in
        (r = None \/ r = Some 0 \/ r = Some 1)
        /\ event_queue s'
           = event_queue s
             ++ match r with
                | Some v => [pin_state_changed (clock (dev s')) pin v]
                | None => []
                end)
  /\ (forall pin,
        let '(r, s') := analog_read pin s in
        exists raw,
          event_queue s'
          = event_queue s
            ++ match r with
               | Some v => [analog_value_changed (clock (dev s')) pin v raw]
               | None => []
               end)
  /\ (forall pin mode debounce_ms smoothing,
        event_queue (snd (configure_pin pin mode debounce_ms smoothing s))
        = event_queue s)
  /\ (forall command, event_queue (snd (send_command command s)) = event_queue s).
Proof.
  assert (Hsend : forall c s0, event_queue (snd (send_command c s0))
                               = event_queue s0)
    by (intros c s0; now destruct (send_command_frame c s0) as (_&_&_&_&?&_)).
  assert (Hcfg : forall pin mode d sm s0,
            event_queue (snd (configure_pin pin mode d sm s0))
            = event_queue s0).
  { intros pin mode d sm s0. unfold configure_pin.
    specialize (Hsend ("PIN_MODE:" +:+ pretty pin +:+ ":" +:+ mode) s0).
    destruct (send_command _ s0) as [response s1].
    now destruct (String.eqb response "OK"). }
  split; [| split; [| split; [| split]]]; auto.
  - intros pin value. unfold digital_write.
    set (s0 := match pin_configs s !! pin with
               | Some _ => s
               | None => snd (configure_pin pin "OUTPUT" 50 true s)
               end).
    assert (H0 : event_queue s0 = event_queue s)
      by (subst s0; destruct (pin_configs s !! pin); [easy | apply Hcfg]).
    specialize (Hsend ("DIGITAL_WRITE:" +:+ pretty pin +:+ ":" +:+ pretty value)
                  s0).
    destruct (send_command _ s0) as [response s1]. cbn [snd] in Hsend.
    destruct (String.eqb response "OK"); cbn; rewrite Hsend, H0;
      [reflexivity | now rewrite app_nil_r].
  - intros pin. unfold digital_read.
    specialize (Hsend ("DIGITAL_READ:" +:+ pretty pin) s).
    destruct (send_command _ s) as [response s1]. cbn [snd] in Hsend.
    destruct (String.eqb_spec response "0") as [-> | H0];
      [cbn; rewrite Hsend; auto |].
    destruct (String.eqb_spec response "1") as [-> | H1];
      cbn; rewrite Hsend, ?app_nil_r; auto.
  - intros pin. unfold analog_read.
    specialize (Hsend ("ANALOG_READ:" +:+ pin) s).
    destruct (send_command _ s) as [response s1]. cbn [snd] in Hsend.
    destruct (isdigit response);
      [| exists 0; now rewrite Hsend, app_nil_r].
    destruct (analog_smoothing s1 !! pin) as [values |];
      [| exists (int_of_digits response); cbn; now rewrite Hsend].
    destruct (_apply_smoothing values _) as [[smoothed values'] |];
      [| exists 0; now rewrite Hsend, app_nil_r].
    destruct (int_of_float smoothed); exists (int_of_digits response); cbn;
      now rewrite Hsend, ?app_nil_r.
Qed.

Lemma send_command_disconnected (command : string) (s : System) :
  is_connected s = false ->
  send_command command s = ("Hardware not connected", s).
Proof. intros Hc. unfold send_command. now rewrite Hc. Qed.

(** X9.  [digital_write] on a pin that already has a configuration never
    changes the pin table and sends no [PIN_MODE] command: on a connected
    backend it makes the one [DIGITAL_WRITE:<pin>:<state>] exchange and
    returns [True] exactly when the device answers [OK]; on a disconnected
    backend it returns [False] and changes nothing. *)
Theorem digital_write_configured_pin (pin value : Z)
    (config : PinConfiguration) (s : System) :
  pin_configs s !! pin = Some config ->
  let x := fst (next_exchange (dev s)) in
  let '(ok, s') := digital_write pin value s in
  pin_configs s' = pin_configs s
  /\ if is_connected s
     then ok = acknowledged x
          /\ wire (dev s')
             = wire (dev s)
               ++ on_wire x ("DIGITAL_WRITE:" +:+ pretty pin +:+ ":"
                             +:+ pretty value)
          /\ script (dev s') = snd (next_exchange (dev s))
     else ok = false /\ s' = s.
Proof.
  intros Hin. cbn zeta. unfold digital_write. rewrite Hin.
  destruct (is_connected s) eqn:Hc.
  - rewrite (send_command_exchange _ s Hc), response_of_ok.
    destruct (acknowledged _); cbn; repeat split.
  - rewrite (send_command_disconnected _ s Hc). cbn. repeat split.
Qed.

Lemma digital_write_configured_pin_witness :
  let s := snd (configure_pin 13 "OUTPUT" 50 true (connected_to ["OK"; "OK"])) in
  let '(ok, s') := digital_write 13 1 s in
  pin_configs s' = pin_configs s
  /\ ok = true
  /\ wire (dev s')
     = wire (dev s) ++ ["DIGITAL_WRITE:13:1" +:+ newline]
  /\ script (dev s') = [].
Proof.
  intros s.
  assert (Hin : pin_configs s !! 13 = Some (output_config 13))
    by (vm_compute; reflexivity).
  pose proof (digital_write_configured_pin 13 1 (output_config 13) s Hin)
    as H.
  cbv zeta in H. destruct (digital_write 13 1 s) as [ok s'].
  destruct H as [H1 H2]. exact (conj H1 H2).
Defined.

End ServiceCalls.

(** ** Backend manager: connecting *)

Section ConnectHardware.
Import Py Link Backend Runs Calls.

Lemma configure_pin_connected (pin : Z) (mode : string) (debounce_ms : Z)
    (smoothing : bool) (x : exchange) (rest : list exchange) (s : System) :
  is_connected s = true ->
  script (dev s) = x :: rest ->
  let '(ok, s') := configure_pin pin mode debounce_ms smoothing s in
  ok = acknowledged x
  /\ is_connected s' = true
  /\ script (dev s') = rest
  /\ wire (dev s') = wire (dev s) ++ on_wire x (pin_mode_command pin mode)
  /\ event_queue s' = event_queue s
  /\ pin_configs s'
     = if acknowledged x
       then <[pin := {| pin_number := pin; mode := mode; initial_state := 0;
                        debounce_ms := debounce_ms;
                        smoothing_enabled := smoothing;
                        smoothing_factor := f0_3 |}]> (pin_configs s)
       else pin_configs s.
Proof.
  intros Hc Hs. unfold configure_pin.
  rewrite (send_command_exchange _ s Hc), response_of_ok.
  unfold next_exchange. rewrite Hs. cbn [fst snd].
  unfold is_connected in *.
  destruct x as [line t | msg t | msg t]; cbn [acknowledged];
    [destruct (String.eqb (strip line) "OK") | |];
    cbn; rewrite ?app_nil_r; repeat split; exact Hc.
Qed.

Lemma configure_range (n : nat) :
  forall (a : Z) (xs rest : list exchange) (s : System),
  is_connected s = true ->
  script (dev s) = xs ++ rest ->
  length xs = n ->
  let s' := fold_left
              (fun s pin => snd (configure_pin pin "OUTPUT" 50 true s))
              (seqZ a (Z.of_nat n)) s in
  is_connected s' = true
  /\ script (dev s') = rest
  /\ wire (dev s')
     = wire (dev s)
       ++ on_wire_all xs
            (map (fun pin => pin_mode_command pin "OUTPUT")
                 (seqZ a (Z.of_nat n)))
  /\ event_queue s' = event_queue s
  /\ (forall (i : nat) x,
        xs !! i = Some x ->
        pin_configs s' !! (a + Z.of_nat i)
        = if acknowledged x then Some (output_config (a + Z.of_nat i))
          else pin_configs s !! (a + Z.of_nat i))
  /\ (forall pin,
        pin < a \/ a + Z.of_nat n <= pin ->
        pin_configs s' !! pin = pin_configs s !! pin).
Proof.
  induction n as [| n IH]; intros a xs rest s Hc Hs Hlen.
  - destruct xs; [| discriminate]. cbn. rewrite app_nil_r.
    repeat split; easy.
  - destruct xs as [| x xs]; [discriminate |].
    rewrite seqZ_cons by lia.
    replace (Z.pred (Z.of_nat (S n))) with (Z.of_nat n) by lia.
    cbn [fold_left map on_wire_all].
    pose proof (configure_pin_connected a "OUTPUT" 50 true x (xs ++ rest) s
                  Hc Hs) as H1.
    destruct (configure_pin a "OUTPUT" 50 true s) as [ok s1].
    destruct H1 as (_ & Hc1 & Hs1 & Hw1 & Hq1 & Hp1). cbn [snd].
    injection Hlen as Hlen.
    destruct (IH (Z.succ a) xs rest s1 Hc1 Hs1 Hlen)
      as (Hc' & Hs' & Hw' & Hq' & Hin & Hout).
    cbn zeta in *.
    split; [exact Hc' |]. split; [exact Hs' |].
    split; [rewrite Hw', Hw1, <- app_assoc; reflexivity |].
    split; [congruence |]. split.
    + intros [| i] y Hi.
      * cbn in Hi. injection Hi as <-.
        rewrite Z.add_0_r, Hout, Hp1 by lia.
        destruct (acknowledged x); [apply lookup_insert_eq | reflexivity].
      * cbn in Hi.
        replace (a + Z.of_nat (S i)) with (Z.succ a + Z.of_nat i) by lia.
        rewrite (Hin i y Hi), Hp1.
        destruct (acknowledged y); [reflexivity |].
        destruct (acknowledged x); [| reflexivity].
        apply lookup_insert_ne. lia.
    + intros pin Hpin. rewrite Hout, Hp1 by lia.
      destruct (acknowledged x); [| reflexivity].
      apply lookup_insert_ne. lia.
Qed.

(** X10.  [connect_hardware], the device having an exchange ready for the
    probe and for twelve more commands: the result is that of the probe.  On
    success it queues one [CONNECTION_ESTABLISHED] event with port and baud
    rate, then sends [PIN_MODE:<pin>:OUTPUT] for the pins 2 to 13 in order,
    one exchange each; a pin among them gets the default output
    configuration exactly when its command is acknowledged with [OK] and
    keeps what it had otherwise; pins outside 2..13 are untouched.  On
    failure it queues one [HARDWARE_ERROR] event, sends no pin command and
    leaves the pin table and the monitor as they were. *)
Theorem connect_hardware_outcome (port : string) (baudrate : Z)
    (x0 : exchange) (xs rest : list exchange) (s : System) :
  script (dev s) = x0 :: xs ++ rest ->
  length xs = 12%nat ->
  let '(ok, s') := connect_hardware port baudrate None s in
  ok = probe_ok x0
  /\ is_connected s' = ok
  /\ if ok
     then
       event_queue s'
       = event_queue s
         ++ [{| event_type := CONNECTION_ESTABLISHED;
                timestamp := exchange_time x0;
                data := [("port", VStr port); ("baudrate", VInt baudrate)];
                source := "hardware" |}]
       /\ script (dev s') = rest
       /\ wire (dev s')
          = wire (dev s) ++ ["GET_STATUS" +:+ newline]
            ++ on_wire_all xs
                 (map (fun pin => pin_mode_command pin "OUTPUT") (seqZ 2 12))
       /\ (forall (i : nat) x,
             xs !! i = Some x ->
             pin_configs s' !! (2 + Z.of_nat i)
             = if acknowledged x then Some (output_config (2 + Z.of_nat i))
               else pin_configs s !! (2 + Z.of_nat i))
       /\ (forall pin,
             pin < 2 \/ 14 <= pin ->
             pin_configs s' !! pin = pin_configs s !! pin)
     else
       event_queue s'
       = event_queue s
         ++ [{| event_type := HARDWARE_ERROR;
                timestamp := exchange_time x0;
                data := [("error", VStr "Connection failed");
                         ("port", VStr port)];
                source := "hardware" |}]
       /\ pin_configs s' = pin_configs s
       /\ script (dev s') = xs ++ rest
       /\ monitor s' = monitor s.
Proof.
  intros Hs Hlen. unfold connect_hardware, connect, next_exchange.
  rewrite Hs.
  destruct x0 as [line t | msg t | msg t]; cbn [probe_ok exchange_time];
    [destruct (startswith "STATUS:" (strip line)) eqn:Hprobe | |];
    try (cbn; repeat split; reflexivity).
  set (s1 := emit _ _).
  assert (Hc1 : is_connected s1 = true) by reflexivity.
  assert (Hs1 : script (dev s1) = xs ++ rest) by reflexivity.
  destruct (configure_range 12 2 xs rest s1 Hc1 Hs1 Hlen)
    as (Hc' & Hs' & Hw' & Hq' & Hin & Hout).
  unfold _initialize_default_pins.
  change (Z.of_nat 12) with 12 in *. cbn zeta in *.
  split; [reflexivity |]. split; [exact Hc' |].
  split; [rewrite Hq'; reflexivity |].
  split; [exact Hs' |].
  split; [rewrite Hw'; subst s1; cbn; now rewrite <- app_assoc |].
  split; [exact Hin | exact Hout].
Qed.

Lemma connect_hardware_outcome_witness :
  let s :=
    System_init
      {| script := Reply "STATUS:READY" f0_1
                   :: replicate 12 (Reply "OK" f0_1) ++ [];
         wire := [];
         clock := f0_0 |} in
  let '(ok, s') := connect_hardware "COM3" 115200 None s in
  ok = true /\ is_connected s' = true.
Proof.
  intros s.
  pose proof (connect_hardware_outcome "COM3" 115200
                (Reply "STATUS:READY" f0_1) (replicate 12 (Reply "OK" f0_1))
                [] s eq_refl eq_refl) as H.
  destruct (connect_hardware "COM3" 115200 None s) as [ok s'].
  destruct H as (H1 & H2 & _). split; [exact H1 | now rewrite H2, H1].
Defined.

End ConnectHardware.

(** ** Automation engine: starting and stopping a run *)

Section StartStop.
Import Py Link Backend Runs Calls.

(** X11.  [stop_sequence] returns [True] exactly when the sequence is active;
    afterwards it is not active and the other active sequences are the same;
    a successful stop queues one [SEQUENCE_COMPLETED] event marked
    [stopped], a failed one changes nothing; stopping again returns
    [False]. *)
Theorem stop_sequence_outcome (name : string) (e : Engine) :
  let '(ok, e') := stop_sequence name e in
  (ok = true <-> name ∈ active_sequences e)
  /\ (name ∉ active_sequences e')
  /\ (forall other, other <> name ->
        (other ∈ active_sequences e' <-> other ∈ active_sequences e))
  /\ (if ok
      then event_queue (system e')
           = event_queue (system e)
             ++ [sequence_stopped (clock (dev (system e))) name]
      else e' = e)
  /\ stop_sequence name e' = (false, e').
Proof.
  unfold stop_sequence. destruct (decide (name ∈ active_sequences e)) as [Hin | Hout].
  - cbn [active_sequences system].
    destruct (decide (name ∈ active_sequences e ∖ {[name]}));
      [set_solver |].
    repeat split; try easy; set_solver.
  - destruct (decide (name ∈ active_sequences e)); [contradiction |].
    repeat split; easy.
Qed.

(** X12.  [start_sequence] returns [True] exactly when the sequence exists
    and is enabled, and it starts a run, of that sequence, exactly then; a
    refused start changes nothing.  The run is started in a state where the
    sequence is active with [current_step] back at 0 and its steps
    unchanged, where the other sequences and the other active names are as
    they were, and where a [SEQUENCE_COMPLETED] event marked [stopped] has
    been queued exactly when the sequence was already active. *)
Theorem start_sequence_outcome (name : string) (e : Engine) :
  let '(ok, e', run) := start_sequence name e in
  (ok = true <-> exists sequence,
                   sequences (system e) !! name = Some sequence
                   /\ enabled sequence = true)
  /\ run = (if ok then Some name else None)
  /\ if ok
     then name ∈ active_sequences e'
          /\ (forall other, other <> name ->
                (other ∈ active_sequences e' <-> other ∈ active_sequences e)
                /\ sequences (system e') !! other
                   = sequences (system e) !! other)
          /\ (current_step <$> sequences (system e') !! name) = Some 0
          /\ (steps <$> sequences (system e') !! name)
             = (steps <$> sequences (system e) !! name)
          /\ event_queue (system e')
             = event_queue (system e)
               ++ (if decide (name ∈ active_sequences e)
                   then [sequence_stopped (clock (dev (system e))) name]
                   else [])
     else e' = e.
Proof.
  unfold start_sequence.
  destruct (sequences (system e) !! name) as [sequence |] eqn:Hseq.
  2: { split; [| split; reflexivity]. split; [discriminate |].
       now intros (sequence & [=] & _). }
  destruct (enabled sequence) eqn:Hen; cbn [negb].
  2: { split; [| split; reflexivity]. split; [discriminate |].
       intros (sequence' & [= <-] & H). congruence. }
  split; [split; eauto |]. split; [reflexivity |].
  unfold stop_sequence.
  destruct (decide (name ∈ active_sequences e)) as [Hin | Hout];
    cbn [snd system active_sequences sequences set_sequences emit
         set_event_queue event_queue dev];
    rewrite ?lookup_insert_eq, ?app_nil_r; cbn [fmap option_fmap option_map].
  - split; [set_solver |]. split; [| repeat split].
    intros other Hne. split; [set_solver |].
    apply lookup_insert_ne. congruence.
  - split; [set_solver |]. split; [| repeat split].
    intros other Hne. split; [set_solver |].
    apply lookup_insert_ne. congruence.
Qed.

(** X13.  A sequence that was just created can always be started:
    [create_sequence] followed by [start_sequence] of the same name returns
    [True] and starts a run of it, in a state where the sequence is active
    and stored with the given steps, loop flag and interval, enabled, at
    step 0 and stamped with the start time. *)
Theorem create_then_start (name : string) (sequence_steps : list pydict)
    (looping : bool) (pause : float) (e : Engine) :
  let s1 := snd (create_sequence name sequence_steps looping pause (system e)) in
  let e1 := {| system := s1; active_sequences := active_sequences e |} in
  let '(ok, e2, run) := start_sequence name e1 in
  ok = true
  /\ run = Some name
  /\ name ∈ active_sequences e2
  /\ sequences (system e2) !! name
     = Some {| seq_name := name; steps := sequence_steps; loop := looping;
               interval := pause; enabled := true; current_step := 0;
               start_time := Some (clock (dev (system e))) |}.
Proof.
  cbn zeta. unfold start_sequence, stop_sequence.
  cbn [system create_sequence snd sequences set_sequences emit
       set_event_queue active_sequences].
  rewrite lookup_insert_eq. cbn [enabled negb].
  destruct (decide (name ∈ active_sequences e));
    cbn [fst snd system active_sequences sequences set_sequences emit
         set_event_queue dev];
    rewrite ?lookup_insert_eq;
    (split; [reflexivity |]); (split; [reflexivity |]);
    (split; [set_solver |]); reflexivity.
Qed.

End StartStop.

(** ** Event manager: subscriptions and delivery *)

Section EventDelivery.
Import Py Link Backend Runs Calls Events.

Lemma dict_get_set (key : EventType) (v : list nat)
    (d : list (EventType * list nat)) :
  dict_get key (dict_set key v d) = Some v.
Proof.
  induction d as [| [k w] d IH]; cbn.
  - now destruct (decide (key = key)).
  - destruct (decide (k = key)) as [-> | Hne]; cbn.
    + now destruct (decide (key = key)).
    + now destruct (decide (k = key)).
Qed.

Lemma dict_get_set_ne (key other : EventType) (v : list nat)
    (d : list (EventType * list nat)) :
  other <> key -> dict_get other (dict_set key v d) = dict_get other d.
Proof.
  intros Hne. induction d as [| [k w] d IH]; cbn.
  - destruct (decide (key = other)); [congruence | reflexivity].
  - destruct (decide (k = key)) as [-> | Hk]; cbn.
    + destruct (decide (key = other)); [congruence | reflexivity].
    + destruct (decide (k = other)); [reflexivity | exact IH].
Qed.

Lemma list_remove_absent (x : nat) (l : list nat) :
  x ∉ l -> list_remove x l = None.
Proof.
  induction l as [| y l IH]; [reflexivity |]. intros Hx.
  apply not_elem_of_cons in Hx as [Hne Hx]. cbn.
  destruct (decide (y = x)); [congruence |]. now rewrite IH.
Qed.

Lemma list_remove_snoc (x : nat) (l : list nat) :
  x ∉ l -> list_remove x (l ++ [x]) = Some l.
Proof.
  induction l as [| y l IH]; intros Hx; cbn.
  - now destruct (decide (x = x)).
  - apply not_elem_of_cons in Hx as [Hne Hx].
    destruct (decide (y = x)); [congruence |]. now rewrite IH.
Qed.

(** X14.  [subscribe] appends the callback to the listeners of its event type
    and [unsubscribe] removes its first occurrence there; neither touches the
    listeners of another event type.  Unsubscribing a callback that is not
    subscribed changes nothing; for such a callback, subscribing and then
    unsubscribing restores the listeners, and after two subscriptions one
    [unsubscribe] leaves it subscribed once. *)
Theorem subscribe_then_unsubscribe (t : EventType) (callback : nat)
    (m : EventManager) :
  listeners_of t (subscribe t callback m) = listeners_of t m ++ [callback]
  /\ (forall other, other <> t ->
        listeners_of other (subscribe t callback m) = listeners_of other m
        /\ listeners_of other (unsubscribe t callback m)
           = listeners_of other m)
  /\ listeners_of t (unsubscribe t callback m)
     = default (listeners_of t m) (list_remove callback (listeners_of t m))
  /\ (callback ∉ listeners_of t m ->
      unsubscribe t callback m = m
      /\ listeners_of t (unsubscribe t callback (subscribe t callback m))
         = listeners_of t m
      /\ listeners_of t
           (unsubscribe t callback
              (subscribe t callback (subscribe t callback m)))
         = listeners_of t m ++ [callback]).
Proof.
  assert (Hsub : forall m0, listeners_of t (subscribe t callback m0)
                            = listeners_of t m0 ++ [callback])
    by (intros m0; unfold listeners_of, subscribe; cbn;
        now rewrite dict_get_set).
  assert (Hun : forall m0,
            listeners_of t (unsubscribe t callback m0)
            = default (listeners_of t m0)
                (list_remove callback (listeners_of t m0))).
  { intros m0. unfold listeners_of, unsubscribe.
    destruct (dict_get t (listeners m0)) as [l |] eqn:Hl; cbn [default].
    - destruct (list_remove callback l) as [l' |] eqn:Hr; cbn.
      + now rewrite dict_get_set, ?Hr.
      + now rewrite Hl, ?Hr.
    - now rewrite Hl. }
  split; [apply Hsub |]. split; [| split; [apply Hun |]].
  - intros other Hne. split.
    + unfold listeners_of, subscribe. cbn. now rewrite dict_get_set_ne.
    + unfold listeners_of, unsubscribe.
      destruct (dict_get t (listeners m)) as [l |]; [| reflexivity].
      destruct (list_remove callback l); [| reflexivity].
      cbn. now rewrite dict_get_set_ne.
  - intros Hfresh. split; [| split].
    + unfold unsubscribe. unfold listeners_of in Hfresh.
      destruct (dict_get t (listeners m)) as [l |]; [| reflexivity].
      cbn in Hfresh. now rewrite (list_remove_absent _ _ Hfresh).
    + rewrite Hun, Hsub. now rewrite (list_remove_snoc _ _ Hfresh).
    + rewrite Hun, !Hsub.
      replace ((listeners_of t m ++ [callback]) ++ [callback])
        with (listeners_of t m ++ [callback; callback])
        by now rewrite <- app_assoc.
      assert (Hgo : forall l, callback ∉ l ->
                list_remove callback (l ++ [callback; callback])
                = Some (l ++ [callback])).
      { induction l as [| y l IH]; intros Hx; cbn.
        - now destruct (decide (callback = callback)).
        - apply not_elem_of_cons in Hx as [Hne Hx].
          destruct (decide (y = callback)); [congruence |].
          now rewrite IH. }
      now rewrite (Hgo _ Hfresh).
Qed.

Lemma subscribe_then_unsubscribe_witness :
  let m := subscribe CONNECTION_LOST 2 (start EventManager_init) in
  unsubscribe CONNECTION_LOST 1 m = m
  /\ listeners_of CONNECTION_LOST
       (unsubscribe CONNECTION_LOST 1 (subscribe CONNECTION_LOST 1 m))
     = [2%nat]
  /\ listeners_of CONNECTION_LOST
       (unsubscribe CONNECTION_LOST 1
          (subscribe CONNECTION_LOST 1 (subscribe CONNECTION_LOST 1 m)))
     = [2%nat; 1%nat].
Proof.
  intros m.
  apply (proj2 (proj2 (proj2
           (subscribe_then_unsubscribe CONNECTION_LOST 1 m)))).
  change (1%nat ∉ [2%nat]).
  apply not_elem_of_cons. split; [lia | apply not_elem_of_nil].
Defined.

Lemma process_one_listeners (m : EventManager) :
  listeners (process_one m) = listeners m
  /\ running (process_one m) = running m.
Proof. unfold process_one. now destruct (event_queue m). Qed.

Lemma _process_events_queue (queue : list HardwareEvent) :
  forall (m : EventManager) (extra : nat),
  running m = true ->
  event_queue m = queue ->
  let m' := _process_events (length queue + extra) m in
  event_queue m' = []
  /\ delivered m' = delivered m ++ deliveries m queue
  /\ listeners m' = listeners m
  /\ running m' = true.
Proof.
  induction queue as [| event queue IH]; intros m extra Hrun Hq; cbn zeta.
  - cbn [length Nat.add deliveries flat_map]. rewrite app_nil_r.
    revert m Hrun Hq. induction extra as [| extra IHx]; intros m Hrun Hq;
      [easy |].
    cbn [_process_events]. rewrite Hrun.
    replace (process_one m) with m by (unfold process_one; now rewrite Hq).
    now apply IHx.
  - cbn [length Nat.add _process_events]. rewrite Hrun.
    destruct (process_one_listeners m) as [Hl Hr].
    assert (Hq1 : event_queue (process_one m) = queue)
      by (unfold process_one; now rewrite Hq).
    destruct (IH (process_one m) extra) as (H1 & H2 & H3 & H4);
      [congruence | exact Hq1 |].
    cbn zeta in *. split; [exact H1 |]. split; [| split; congruence].
    rewrite H2. unfold process_one at 1. rewrite Hq.
    cbn [delivered deliveries flat_map]. rewrite <- app_assoc.
    f_equal. f_equal. unfold deliveries, listeners_of. now rewrite Hl.
Qed.

(** X15.  A running event manager that gets at least as many turns of its
    loop as there are queued events empties the queue and delivers every
    event to the listeners of its type and to no others, the events in the
    order they were emitted and the listeners in the order they subscribed;
    the listeners are unchanged.  A stopped manager delivers nothing, however
    many turns it gets. *)
Theorem events_delivered_in_order (m : EventManager) (extra : nat) :
  running m = true ->
  let m' := _process_events (length (event_queue m) + extra) m in
  event_queue m' = []
  /\ delivered m' = delivered m ++ deliveries m (event_queue m)
  /\ listeners m' = listeners m
  /\ (forall turns, _process_events turns (stop m) = stop m).
Proof.
  intros Hrun.
  destruct (_process_events_queue (event_queue m) m extra Hrun eq_refl)
    as (H1 & H2 & H3 & _).
  cbn zeta in *. repeat split; try assumption.
  intros [| turns]; reflexivity.
Qed.

Lemma events_delivered_in_order_witness :
  let m :=
    emit (event_of CONNECTION_LOST)
      (emit (event_of PIN_STATE_CHANGED)
         (emit (event_of CONNECTION_LOST)
            (subscribe PIN_STATE_CHANGED 3
               (subscribe CONNECTION_LOST 2
                  (subscribe CONNECTION_LOST 1 (start EventManager_init)))))) in
  running m = true
  /\ delivered (_process_events 5 m)
     = [(1%nat, event_of CONNECTION_LOST); (2%nat, event_of CONNECTION_LOST);
        (3%nat, event_of PIN_STATE_CHANGED);
        (1%nat, event_of CONNECTION_LOST); (2%nat, event_of CONNECTION_LOST)].
Proof.
  intros m. split; [reflexivity |].
  exact (proj1 (proj2 (events_delivered_in_order m 2 eq_refl))).
Defined.

End EventDelivery.

(** ** Binary64: integers that do not round to zero *)

Section FloatNonzero.
Import Py Runs.

Lemma Zdigits2_mono (a b : Z) : 0 < a <= b -> Zdigits2 a <= Zdigits2 b.
Proof.
  intros [Ha Hab]. destruct a as [| p | p]; try lia.
  destruct b as [| q | q]; try lia.
  rewrite !Zdigits2_log2. pose proof (Z.log2_le_mono (Zpos p) (Zpos q)). lia.
Qed.

Lemma shiftr_digits (m n : Z) :
  0 < m -> 0 <= n -> n < Zdigits2 m ->
  0 < Z.shiftr m n /\ Zdigits2 (Z.shiftr m n) = Zdigits2 m - n.
Proof.
  intros Hm Hn Hlt. destruct m as [| p | p]; try lia.
  rewrite Zdigits2_log2 in Hlt |- *.
  assert (Hpos : 0 < Z.shiftr (Zpos p) n).
  { rewrite Z.shiftr_div_pow2 by lia.
    assert (0 < 2 ^ n) by (apply Z.pow_pos_nonneg; lia).
    apply Z.div_str_pos. split; [lia |].
    apply Z.le_trans with (2 ^ Z.log2 (Zpos p)).
    - apply Z.pow_le_mono_r; lia.
    - apply (Z.log2_spec (Zpos p)). lia. }
  split; [exact Hpos |].
  destruct (Z.shiftr (Zpos p) n) as [| q | q] eqn:Hq; try lia.
  rewrite Zdigits2_log2, <- Hq, Z.log2_shiftr by lia. lia.
Qed.

Lemma shr_fexp_pos (m e : Z) (l : location) :
  0 < m -> -1074 < Zdigits2 m + e ->
  let '(mrs', e') := shr_fexp prec emax m e l in
  0 < shr_m mrs' /\ -1074 < Zdigits2 (shr_m mrs') + e'.
Proof.
  intros Hm Hd. unfold shr_fexp, shr. rewrite fexp_eq.
  destruct (Z.max (Zdigits2 m + e - 53) (-1074) - e) as [| n | n] eqn:Hn;
    rewrite ?shr_record_of_loc_m; try easy.
  rewrite iter_shr_1_m, shr_record_of_loc_m
    by (rewrite shr_record_of_loc_m; lia).
  destruct (shiftr_digits m (Zpos n)) as [H0 Hdig]; try lia.
Qed.

Lemma binary_round_aux_nonzero (s : bool) (m e : Z) (l : location) :
  0 < m -> -1074 < Zdigits2 m + e ->
  SFeqb (binary_round_aux prec emax s m e l) f0_0 = false.
Proof.
  intros Hm Hd. unfold binary_round_aux.
  pose proof (shr_fexp_pos m e l Hm Hd) as H1.
  destruct (shr_fexp prec emax m e l) as [mrs' e'].
  destruct H1 as [Hm' Hd'].
  set (m2 := round_nearest_even (shr_m mrs') (loc_of_shr_record mrs')).
  assert (Hm2 : shr_m mrs' <= m2).
  { unfold m2. destruct (loc_of_shr_record mrs') as [| []];
      cbn [round_nearest_even]; try destruct (Z.even _); lia. }
  pose proof (Zdigits2_mono (shr_m mrs') m2 ltac:(lia)) as Hmono.
  pose proof (shr_fexp_pos m2 e' loc_Exact ltac:(lia) ltac:(lia)) as H2.
  destruct (shr_fexp prec emax m2 e' loc_Exact) as [mrs'' e''].
  destruct H2 as [Hm'' _].
  destruct (shr_m mrs'') as [| p | p]; [lia | | reflexivity].
  destruct (e'' <=? emax - prec); now destruct s.
Qed.

Lemma of_Z_nonzero (n : Z) : 0 < n -> SFeqb (of_Z n) f0_0 = false.
Proof.
  intros Hn. destruct n as [| p | p]; try lia.
  unfold of_Z, binary_normalize, binary_round, shl_align.
  change (Zpos (digits2_pos p)) with (Zdigits2 (Zpos p)).
  pose proof (Zdigits2_log2 p) as Hlog.
  pose proof (Z.log2_nonneg (Zpos p)) as Hnn.
  rewrite fexp_eq.
  destruct (Z.max (Zdigits2 (Zpos p) + 0 - 53) (-1074) - 0) as [| d | d]
    eqn:Hd; try (apply binary_round_aux_nonzero; lia).
  apply binary_round_aux_nonzero; [lia |].
  rewrite iter_xO_shiftl.
  assert (Hge : Zdigits2 (Zpos p) <= Zdigits2 (Zpos p * 2 ^ Zpos d)).
  { apply Zdigits2_mono. assert (0 < 2 ^ Zpos d)
      by (apply Z.pow_pos_nonneg; lia). nia. }
  lia.
Qed.

Lemma float_of_int_nonzero (n : Z) :
  0 < n < 2 ^ 1000 ->
  exists b, float_of_int n = Some b /\ SFeqb b f0_0 = false.
Proof.
  intros [Hn Hlt].
  destruct (float_of_int_bounded 1000 n ltac:(lia) ltac:(lia))
    as (b & Hb & _).
  exists b. split; [exact Hb |].
  pose proof (of_Z_nonzero n Hn) as Hz. unfold float_of_int in Hb.
  destruct (of_Z n); congruence.
Qed.

End FloatNonzero.

(** ** Robotic arm: what every run keeps *)

Section ArmInvariants.
Import Py Link RoboticArm ArmRuns ArmCalls.

Lemma same_store_refl (s : RoboticArmBackend) : same_store s s.
Proof. now repeat split. Qed.

Lemma same_store_trans (s1 s2 s3 : RoboticArmBackend) :
  same_store s1 s2 -> same_store s2 s3 -> same_store s1 s3.
Proof.
  intros (A1 & A2 & A3 & A4 & A5 & A6 & A7) (B1 & B2 & B3 & B4 & B5 & B6 & B7).
  repeat split; congruence.
Qed.

Lemma arm_send_command_same_store (command : string) (s : RoboticArmBackend) :
  same_store s (snd (send_command command s)).
Proof.
  unfold send_command.
  destruct (negb (is_connected s) || _); [apply same_store_refl |].
  destruct (next_exchange (dev s)) as [[line t | msg t | msg t] rest];
    try destruct (running_average _ _ _); now repeat split.
Qed.

Lemma arm_send_command_counts (command : string) (s : RoboticArmBackend) :
  let pm := performance_metrics s in
  let pm' := performance_metrics (snd (send_command command s)) in
  total_commands pm = successful_commands pm + error_count pm ->
  0 <= successful_commands pm -> 0 <= error_count pm ->
  total_commands pm' = successful_commands pm' + error_count pm'
  /\ 0 <= successful_commands pm' /\ 0 <= error_count pm'.
Proof.
  cbv zeta. intros Hb Hs He. unfold send_command.
  destruct (negb (is_connected s) || _); [easy |].
  destruct (next_exchange (dev s)) as [[line t | msg t | msg t] rest];
    try destruct (running_average _ _ _); cbn; lia.
Qed.

Lemma send_positions_from_same_store (f : float -> string)
    (positions : list float) :
  forall i s, same_store s (snd (send_positions_from f i positions s)).
Proof.
  induction positions as [| pos rest IH]; intros i s;
    cbn [send_positions_from]; [apply same_store_refl |].
  pose proof (arm_send_command_same_store
                (pretty (i + 1) +:+ " " +:+ f pos) s) as H1.
  destruct (send_command _ s) as [response s1]. cbn [snd] in H1.
  destruct (String.eqb response "" || startswith "Error" response);
    [exact H1 |].
  exact (same_store_trans _ _ _ H1 (IH (i + 1) s1)).
Qed.

Lemma send_positions_from_counts (f : float -> string)
    (positions : list float) :
  forall i s,
    let pm := performance_metrics s in
    let pm' := performance_metrics (snd (send_positions_from f i positions s)) in
    total_commands pm = successful_commands pm + error_count pm ->
    0 <= successful_commands pm -> 0 <= error_count pm ->
    total_commands pm' = successful_commands pm' + error_count pm'
    /\ 0 <= successful_commands pm' /\ 0 <= error_count pm'.
Proof.
  induction positions as [| pos rest IH]; intros i s; cbv zeta;
    intros Hb Hs He; cbn [send_positions_from]; [easy |].
  pose proof (arm_send_command_counts
                (pretty (i + 1) +:+ " " +:+ f pos) s Hb Hs He) as H1.
  destruct (send_command _ s) as [response s1]. cbn [snd] in H1.
  destruct (String.eqb response "" || startswith "Error" response);
    [exact H1 |].
  destruct H1 as (H1 & H2 & H3). exact (IH (i + 1) s1 H1 H2 H3).
Qed.

Lemma read_all_positions_same_store (s : RoboticArmBackend) :
  same_store s (snd (read_all_positions s))
  /\ performance_metrics (snd (read_all_positions s))
     = performance_metrics (snd (send_command "readall" s))
     \/ snd (read_all_positions s) = s.
Proof.
  unfold read_all_positions.
  destruct (negb (is_connected s)); [now right |]. left.
  pose proof (arm_send_command_same_store "readall" s) as H1.
  destruct (send_command "readall" s) as [response s1]. cbn [snd] in H1 |- *.
  destruct (negb (String.eqb response "") && isdigit response);
    [| easy].
  destruct (mapM float_of_str _) as [[| p ps] |]; easy.
Qed.

Lemma tasks_keyed_insert (key : string) (task : TaskSequence)
    (s : RoboticArmBackend) :
  name task = key -> tasks_keyed s ->
  tasks_keyed (set_tasks (<[key := task]> (tasks s)) s).
Proof.
  intros Hname Hk k t. cbn.
  destruct (decide (key = k)) as [<- | Hne].
  - rewrite lookup_insert_eq. congruence.
  - rewrite lookup_insert_ne by easy. apply Hk.
Qed.

Lemma apply_arm_call_invariant (c : arm_call) (s : RoboticArmBackend) :
  arm_invariant s -> arm_invariant (apply_arm_call s c).
Proof.
  intros (Hb & Hs & He & Hk & Hp).
  destruct c as [port baudrate unavailable | | command | f positions | |
                 callback | callback | name description | name |
                 task_name positions delay_ms trajectory_type motion_profile |
                 task_name filename written | filename];
    cbn [apply_arm_call].
  - unfold connect_serial. destruct unavailable; [easy |].
    destruct (next_exchange (dev s)) as [[line t | msg t | msg t] rest];
      try destruct (startswith _ _); cbn [snd];
      (repeat split; try easy; right; cbn; eauto).
  - repeat split; try easy. now left.
  - pose proof (arm_send_command_same_store command s)
      as (_ & _ & A3 & A4 & A5 & _).
    pose proof (arm_send_command_counts command s Hb Hs He) as (B1 & B2 & B3).
    repeat split; try easy.
    + intros k t. rewrite A5. apply Hk.
    + now rewrite A3, A4.
  - unfold send_positions. destruct (negb (is_connected s)); [easy |].
    pose proof (send_positions_from_same_store f positions 0 s)
      as (_ & _ & A3 & A4 & A5 & _).
    pose proof (send_positions_from_counts f positions 0 s Hb Hs He)
      as (B1 & B2 & B3).
    repeat split; try easy.
    + intros k t. rewrite A5. apply Hk.
    + now rewrite A3, A4.
  - destruct (read_all_positions_same_store s) as [[Hsame Hpm] | ->];
      [| easy].
    destruct Hsame as (_ & _ & A3 & A4 & A5 & _).
    pose proof (arm_send_command_counts "readall" s Hb Hs He)
      as (B1 & B2 & B3).
    unfold arm_invariant, metrics_balanced. rewrite Hpm.
    repeat split; try easy.
    + intros k t. rewrite A5. apply Hk.
    + now rewrite A3, A4.
  - easy.
  - easy.
  - unfold create_task. destruct (max_tasks s <=? _); [easy |].
    destruct (tasks s !! name); [easy |]. cbn [snd].
    repeat split; try easy. now apply tasks_keyed_insert.
  - unfold delete_task. destruct (tasks s !! name) as [old |]; [| easy].
    cbn [snd]. repeat split; try easy. intros k t. cbn.
    intros Hin. apply lookup_delete_Some in Hin as [_ Hin]. now apply Hk.
  - unfold add_waypoint_to_task.
    destruct (tasks s !! task_name) as [task |] eqn:Hin; [| easy].
    destruct (max_waypoints s <=? _); [easy |]. cbn [snd].
    repeat split; try easy. apply tasks_keyed_insert; [| easy].
    cbn. now apply Hk.
  - unfold save_task. destruct (tasks s !! task_name); [destruct written |];
      easy.
  - unfold load_task. destruct (_ ≫= _) as [task |]; [| easy]. cbn [snd].
    repeat split; try easy. now apply tasks_keyed_insert.
Qed.

Lemma run_arm_calls_invariant (calls : list arm_call) :
  forall s, arm_invariant s -> arm_invariant (run_arm_calls calls s).
Proof.
  induction calls as [| c calls IH]; intros s Hs; [exact Hs |].
  apply IH. now apply apply_arm_call_invariant.
Qed.

Lemma apply_arm_call_limits (c : arm_call) (s : RoboticArmBackend) :
  max_waypoints (apply_arm_call s c) = max_waypoints s
  /\ max_tasks (apply_arm_call s c) = max_tasks s.
Proof.
  destruct c as [port baudrate unavailable | | command | f positions | |
                 callback | callback | name description | name |
                 task_name positions delay_ms trajectory_type motion_profile |
                 task_name filename written | filename];
    cbn [apply_arm_call]; try easy.
  - unfold connect_serial. destruct unavailable; [easy |].
    destruct (next_exchange (dev s)) as [[line t | msg t | msg t] rest];
      try destruct (startswith _ _); easy.
  - now destruct (arm_send_command_same_store command s) as (A1 & A2 & _).
  - unfold send_positions. destruct (negb (is_connected s)); [easy |].
    now destruct (send_positions_from_same_store f positions 0 s)
      as (A1 & A2 & _).
  - destruct (read_all_positions_same_store s) as [[Hsame _] | ->];
      [| easy].
    now destruct Hsame as (A1 & A2 & _).
  - unfold create_task. destruct (max_tasks s <=? _); [easy |].
    now destruct (tasks s !! name).
  - unfold delete_task. now destruct (tasks s !! name).
  - unfold add_waypoint_to_task.
    destruct (tasks s !! task_name) as [task |]; [| easy].
    now destruct (max_waypoints s <=? _).
  - unfold save_task. destruct (tasks s !! task_name); [destruct written |];
      easy.
  - unfold load_task. now destruct (_ ≫= _).
Qed.

Lemma run_arm_calls_limits (calls : list arm_call) :
  forall s,
    max_waypoints (run_arm_calls calls s) = max_waypoints s
    /\ max_tasks (run_arm_calls calls s) = max_tasks s.
Proof.
  induction calls as [| c calls IH]; intros s; [easy |].
  cbn [run_arm_calls fold_left].
  destruct (IH (apply_arm_call s c)) as [H1 H2].
  destruct (apply_arm_call_limits c s) as [H3 H4].
  unfold run_arm_calls in *. split; congruence.
Qed.

(** X16.  After any sequence of calls on a freshly constructed robotic arm
    backend, over any device and any files:
    [total_commands == successful_commands + error_count] with both parts
    non-negative, every task is stored under its own name, a backend that
    says it is connected has a serial port object, and the two limits are the
    ones given to the constructor. *)
Theorem arm_run_invariants (max_waypoints max_tasks : Z) (d : Device)
    (fs : gmap string json) (calls : list arm_call) :
  let s :=
    run_arm_calls calls (RoboticArmBackend_init max_waypoints max_tasks d fs) in
  metrics_balanced s
  /\ 0 <= successful_commands (performance_metrics s)
  /\ 0 <= error_count (performance_metrics s)
  /\ tasks_keyed s
  /\ (is_connected s = false \/ is_Some (serial_port s))
  /\ RoboticArm.max_waypoints s = max_waypoints
  /\ RoboticArm.max_tasks s = max_tasks.
Proof.
  cbv zeta.
  pose proof (run_arm_calls_invariant calls
                (RoboticArmBackend_init max_waypoints max_tasks d fs)) as H.
  destruct H as (H1 & H2 & H3 & H4 & H5).
  { split; [reflexivity |]. split; [cbn; lia |]. split; [cbn; lia |].
    split; [| now left]. intros k t Hk. cbn in Hk.
    now rewrite lookup_empty in Hk. }
  destruct (run_arm_calls_limits calls
              (RoboticArmBackend_init max_waypoints max_tasks d fs))
    as [H6 H7].
  repeat split; assumption.
Qed.

Lemma apply_arm_call_within_limits (c : arm_call) (s : RoboticArmBackend) :
  is_load c = false -> 0 <= max_waypoints s ->
  within_limits s -> within_limits (apply_arm_call s c).
Proof.
  intros Hc Hmw [Hsize Hwp].
  assert (Hsame : forall s', same_store s s' -> within_limits s').
  { intros s' (A1 & A2 & _ & _ & A5 & _). unfold within_limits.
    rewrite A1, A2, A5. now split. }
  destruct c as [port baudrate unavailable | | command | f positions | |
                 callback | callback | name description | name |
                 task_name positions delay_ms trajectory_type motion_profile |
                 task_name filename written | filename];
    cbn [apply_arm_call]; try discriminate.
  - unfold connect_serial. destruct unavailable; [easy |].
    destruct (next_exchange (dev s)) as [[line t | msg t | msg t] rest];
      try destruct (startswith _ _); easy.
  - easy.
  - apply Hsame, arm_send_command_same_store.
  - unfold send_positions. destruct (negb (is_connected s)); [easy |].
    apply Hsame, send_positions_from_same_store.
  - destruct (read_all_positions_same_store s) as [[H _] | ->];
      [now apply Hsame | easy].
  - easy.
  - easy.
  - unfold create_task.
    destruct (max_tasks s <=? _) eqn:Hfull; [easy |].
    destruct (tasks s !! name) as [old |] eqn:Hin; [easy |]. cbn [snd].
    apply Z.leb_gt in Hfull. split; cbn.
    + rewrite map_size_insert_None by easy. lia.
    + intros k t Hk. destruct (decide (name = k)) as [<- | Hne].
      * rewrite lookup_insert_eq in Hk. injection Hk as <-. cbn. lia.
      * rewrite lookup_insert_ne in Hk by easy. now apply (Hwp k).
  - unfold delete_task. destruct (tasks s !! name) as [old |] eqn:Hin;
      [| easy].
    cbn [snd]. split; cbn.
    + rewrite map_size_delete_Some by eauto. lia.
    + intros k t Hk. apply lookup_delete_Some in Hk as [_ Hk].
      now apply (Hwp k).
  - unfold add_waypoint_to_task.
    destruct (tasks s !! task_name) as [task |] eqn:Hin; [| easy].
    destruct (max_waypoints s <=? _) eqn:Hfull; [easy |]. cbn [snd].
    apply Z.leb_gt in Hfull. split; cbn.
    + rewrite map_size_insert_Some by eauto. exact Hsize.
    + intros k t Hk. destruct (decide (task_name = k)) as [<- | Hne].
      * rewrite lookup_insert_eq in Hk. injection Hk as <-. cbn.
        rewrite length_app. cbn. lia.
      * rewrite lookup_insert_ne in Hk by easy. now apply (Hwp k).
  - unfold save_task. destruct (tasks s !! task_name); [destruct written |];
      easy.
Qed.

(** X17.  With non-negative limits, no sequence of calls other than
    [load_task] takes the task store past its limits: the table never holds
    more than [max_tasks] tasks and no task more than [max_waypoints]
    waypoints. *)
Theorem limits_hold_without_load (max_waypoints max_tasks : Z) (d : Device)
    (fs : gmap string json) (calls : list arm_call) :
  0 <= max_waypoints -> 0 <= max_tasks ->
  forallb (fun c => negb (is_load c)) calls = true ->
  within_limits
    (run_arm_calls calls (RoboticArmBackend_init max_waypoints max_tasks d fs)).
Proof.
  intros Hmw Hmt Hcalls.
  assert (Hgo : forall s,
            forallb (fun c => negb (is_load c)) calls = true ->
            0 <= RoboticArm.max_waypoints s -> within_limits s ->
            within_limits (run_arm_calls calls s)).
  { clear. induction calls as [| c calls IH]; intros s Hcalls Hmw Hs;
      [exact Hs |].
    cbn [forallb] in Hcalls. apply andb_prop in Hcalls as [Hc Hcalls].
    apply negb_true_iff in Hc.
    apply IH; [exact Hcalls | | now apply apply_arm_call_within_limits].
    now rewrite (proj1 (apply_arm_call_limits c s)). }
  apply Hgo; [exact Hcalls | exact Hmw |].
  split; cbn; [rewrite map_size_empty; lia | intros k t Hk].
  now rewrite lookup_empty in Hk.
Qed.

Lemma limits_hold_without_load_witness :
  within_limits
    (run_arm_calls
       [CreateTask "pick" ""; CreateTask "pick" "again";
        AddWaypoint "pick" [f0_0] 500 SMOOTH NORMAL;
        AddWaypoint "pick" [f0_1] 500 LINEAR FAST;
        CreateTask "place" ""; DeleteTask "pick"; CreateTask "home" ""]
       (RoboticArmBackend_init 1 2
          {| script := []; wire := []; clock := f0_0 |} ∅)).
Proof.
  apply limits_hold_without_load; [lia | lia | reflexivity].
Defined.

End ArmInvariants.

(** ** Robotic arm: the task store *)

Section TaskStore.
Import Py Link RoboticArm ArmRuns ArmCalls.



(** X19.  [delete_task] returns [True] exactly when the name is in the task
    table; afterwards the name is absent, every other task is unchanged, the
    table is smaller by one exactly when the call returned [True], and
    nothing but the task table has changed. *)
Theorem delete_task_outcome (name : string) (s : RoboticArmBackend) :
  let '(deleted, s') := delete_task name s in
  deleted = bool_decide (is_Some (tasks s !! name))
  /\ tasks s' !! name = None
  /\ (forall other, other <> name -> tasks s' !! other = tasks s !! other)
  /\ Z.of_nat (size (tasks s'))
     = Z.of_nat (size (tasks s)) - (if deleted then 1 else 0)
  /\ set_tasks (tasks s) s' = s.
Proof.
  unfold delete_task. destruct (tasks s !! name) as [old |] eqn:Hin.
  - split; [symmetry; apply bool_decide_eq_true; eauto |]. cbn.
    split; [apply lookup_delete_eq |].
    split; [intros other Hne; now apply lookup_delete_ne |].
    split; [| now destruct s].
    rewrite map_size_delete_Some by eauto.
    assert (size (tasks s) <> 0%nat)
      by (apply (map_size_ne_0_lookup_2 (tasks s) name); eauto).
    lia.
  - split; [symmetry; apply bool_decide_eq_false; now intros [? ?] |].
    repeat split; try easy; [lia | now destruct s].
Qed.

(** X20.  Creating a task and deleting it again restores the backend: for a
    new name and a table below [max_tasks], [delete_task] after
    [create_task] returns [True] and gives back the original state;
    [get_task_info] reports nothing before and a task of zero waypoints in
    between. *)
Theorem create_then_delete (name description : string)
    (s : RoboticArmBackend) :
  tasks s !! name = None ->
  Z.of_nat (size (tasks s)) < max_tasks s ->
  delete_task name (snd (create_task name description s)) = (true, s)
  /\ get_task_info name s = None
  /\ (info_waypoint_count
        <$> get_task_info name (snd (create_task name description s)))
     = Some 0.
Proof.
  intros Hnew Hroom. unfold create_task. apply Z.leb_gt in Hroom.
  rewrite Hroom, Hnew. cbn [snd].
  split; [| split].
  - unfold delete_task. cbn [tasks set_tasks]. rewrite lookup_insert_eq.
    f_equal. unfold set_tasks. cbn. rewrite delete_insert_id by exact Hnew.
    now destruct s.
  - unfold get_task_info. now rewrite Hnew.
  - unfold get_task_info. cbn [tasks set_tasks]. now rewrite lookup_insert_eq.
Qed.

Lemma create_then_delete_witness :
  delete_task "7" (snd (create_task "7" "" (arm_connected_to [])))
  = (true, arm_connected_to [])
  /\ get_task_info "7" (arm_connected_to []) = None
  /\ (info_waypoint_count
        <$> get_task_info "7" (snd (create_task "7" "" (arm_connected_to []))))
     = Some 0.
Proof.
  apply (create_then_delete "7" "" (arm_connected_to []));
    [reflexivity | vm_compute; reflexivity].
Defined.


Lemma add_waypoint_step (task_name : string) (a : waypoint_args)
    (task : TaskSequence) (s : RoboticArmBackend) :
  tasks s !! task_name = Some task ->
  snd (add_waypoint_to_task task_name (arg_positions a) (arg_delay_ms a)
         (arg_trajectory_type a) (arg_motion_profile a) s)
  = if max_waypoints s <=? Z.of_nat (length (waypoints task)) then s
    else
      set_tasks
        (<[task_name :=
             {| name := name task;
                description := description task;
                waypoints :=
                  waypoints task
                  ++ [{| positions := arg_positions a;
                         delay_ms := arg_delay_ms a;
                         trajectory_type := arg_trajectory_type a;
                         motion_profile := arg_motion_profile a;
                         timestamp := clock (dev s) |}];
                loop_count := loop_count task;
                created_at := created_at task;
                modified_at := clock (dev s) |}]> (tasks s)) s.
Proof.
  intros Hin. unfold add_waypoint_to_task. rewrite Hin.
  now destruct (max_waypoints s <=? _).
Qed.

(** X21.  Adding waypoints one after the other to an existing task appends
    them in call order until the task holds [max_waypoints], and drops the
    rest: the task's waypoints are the old ones followed by one waypoint per
    accepted call, carrying that call's positions, delay, trajectory type and
    motion profile, for exactly the first [max_waypoints - len] calls; name,
    description, loop count and creation time are kept, the other tasks are
    untouched and [get_task_info] reports the new count. *)
Theorem add_all_keeps_first (task_name : string) (args : list waypoint_args) :
  forall (task : TaskSequence) (s : RoboticArmBackend),
  tasks s !! task_name = Some task ->
  let s' := add_all task_name args s in
  let room :=
    Z.to_nat (max_waypoints s - Z.of_nat (length (waypoints task))) in
  exists task' added,
    tasks s' !! task_name = Some task'
    /\ waypoints task' = waypoints task ++ added
    /\ Forall2 made_from (take room args) added
    /\ name task' = name task
    /\ description task' = description task
    /\ loop_count task' = loop_count task
    /\ created_at task' = created_at task
    /\ (forall other, other <> task_name ->
          tasks s' !! other = tasks s !! other)
    /\ (info_waypoint_count <$> get_task_info task_name s')
       = Some (Z.of_nat (length (waypoints task)
                         + Nat.min room (length args))).
Proof.
  induction args as [| a args IH]; intros task s Hin; cbv zeta.
  - exists task, []. cbn [add_all fold_left]. rewrite take_nil, app_nil_r.
    repeat split; try easy; try (now constructor).
    unfold get_task_info. rewrite Hin. cbn. do 2 f_equal. lia.
  - change (add_all task_name (a :: args) s)
      with (add_all task_name args
              (snd (add_waypoint_to_task task_name (arg_positions a)
                      (arg_delay_ms a) (arg_trajectory_type a)
                      (arg_motion_profile a) s))).
    rewrite (add_waypoint_step task_name a task s Hin).
    destruct (max_waypoints s <=? Z.of_nat (length (waypoints task)))
      eqn:Hfull.
    + apply Z.leb_le in Hfull.
      destruct (IH task s Hin)
        as (task' & added & H1 & H2 & H3 & H4 & H5 & H6 & H7 & H8 & H9).
      cbv zeta in *.
      replace (Z.to_nat (max_waypoints s - Z.of_nat (length (waypoints task))))
        with 0%nat in * by lia.
      exists task', added. rewrite take_0 in *.
      repeat split; try easy.
    + apply Z.leb_gt in Hfull.
      set (wp := {| positions := arg_positions a;
                    delay_ms := arg_delay_ms a;
                    trajectory_type := arg_trajectory_type a;
                    motion_profile := arg_motion_profile a;
                    timestamp := clock (dev s) |}) in *.
      set (task1 := {| name := name task;
                       description := description task;
                       waypoints := waypoints task ++ [wp];
                       loop_count := loop_count task;
                       created_at := created_at task;
                       modified_at := clock (dev s) |}) in *.
      set (s1 := set_tasks (<[task_name := task1]> (tasks s)) s) in *.
      assert (Hin1 : tasks s1 !! task_name = Some task1)
        by apply lookup_insert_eq.
      destruct (IH task1 s1 Hin1)
        as (task' & added & H1 & H2 & H3 & H4 & H5 & H6 & H7 & H8 & H9).
      cbv zeta in *. cbn [waypoints task1] in H2, H3, H9.
      rewrite length_app in H3, H9. cbn [length] in H3, H9.
      replace (max_waypoints s1) with (max_waypoints s) in * by reflexivity.
      set (room := Z.to_nat (max_waypoints s
                             - Z.of_nat (length (waypoints task)))) in *.
      replace (Z.to_nat (max_waypoints s
                         - Z.of_nat (length (waypoints task) + 1)))
        with (Nat.pred room) in * by lia.
      assert (Hroom : room = S (Nat.pred room)) by lia.
      exists task', (wp :: added).
      split; [exact H1 |].
      split; [now rewrite H2, <- app_assoc |].
      split; [rewrite Hroom; cbn [take]; constructor; [now repeat split | exact H3] |].
      repeat split; try easy.
      * intros other Hne. rewrite (H8 other Hne).
        now apply lookup_insert_ne.
      * rewrite H9. do 2 f_equal. rewrite Hroom at 2. cbn [length Nat.min].
        lia.
Qed.

Lemma add_all_keeps_first_witness :
  let s := snd (create_task "pick" "" (RoboticArmBackend_init 2 6
                  {| script := []; wire := []; clock := f0_0 |} ∅)) in
  let args :=
    [{| arg_positions := [f0_0]; arg_delay_ms := 100;
        arg_trajectory_type := SMOOTH; arg_motion_profile := NORMAL |};
     {| arg_positions := [f0_1]; arg_delay_ms := 200;
        arg_trajectory_type := LINEAR; arg_motion_profile := FAST |};
     {| arg_positions := [f0_3]; arg_delay_ms := 300;
        arg_trajectory_type := CPG; arg_motion_profile := SLOW |}] in
  exists task' added,
    tasks (add_all "pick" args s) !! "pick" = Some task'
    /\ waypoints task' = [] ++ added
    /\ Forall2 made_from (take 2 args) added
    /\ (info_waypoint_count <$> get_task_info "pick" (add_all "pick" args s))
       = Some 2.
Proof.
  intros s args.
  destruct (add_all_keeps_first "pick" args
              {| name := "pick"; description := ""; waypoints := [];
                 loop_count := 0; created_at := f0_0; modified_at := f0_0 |}
              s eq_refl)
    as (task' & added & H1 & H2 & H3 & _ & _ & _ & _ & _ & H9).
  exists task', added. repeat split; assumption.
Defined.

(** X22.  [add_position_callback] appends; [remove_position_callback] removes
    the oldest registration only.  For a callback that is not registered,
    removing it changes nothing and adding then removing it restores the
    backend; for one that is registered, removing it shortens the list by
    one, and adding then removing it drops the older registration and keeps
    the new one at the end. *)
Theorem position_callback_registration (callback : nat)
    (s : RoboticArmBackend) :
  position_callbacks (add_position_callback callback s)
  = position_callbacks s ++ [callback]
  /\ position_callbacks
       (remove_position_callback callback (add_position_callback callback s))
     = (if bool_decide (callback ∈ position_callbacks s)
        then remove_first callback (position_callbacks s) ++ [callback]
        else position_callbacks s)
  /\ (if bool_decide (callback ∈ position_callbacks s)
      then length (position_callbacks (remove_position_callback callback s))
           = Nat.pred (length (position_callbacks s))
      else remove_position_callback callback s = s
           /\ remove_position_callback callback
                (add_position_callback callback s) = s).
Proof.
  assert (Hin : forall l, callback ∈ l ->
            remove_first callback (l ++ [callback])
            = remove_first callback l ++ [callback]
            /\ length (remove_first callback l) = Nat.pred (length l)).
  { induction l as [| y l IH]; intros Hl; [now apply elem_of_nil in Hl |].
    cbn. destruct (decide (y = callback)) as [-> | Hne]; [easy |].
    apply elem_of_cons in Hl as [-> | Hl]; [easy |].
    destruct (IH Hl) as [H1 H2]. cbn. rewrite H1, H2. split; [easy |].
    destruct l; [now apply elem_of_nil in Hl | reflexivity]. }
  assert (Hout : forall l, callback ∉ l ->
            remove_first callback (l ++ [callback]) = l
            /\ remove_first callback l = l).
  { induction l as [| y l IH]; intros Hl; cbn.
    - now destruct (decide (callback = callback)).
    - apply not_elem_of_cons in Hl as [Hne Hl].
      destruct (decide (y = callback)); [congruence |].
      destruct (IH Hl) as [H1 H2]. now rewrite H1, H2. }
  split; [reflexivity |]. cbn [position_callbacks remove_position_callback
                                add_position_callback].
  destruct (bool_decide (callback ∈ position_callbacks s)) eqn:Hc.
  - apply bool_decide_eq_true in Hc. destruct (Hin _ Hc) as [H1 H2].
    now split.
  - apply bool_decide_eq_false in Hc. destruct (Hout _ Hc) as [H1 H2].
    split; [exact H1 |]. unfold remove_position_callback, add_position_callback.
    cbn. rewrite H1, H2. now destruct s.
Qed.

(** X23.  [read_all_positions] updates the cached positions and notifies the
    callbacks together or not at all: when it returns an empty list the
    cache and the record of notifications are as before; when it returns
    positions, [get_current_positions] returns them and every registered
    callback has been invoked once with them, in registration order.  Either
    way the connection, the task table, the callbacks and the files are
    untouched. *)
Theorem read_all_positions_updates (s : RoboticArmBackend) :
  let '(positions, s') := read_all_positions s in
  same_store s s'
  /\ match positions with
     | [] =>
         current_positions s' = current_positions s
         /\ notified s' = notified s
     | _ :: _ =>
         get_current_positions s' = positions
         /\ notified s'
            = notified s
              ++ map (fun callback => (callback, positions))
                   (position_callbacks s)
     end.
Proof.
  unfold read_all_positions.
  destruct (negb (is_connected s)); [split; [apply same_store_refl | easy] |].
  pose proof (arm_send_command_same_store "readall" s) as Hsame.
  assert (Hkeep : current_positions (snd (send_command "readall" s))
                  = current_positions s
                  /\ notified (snd (send_command "readall" s)) = notified s).
  { unfold send_command. destruct (negb (is_connected s) || _); [easy |].
    destruct (next_exchange (dev s)) as [[line t | msg t | msg t] rest];
      try destruct (running_average _ _ _); easy. }
  destruct (send_command "readall" s) as [response s1].
  cbn [snd] in Hsame, Hkeep. destruct Hkeep as [Hcur Hlog].
  destruct (negb (String.eqb response "") && isdigit response);
    [| now split].
  destruct (mapM float_of_str _) as [[| p ps] |]; try (now split).
  split.
  - destruct Hsame as (A1 & A2 & A3 & A4 & A5 & A6 & A7). now repeat split.
  - split; [reflexivity |]. cbn [notified set_positions]. unfold notify.
    destruct Hsame as (_ & _ & _ & _ & _ & A6 & _). now rewrite Hlog, A6.
Qed.

(** X24.  While [is_connected] is [False], [send_command] returns
    [Not connected], [read_all_positions] returns an empty list and
    [send_positions] returns [False], each of them leaving the state, the
    performance counters included, as it was. *)
Theorem arm_disconnected_refuses (s : RoboticArmBackend) :
  is_connected s = false ->
  (forall command, send_command command s = ("Not connected", s))
  /\ read_all_positions s = ([], s)
  /\ (forall f positions, send_positions f positions s = (false, s)).
Proof.
  intros Hc. unfold send_command, read_all_positions, send_positions.
  now rewrite Hc.
Qed.

Lemma arm_disconnected_refuses_witness :
  let s := disconnect (arm_connected_to ["90"]) in
  (forall command, send_command command s = ("Not connected", s))
  /\ read_all_positions s = ([], s)
  /\ (forall f positions, send_positions f positions s = (false, s)).
Proof.
  intros s. apply (arm_disconnected_refuses s). reflexivity.
Defined.

(** X25.  [disconnect] leaves the backend not connected and its port, if it
    has one, closed; tasks, callbacks, cached positions, performance counters
    and the device are untouched, and a second [disconnect] changes
    nothing. *)
Theorem arm_disconnect_closes (s : RoboticArmBackend) :
  let s' := disconnect s in
  is_connected s' = false
  /\ (forall p, serial_port s' = Some p -> is_open p = false)
  /\ (is_Some (serial_port s') <-> is_Some (serial_port s))
  /\ tasks s' = tasks s
  /\ position_callbacks s' = position_callbacks s
  /\ current_positions s' = current_positions s
  /\ performance_metrics s' = performance_metrics s
  /\ dev s' = dev s
  /\ disconnect s' = s'.
Proof.
  destruct s as [mw mt [[[]] |] c ts cur cbs pm d fs log]; cbn;
    repeat split; try easy; try (intros p Hp; now inversion Hp);
    intros _; eauto.
Qed.

Lemma waypoint_of_json_bad (now : float) (wp_data : json) :
  bad_waypoint wp_data -> waypoint_of_json now wp_data = None.
Proof.
  intros (fields & -> & [Hp | [(v & Ht & Hv) | (v & Hm & Hv)]]);
    unfold waypoint_of_json, get_or.
  - now rewrite Hp.
  - rewrite Ht. cbn [as_str]. destruct (json_get "positions" fields ≫= as_floats);
      [| reflexivity].
    cbn [mbind option_bind].
    destruct (match json_get "delay_ms" fields with
              | Some j => as_int j | None => Some 500 end); [| reflexivity].
    cbn [mbind option_bind]. now rewrite Hv.
  - rewrite Hm. cbn [as_str]. destruct (json_get "positions" fields ≫= as_floats);
      [| reflexivity].
    cbn [mbind option_bind].
    destruct (match json_get "delay_ms" fields with
              | Some j => as_int j | None => Some 500 end); [| reflexivity].
    cbn [mbind option_bind].
    destruct (match json_get "trajectory_type" fields with
              | Some j => as_str j | None => Some "smooth" end);
      [| reflexivity].
    cbn [mbind option_bind].
    destruct (TrajectoryType_of _); [| reflexivity].
    cbn [mbind option_bind]. now rewrite Hv.
Qed.

Lemma mapM_bad_waypoint (now : float) (items : list json) :
  Exists bad_waypoint items -> mapM (waypoint_of_json now) items = None.
Proof.
  intros Hbad. apply mapM_None. apply Exists_exists in Hbad as (x & Hx & Hb).
  apply Exists_exists. exists x. split; [exact Hx |].
  now apply waypoint_of_json_bad.
Qed.

(** X26.  [load_task] stores nothing from a file it cannot load completely:
    when the file is missing, has no [name], or lists a waypoint with no
    [positions] or with a trajectory type or motion profile that is no
    member's value, it returns [None] and the backend is unchanged, whatever
    well-formed waypoints come before the bad one. *)
Theorem load_task_all_or_nothing (filename : string) (s : RoboticArmBackend) :
  bad_document (files s !! filename) -> load_task filename s = (None, s).
Proof.
  intros [Hnone | (fields & Hfile & [Hname | (items & Hw & Hbad)])];
    unfold load_task.
  - now rewrite Hnone.
  - rewrite Hfile. cbn [mbind option_bind task_of_json]. now rewrite Hname.
  - rewrite Hfile. cbn [mbind option_bind task_of_json].
    destruct (json_get "name" fields ≫= as_str); [| reflexivity].
    cbn [mbind option_bind].
    destruct (get_or "description" as_str "" fields); [| reflexivity].
    cbn [mbind option_bind].
    destruct (get_or "created_at" as_float _ fields); [| reflexivity].
    cbn [mbind option_bind].
    destruct (get_or "modified_at" as_float _ fields); [| reflexivity].
    cbn [mbind option_bind]. unfold get_or at 1. rewrite Hw.
    cbn [mbind option_bind]. now rewrite mapM_bad_waypoint.
Qed.

Lemma load_task_all_or_nothing_witness :
  let s :=
    set_files
      {["bad.json" :=
          JObj [("name", JStr "pick");
                ("waypoints",
                 JArr [waypoint_to_json
                         (default_waypoint f0_0 [f0_0; f0_1]);
                       JObj [("positions", JArr [JFloat f0_3]);
                             ("trajectory_type", JStr "spline")]])]]}
      pick_backend in
  load_task "bad.json" s = (None, s) /\ load_task "none.json" s = (None, s).
Proof.
  intros s. split.
  - apply (load_task_all_or_nothing "bad.json" s). right.
    eexists. split; [reflexivity |]. right. eexists. split; [reflexivity |].
    apply Exists_cons_tl, Exists_cons_hd.
    eexists. split; [reflexivity |]. right. left. exists "spline". now split.
  - apply (load_task_all_or_nothing "none.json" s). now left.
Defined.



End TaskStore.

(** ** Robotic arm: the command channel *)

Section ArmCommands.
Import Py Link RoboticArm ArmRuns ArmCalls.

Lemma running_average_returns (average : float) (successful : Z)
    (response_time : float) :
  0 < successful < 2 ^ 1000 ->
  exists a, running_average average successful response_time = inr a.
Proof.
  intros Hs. unfold running_average.
  destruct (float_of_int_bounded 1000 (successful - 1) ltac:(lia) ltac:(lia))
    as (a & -> & _).
  destruct (float_of_int_nonzero successful Hs) as (b & -> & ->).
  eauto.
Qed.

Lemma refused_response (x : exchange) :
  refused x
  = (String.eqb (arm_response_of x) ""
     || startswith "Error" (arm_response_of x)).
Proof. destruct x as [line t | msg t | msg t]; reflexivity. Qed.

Lemma arm_send_command_exchange (command : string) (x : exchange)
    (rest : list exchange) (s : RoboticArmBackend) :
  is_connected s = true ->
  is_Some (serial_port s) ->
  0 <= successful_commands (performance_metrics s) < 2 ^ 1000 - 1 ->
  next_exchange (dev s) = (x, rest) ->
  exists s',
    send_command command s = (arm_response_of x, s')
    /\ total_commands (performance_metrics s')
       = total_commands (performance_metrics s) + 1
    /\ successful_commands (performance_metrics s')
       = successful_commands (performance_metrics s)
         + (if is_reply x then 1 else 0)
    /\ error_count (performance_metrics s')
       = error_count (performance_metrics s) + (if is_reply x then 0 else 1)
    /\ wire (dev s') = wire (dev s) ++ Runs.on_wire x command
    /\ script (dev s') = rest
    /\ clock (dev s') = Runs.exchange_time x
    /\ same_store s s'.
Proof.
  intros Hc Hp Hs Hx. unfold send_command. rewrite Hc, Hx.
  rewrite (bool_decide_eq_true_2 _ Hp). cbn [negb orb].
  destruct x as [line t | msg t | msg t].
  - destruct (running_average_returns
                (average_response_time (performance_metrics s))
                (successful_commands (performance_metrics s) + 1)
                (fsub t (clock (dev s))) ltac:(lia)) as (a & ->).
    eexists. split; [reflexivity |]. cbn. repeat split; try easy; lia.
  - eexists. split; [reflexivity |]. cbn. rewrite app_nil_r.
    repeat split; try easy; lia.
  - eexists. split; [reflexivity |]. cbn. repeat split; try easy; lia.
Qed.

(** X28.  On a connected backend with an open port and fewer than 2^1000 - 1
    successes counted, [send_command] makes one exchange: it returns the
    stripped reply, or [Error: <text>] when the write or the read raises;
    [total_commands] grows by one, [successful_commands] by one exactly when
    a line came back and [error_count] by one exactly when none did; the
    command reaches the wire unless the write itself failed; connection,
    tasks, callbacks and files are untouched. *)
Theorem arm_send_command_outcome (command : string)
    (s : RoboticArmBackend) :
  is_connected s = true ->
  serial_port s = Some {| is_open := true |} ->
  0 <= successful_commands (performance_metrics s) < 2 ^ 1000 - 1 ->
  let x := fst (next_exchange (dev s)) in
  let '(response, s') := send_command command s in
  response = arm_response_of x
  /\ total_commands (performance_metrics s')
     = total_commands (performance_metrics s) + 1
  /\ successful_commands (performance_metrics s')
     = successful_commands (performance_metrics s)
       + (if is_reply x then 1 else 0)
  /\ error_count (performance_metrics s')
     = error_count (performance_metrics s) + (if is_reply x then 0 else 1)
  /\ wire (dev s') = wire (dev s) ++ Runs.on_wire x command
  /\ script (dev s') = snd (next_exchange (dev s))
  /\ clock (dev s') = Runs.exchange_time x
  /\ same_store s s'.
Proof.
  intros Hc Hp Hs. cbv zeta.
  destruct (next_exchange (dev s)) as [x rest] eqn:Hx.
  destruct (arm_send_command_exchange command x rest s Hc
              ltac:(rewrite Hp; eauto) Hs Hx) as (s' & -> & H).
  exact (conj eq_refl H).
Qed.

Lemma arm_send_command_outcome_witness :
  let s := arm_meeting [Reply " 90 " f0_1; ReadError "timeout" f0_3] in
  let '(response, s') := send_command "readall" s in
  response = "90"
  /\ total_commands (performance_metrics s') = 1
  /\ successful_commands (performance_metrics s') = 1
  /\ error_count (performance_metrics s') = 0
  /\ wire (dev s')
     = ["GET_STATUS" +:+ newline; "readall" +:+ newline]
  /\ script (dev s') = [ReadError "timeout" f0_3]
  /\ clock (dev s') = f0_1
  /\ same_store s s'.
Proof.
  intros s.
  apply (arm_send_command_outcome "readall" s);
    [reflexivity | reflexivity | vm_compute; split; discriminate || reflexivity].
Defined.

Lemma send_positions_from_outcome (f : float -> string)
    (positions : list float) :
  forall (i : Z) (xs rest : list exchange) (s : RoboticArmBackend),
  is_connected s = true ->
  is_Some (serial_port s) ->
  0 <= successful_commands (performance_metrics s) ->
  successful_commands (performance_metrics s) + Z.of_nat (length positions)
  < 2 ^ 1000 ->
  script (dev s) = xs ++ rest ->
  length xs = length positions ->
  exists s',
    send_positions_from f i positions s
    = (forallb (fun x => negb (refused x)) xs, s')
    /\ wire (dev s')
       = wire (dev s)
         ++ flat_map (fun p => Runs.on_wire (fst p) (snd p))
              (axes_sent f i positions xs)
    /\ script (dev s') = drop (length (axes_sent f i positions xs)) xs ++ rest
    /\ total_commands (performance_metrics s')
       = total_commands (performance_metrics s)
         + Z.of_nat (length (axes_sent f i positions xs))
    /\ successful_commands (performance_metrics s')
       = successful_commands (performance_metrics s)
         + Z.of_nat (length (List.filter is_reply
                               (map fst (axes_sent f i positions xs))))
    /\ same_store s s'.
Proof.
  induction positions as [| pos positions IH];
    intros i xs rest s Hc Hp Hs Hlt Hscript Hlen.
  - destruct xs; [| discriminate]. exists s. cbn.
    rewrite app_nil_r. repeat split; try easy; lia.
  - destruct xs as [| x xs]; [discriminate |].
    cbn [length] in Hlen, Hlt. injection Hlen as Hlen.
    assert (Hx : next_exchange (dev s) = (x, xs ++ rest))
      by (unfold next_exchange; now rewrite Hscript).
    destruct (arm_send_command_exchange (axis_command f i pos) x (xs ++ rest)
                s Hc Hp ltac:(lia) Hx)
      as (s1 & Hsend & H1 & H2 & H3 & H4 & H5 & H6 & H7).
    cbn [send_positions_from axes_sent forallb].
    fold (axis_command f i pos). rewrite Hsend, <- refused_response.
    destruct H7 as (A1 & A2 & A3 & A4 & A5 & A6 & A7).
    destruct (refused x) eqn:Hr; cbn [negb andb].
    + exists s1. cbn [length flat_map map List.filter fst snd drop].
      rewrite app_nil_r.
      repeat split; try easy; try lia.
      rewrite H2. destruct (is_reply x); cbn; lia.
    + assert (Hrep : is_reply x = true)
        by (destruct x; [reflexivity | discriminate | discriminate]).
      rewrite Hrep in H2, H3.
      destruct (IH (i + 1) xs rest s1) as (s' & Hgo & G1 & G2 & G3 & G4 & G5);
        [congruence | now rewrite A3 | lia | lia | exact H5 | exact Hlen |].
      exists s'. split; [exact Hgo |].
      cbn [length flat_map map List.filter fst snd drop]. rewrite Hrep.
      cbn [length].
      split; [rewrite G1, H4; now rewrite <- app_assoc |].
      split; [exact G2 |]. split; [lia |]. split; [lia |].
      apply same_store_trans with s1; [now repeat split | exact G5].
Qed.

(** X29.  [send_positions] on a connected backend with an open port, the
    device having one exchange ready per position: it numbers the axes from
    1, sends [<axis> <position>] in order and stops after the first exchange
    that raises, answers an empty line or answers a line that starts with
    [Error]; it returns [True] exactly when no exchange did.  The wire holds
    the commands issued (less one whose write failed), the exchanges not
    consumed stay with the device, [total_commands] grows by the number of
    commands issued and [successful_commands] by the number of lines that
    came back. *)
Theorem send_positions_outcome (f : float -> string)
    (positions : list float) (xs rest : list exchange)
    (s : RoboticArmBackend) :
  is_connected s = true ->
  serial_port s = Some {| is_open := true |} ->
  0 <= successful_commands (performance_metrics s) ->
  successful_commands (performance_metrics s) + Z.of_nat (length positions)
  < 2 ^ 1000 ->
  script (dev s) = xs ++ rest ->
  length xs = length positions ->
  let '(ok, s') := send_positions f positions s in
  let sent := axes_sent f 0 positions xs in
  ok = forallb (fun x => negb (refused x)) xs
  /\ wire (dev s')
     = wire (dev s) ++ flat_map (fun p => Runs.on_wire (fst p) (snd p)) sent
  /\ script (dev s') = drop (length sent) xs ++ rest
  /\ total_commands (performance_metrics s')
     = total_commands (performance_metrics s) + Z.of_nat (length sent)
  /\ successful_commands (performance_metrics s')
     = successful_commands (performance_metrics s)
       + Z.of_nat (length (List.filter is_reply (map fst sent)))
  /\ same_store s s'.
Proof.
  intros Hc Hp Hs Hlt Hscript Hlen. unfold send_positions. rewrite Hc.
  cbn [negb].
  destruct (send_positions_from_outcome f positions 0 xs rest s Hc
              ltac:(rewrite Hp; eauto) Hs Hlt Hscript Hlen) as (s' & -> & H).
  exact (conj eq_refl H).
Qed.

Lemma send_positions_outcome_witness :
  let s := arm_meeting [Reply "ok" f0_1; Reply "" f0_3; Reply "ok" f0_7] in
  let '(ok, s') :=
    send_positions sample_str_of_float [of_Z 90; of_Z 45; of_Z 10] s in
  ok = false
  /\ wire (dev s')
     = ["GET_STATUS" +:+ newline; "1 90.0" +:+ newline; "2 45.0" +:+ newline]
  /\ script (dev s') = [Reply "ok" f0_7]
  /\ total_commands (performance_metrics s') = 2
  /\ successful_commands (performance_metrics s') = 2
  /\ same_store s s'.
Proof.
  intros s.
  apply (send_positions_outcome sample_str_of_float
           [of_Z 90; of_Z 45; of_Z 10]
           [Reply "ok" f0_1; Reply "" f0_3; Reply "ok" f0_7] [] s);
    try reflexivity; vm_compute; (discriminate || reflexivity).
Defined.

End ArmCommands.
